(** * Verification of the listing scraper and autofill engine

    A shallow embedding of the extension's scraper ([scrapeListingFromDom]),
    its mapping loader ([loadMappings]), the autofill steps
    ([fillRoomsField], [fillBathroomField], [selectDealType], ...), the
    listing storage and the collection of listing addresses from a page of
    search results, with the properties the specification states about them
    and further properties of the code.

    JavaScript strings are sequences of UTF-16 code units, numbers are the
    binary64 values, each written as the decimal it is equal to, objects used
    as dictionaries are finite maps (lists of entries in insertion order
    where the code walks their keys) with the properties a plain object
    inherits from [Object.prototype], and the DOM is a record of the queries
    the code issues against it. *)

From Stdlib Require Import ZArith NArith QArith Lia List Bool Ascii String.
From stdpp Require Import base option list gmap.

Local Open Scope N_scope.

(** ** Strings *)

Module JsString.

(** A JavaScript string: its UTF-16 code units. *)
Definition jsstring := list N.

(** [bytes s] lists the bytes of a literal. *)
Fixpoint bytes (s : string) : list N :=
  match s with
  | EmptyString => []
  | String a r => N_of_ascii a :: bytes r
  end.

(** Continuation bytes carry six payload bits. *)
Definition cont (b : N) : N := N.land b 63.

(** [utf16 bs] decodes UTF-8 bytes into UTF-16 code units; a code point above
    the basic plane becomes a surrogate pair. *)
Fixpoint utf16 (bs : list N) : jsstring :=
  match bs with
  | [] => []
  | b :: r =>
      if b <? 128 then b :: utf16 r
      else if b <? 224 then
        match r with
        | b1 :: r1 => (N.shiftl (N.land b 31) 6 + cont b1) :: utf16 r1
        | _ => []
        end
      else if b <? 240 then
        match r with
        | b1 :: b2 :: r2 =>
            (N.shiftl (N.land b 15) 12 + N.shiftl (cont b1) 6 + cont b2) :: utf16 r2
        | _ => []
        end
      else
        match r with
        | b1 :: b2 :: b3 :: r3 =>
            let cp := N.shiftl (N.land b 7) 18 + N.shiftl (cont b1) 12
                      + N.shiftl (cont b2) 6 + cont b3 in
            let v := cp - 65536 in
            (55296 + N.shiftr v 10) :: (56320 + N.land v 1023) :: utf16 r3
        | _ => []
        end
  end.

(** The code units of a literal written in this file. *)
Definition utf16Of (s : string) : jsstring := utf16 (bytes s).

(** [js "..."] stands for the code units themselves. *)
Notation "'js' s" := (ltac:(let v := eval vm_compute in (utf16Of s) in exact v))
  (at level 10, s at level 9, only parsing).

(** The double quote, for selectors that contain one. *)
Definition dq : jsstring := [34].

(** *** Character classes *)

(** [\d] *)
Definition isDigit (c : N) : bool := (48 <=? c) && (c <=? 57).

(** LineTerminator: LF, CR, LS, PS. *)
Definition isLineTerminator (c : N) : bool :=
  (c =? 10) || (c =? 13) || (c =? 8232) || (c =? 8233).

(** [\s], also what [trim] strips: WhiteSpace and LineTerminator. *)
Definition isSpace (c : N) : bool :=
  (c =? 9) || (c =? 10) || (c =? 11) || (c =? 12) || (c =? 13) || (c =? 32)
  || (c =? 160) || (c =? 5760) || ((8192 <=? c) && (c <=? 8202))
  || (c =? 8232) || (c =? 8233) || (c =? 8239) || (c =? 8287)
  || (c =? 12288) || (c =? 65279).

(** [\w] without the unicode flag: ASCII letters, digits and underscore. *)
Definition isWord (c : N) : bool :=
  ((97 <=? c) && (c <=? 122)) || ((65 <=? c) && (c <=? 90))
  || isDigit c || (c =? 95).

(** Strings in which a unit does not occur. *)
Definition free (c : N) (s : list N) : Prop := Forall (fun a => a <> c) s.

(** Strings made of ASCII units only. *)
Definition ascii (s : list N) : Prop := Forall (fun c => c < 128) s.

(** *** String methods *)

Definition eqb (s t : jsstring) : bool := bool_decide (s = t).

Fixpoint startsWith (s t : jsstring) {struct t} : bool :=
  match t, s with
  | [], _ => true
  | _ :: _, [] => false
  | b :: t', a :: s' => (a =? b) && startsWith s' t'
  end.

(** [s.includes(t)] *)
Fixpoint includes (s t : jsstring) : bool :=
  startsWith s t ||
  match s with
  | [] => false
  | _ :: s' => includes s' t
  end.

Fixpoint dropWhile (p : N -> bool) (s : jsstring) : jsstring :=
  match s with
  | [] => []
  | a :: s' => if p a then dropWhile p s' else s
  end.

Definition trimStart (s : jsstring) : jsstring := dropWhile isSpace s.
Definition trimEnd (s : jsstring) : jsstring := rev (trimStart (rev s)).
Definition trim (s : jsstring) : jsstring := trimEnd (trimStart s).

(** [s.replace(/[^...]/g, '')] for a character class: keep what is in the class. *)
Definition keep (p : N -> bool) (s : jsstring) : jsstring := List.filter p s.

(** [s.replace(c, r)] with a one-character string pattern: first occurrence only. *)
Fixpoint replaceFirst (c : N) (r : jsstring) (s : jsstring) : jsstring :=
  match s with
  | [] => []
  | a :: s' => if a =? c then r ++ s' else a :: replaceFirst c r s'
  end.

(** [s.split(c)] for a one-character separator. *)
Fixpoint split (c : N) (s : jsstring) : list jsstring :=
  match s with
  | [] => [[]]
  | a :: s' =>
      if a =? c then [] :: split c s'
      else match split c s' with
           | p :: ps => (a :: p) :: ps
           | [] => [[a]]
           end
  end.

(** [s.lastIndexOf(c)], with [None] for -1. *)
Fixpoint lastIndexOf_from (i : nat) (c : N) (s : jsstring) (acc : option nat) : option nat :=
  match s with
  | [] => acc
  | a :: s' => lastIndexOf_from (S i) c s' (if a =? c then Some i else acc)
  end.
Definition lastIndexOf (c : N) (s : jsstring) : option nat := lastIndexOf_from 0 c s None.

(** [arr.join(sep)] *)
Fixpoint join (sep : jsstring) (l : list jsstring) : jsstring :=
  match l with
  | [] => []
  | [x] => x
  | x :: r => x ++ sep ++ join sep r
  end.

(** Case mapping of one code unit, for ASCII and the Georgian blocks (Mtavruli
    capitals U+1C90..U+1CBF lower to Mkhedruli U+10D0..U+10FF, Asomtavruli
    U+10A0..U+10C5 to Nuskhuri U+2D00..U+2D25); U+0130 lowers to two units.
    Other scripts are left as they are. *)
Definition lowerUnit (c : N) : jsstring :=
  if (65 <=? c) && (c <=? 90) then [c + 32]
  else if (7312 <=? c) && (c <=? 7359) && negb ((7355 <=? c) && (c <=? 7356)) then [c - 3008]
  else if (4256 <=? c) && (c <=? 4293) then [c + 7264]
  else if c =? 304 then [105; 775]
  else [c].

(** [s.toLowerCase()] *)
Definition toLowerCase (s : jsstring) : jsstring := flat_map lowerUnit s.

End JsString.
Export JsString.

(** ** Numbers *)

Module JsNumber.

(** A JavaScript number: [NaN], an infinity, or a finite value, written as
    the decimal [m * 10^e] (every binary64 value is such a decimal). The
    numbers the program computes are binary64 values: [parseFloat] rounds
    what it reads ([round64]), and [toString] gives the shortest digits that
    read back as the number. *)
Inductive jsnum :=
  | NaN
  | Inf (neg : bool)
  | Dec (m e : Z).

Definition isNaN (x : jsnum) : bool :=
  match x with NaN => true | _ => false end.

(** [k < m * 10^e], on integers. *)
Definition dec_gt (m e k : Z) : bool :=
  if (0 <=? e)%Z then (k <? m * 10 ^ e)%Z else (k * 10 ^ (- e) <? m)%Z.

(** [x > k] for an integer literal [k]. *)
Definition gt (x : jsnum) (k : Z) : bool :=
  match x with
  | NaN => false
  | Inf neg => negb neg
  | Dec m e => dec_gt m e k
  end.

(** [k <= m * 10^e], on integers. *)
Definition dec_ge (m e k : Z) : bool :=
  if (0 <=? e)%Z then (k <=? m * 10 ^ e)%Z else (k * 10 ^ (- e) <=? m)%Z.

(** [x >= k] for an integer literal [k]. *)
Definition ge (x : jsnum) (k : Z) : bool :=
  match x with
  | NaN => false
  | Inf neg => negb neg
  | Dec m e => dec_ge m e k
  end.

(** [x === 0] *)
Definition isZero (x : jsnum) : bool :=
  match x with Dec 0 _ => true | _ => false end.

(** The value of a run of decimal digits. *)
Definition digitsValue (ds : jsstring) : Z :=
  fold_left (fun acc d => (acc * 10 + (Z.of_N d - 48))%Z) ds 0%Z.

(** Texts made of decimal digits only. *)
Definition digits (s : jsstring) : Prop := Forall (fun c => isDigit c = true) s.

(** What may follow a number for [parseFloat] to stop there: the end of the
    text, or a unit that is neither a digit nor an exponent mark. *)
Definition stops (r : jsstring) : Prop :=
  match r with
  | [] => True
  | c :: _ => isDigit c = false /\ c <> 101 /\ c <> 69
  end.

(** The longest prefix of digits, and what follows it. *)
Fixpoint spanDigits (s : jsstring) : jsstring * jsstring :=
  match s with
  | [] => ([], [])
  | a :: s' =>
      if isDigit a then let '(ds, r) := spanDigits s' in (a :: ds, r)
      else ([], s)
  end.

(** An optional sign: whether it is a minus, and what follows it. *)
Definition signOf (s : jsstring) : bool * jsstring :=
  match s with
  | c :: r => if c =? 45 then (true, r) else if c =? 43 then (false, r) else (false, s)
  | [] => (false, s)
  end.

(** ExponentPart: [e] or [E], an optional sign, at least one digit. *)
Definition exponentPart (s : jsstring) : Z :=
  match s with
  | c :: r =>
      if (c =? 101) || (c =? 69) then
        let '(neg, r') := signOf r in
        match fst (spanDigits r') with
        | [] => 0%Z
        | ds => if neg then (- digitsValue ds)%Z else digitsValue ds
        end
      else 0%Z
  | [] => 0%Z
  end.

(** The digits after a decimal point, if there is one, and what follows. *)
Definition fractionOf (r1 : jsstring) : jsstring * jsstring :=
  match r1 with
  | c :: r => if c =? 46 then spanDigits r else ([], r1)
  | [] => ([], r1)
  end.

(** [n / d] rounded to the nearest integer, a tie to the even one, for
    [d > 0]. *)
Definition roundHalfEven (n d : Z) : Z :=
  let q := (n / d)%Z in
  match (2 * (n mod d) ?= d)%Z with
  | Lt => q
  | Gt => (q + 1)%Z
  | Eq => if Z.even q then q else (q + 1)%Z
  end.

(** The binary exponent of a positive [n / d]: the [p] with
    [2^p <= n / d < 2^(p+1)]. *)
Definition binaryExponent (n d : Z) : Z :=
  let p := (Z.log2 n - Z.log2 d)%Z in
  if (if (0 <=? p)%Z then (d * 2 ^ p <=? n)%Z else (d <=? n * 2 ^ (- p))%Z)
  then p else (p - 1)%Z.

(** [m * 10^e] without the trailing zeros of [m], as far as [e] is
    negative. *)
Fixpoint stripTens (fuel : nat) (m e : Z) : jsnum :=
  match fuel with
  | O => Dec m e
  | S f =>
      if (e <? 0)%Z && (m mod 10 =? 0)%Z then stripTens f (m / 10)%Z (e + 1)%Z else Dec m e
  end.

(** [q * 2^k] written as a decimal. *)
Definition ofBinary (q k : Z) : jsnum :=
  if (0 <=? k)%Z then Dec (q * 2 ^ k) 0
  else stripTens (Z.to_nat (- k)) (q * 5 ^ (- k)) k.

(** The binary64 number nearest to a positive [n / d], a tie going to the
    even significand: 53 bits of significand, exponents down to [-1074]
    (the subnormal numbers), infinity from [2^1024] on. *)
Definition nearest64 (neg : bool) (n d : Z) : jsnum :=
  let k := Z.max (binaryExponent n d - 52) (-1074) in
  let q := if (0 <=? k)%Z then roundHalfEven n (d * 2 ^ k)
           else roundHalfEven (n * 2 ^ (- k)) d in
  if (1024 <=? Z.log2 q + k)%Z then Inf neg
  else ofBinary (if neg then - q else q)%Z k.

(** The Number value of the decimal [m * 10^e]: the nearest binary64
    number. *)
Definition round64 (m e : Z) : jsnum :=
  match m with
  | 0%Z => Dec 0 0
  | _ =>
      if (0 <=? e)%Z then nearest64 (m <? 0)%Z (Z.abs m * 10 ^ e) 1
      else nearest64 (m <? 0)%Z (Z.abs m) (10 ^ (- e))
  end.

(** [parseFloat(s)] for a string: leading white space is skipped, then the
    longest prefix that is a StrDecimalLiteral is read and rounded to the
    nearest Number; [NaN] when there is none. *)
Definition parseFloat (s : jsstring) : jsnum :=
  let '(neg, s2) := signOf (trimStart s) in
  if startsWith s2 (js "Infinity") then Inf neg
  else
    let '(ip, r1) := spanDigits s2 in
    let '(fp, r2) := fractionOf r1 in
    match ip ++ fp with
    | [] => NaN
    | ds =>
        let v := digitsValue ds in
        round64 (if neg then - v else v) (exponentPart r2 - Z.of_nat (length fp))
    end.

(** The decimal digits of a natural number. *)
Fixpoint uintUnits (u : Decimal.uint) : jsstring :=
  match u with
  | Decimal.Nil => []
  | Decimal.D0 r => 48 :: uintUnits r
  | Decimal.D1 r => 49 :: uintUnits r
  | Decimal.D2 r => 50 :: uintUnits r
  | Decimal.D3 r => 51 :: uintUnits r
  | Decimal.D4 r => 52 :: uintUnits r
  | Decimal.D5 r => 53 :: uintUnits r
  | Decimal.D6 r => 54 :: uintUnits r
  | Decimal.D7 r => 55 :: uintUnits r
  | Decimal.D8 r => 56 :: uintUnits r
  | Decimal.D9 r => 57 :: uintUnits r
  end.

Definition natDigits (n : N) : jsstring := uintUnits (N.to_uint n).

(** Trailing zeros of a digit string, dropped, and how many there were. *)
Definition stripZeros (ds : jsstring) : jsstring * nat :=
  let r := dropWhile (fun c => c =? 48) (rev ds) in
  (rev r, (length ds - length r)%nat).

(** Number::toString for a positive [m * 10^e]: with [s] the digits of the
    value without trailing zeros, [k] their count and [n] the position of the
    decimal point. *)
Definition positiveToString (m : N) (e : Z) : jsstring :=
  let '(s, z) := stripZeros (natDigits m) in
  let k := Z.of_nat (length s) in
  let n := (k + e + Z.of_nat z)%Z in
  if ((k <=? n) && (n <=? 21))%Z then
    s ++ repeat 48 (Z.to_nat (n - k))
  else if ((0 <? n) && (n <=? 21))%Z then
    take (Z.to_nat n) s ++ [46] ++ drop (Z.to_nat n) s
  else if ((-6 <? n) && (n <=? 0))%Z then
    [48; 46] ++ repeat 48 (Z.to_nat (- n)) ++ s
  else
    let ex := (n - 1)%Z in
    let sign := if (ex <? 0)%Z then [45] else [43] in
    let mant := match s with
                | [d] => [d]
                | d :: r => d :: 46 :: r
                | [] => []
                end in
    mant ++ [101] ++ sign ++ natDigits (Z.to_N (Z.abs ex)).

Definition eqNum (x y : jsnum) : bool :=
  match x, y with
  | NaN, NaN => true
  | Inf a, Inf b => Bool.eqb a b
  | Dec m e, Dec m' e' => (m =? m')%Z && (e =? e')%Z
  | _, _ => false
  end.

(** The search of Number::toString for the digits to print: the least
    count [n] of digits for which a decimal of [n] digits next to the
    number reads back as the number [x], and of the two such decimals the
    nearer one. [m] has [len] digits; 17 digits always suffice. *)
Fixpoint shortestFrom (fuel : nat) (n : Z) (x : jsnum) (m e len : Z) : Z * Z :=
  match fuel with
  | O => (m, e)
  | S f =>
      if (len <=? n)%Z then (m, e)
      else
        let u := (10 ^ (len - n))%Z in
        let lo := (m / u)%Z in
        let e' := (e + (len - n))%Z in
        let okLo := eqNum (round64 lo e') x in
        let okHi := eqNum (round64 (lo + 1) e') x in
        let nearerHi := match (2 * (m mod u) ?= u)%Z with
                        | Lt => false
                        | Gt => true
                        | Eq => Z.odd lo
                        end in
        if okLo && okHi then (if nearerHi then (lo + 1)%Z else lo, e')
        else if okLo then (lo, e')
        else if okHi then ((lo + 1)%Z, e')
        else shortestFrom f (n + 1)%Z x m e len
  end.

(** The digits and the exponent Number::toString prints for the positive
    Number nearest to [m * 10^e]. *)
Definition shortestDigits (m : N) (e : Z) : N * Z :=
  let '(s, t) := shortestFrom 17 1 (round64 (Z.of_N m) e) (Z.of_N m) e
                   (Z.of_nat (length (natDigits m))) in
  (Z.to_N s, t).

(** [x.toString()] for a number. *)
Definition toString (x : jsnum) : jsstring :=
  match x with
  | NaN => js "NaN"
  | Inf false => js "Infinity"
  | Inf true => js "-Infinity"
  | Dec 0 _ => [48]
  | Dec (Zpos p) e => let '(s, t) := shortestDigits (Npos p) e in positiveToString s t
  | Dec (Zneg p) e => let '(s, t) := shortestDigits (Npos p) e in 45 :: positiveToString s t
  end.

End JsNumber.
Export JsNumber.

(** ** Values *)

(** The values a listing record holds. *)
Inductive jsval :=
  | VUndef
  | VNull
  | VNum (x : jsnum)
  | VStr (s : jsstring).

(** ToBoolean *)
Definition truthy (v : jsval) : bool :=
  match v with
  | VUndef | VNull => false
  | VNum NaN => false
  | VNum (Dec 0 _) => false
  | VNum _ => true
  | VStr [] => false
  | VStr _ => true
  end.

(** [v.toString()] on a value that is neither [undefined] nor [null]. *)
Definition valToString (v : jsval) : jsstring :=
  match v with
  | VUndef => js "undefined"
  | VNull => js "null"
  | VNum x => toString x
  | VStr s => s
  end.

(** [parseFloat(v)]: the argument is converted to a string first; a number
    reads back from its own string as itself. *)
Definition parseFloatVal (v : jsval) : jsnum :=
  match v with
  | VNum x => x
  | VStr s => parseFloat s
  | VUndef | VNull => NaN
  end.

(** A value that is present: a non-empty text or a number, neither
    [null] nor [undefined]. *)
Definition presentValue (v : jsval) : Prop :=
  match v with
  | VStr (_ :: _) => True
  | VNum x => isNaN x = false
  | _ => False
  end.

(** [object[key] = value] on a plain object, for a value that is a text or
    a number: [__proto__] names the accessor of the prototype, which ignores
    such a value; any other key becomes an own property. *)
Definition setProp {V : Type} (key : jsstring) (value : V) (o : gmap jsstring V)
    : gmap jsstring V :=
  if JsString.eqb key (js "__proto__") then o else <[key := value]> o.

(** What a plain object inherits: a method of [Object.prototype], with its
    [length], or under [__proto__] the prototype itself. *)
Inductive inherited :=
  | Method (length : nat)
  | Prototype.

(** The properties of [Object.prototype]. *)
Definition objectPrototype : list (jsstring * inherited) :=
  [ (js "constructor", Method 1);
    (js "__defineGetter__", Method 2);
    (js "__defineSetter__", Method 2);
    (js "hasOwnProperty", Method 1);
    (js "__lookupGetter__", Method 1);
    (js "__lookupSetter__", Method 1);
    (js "isPrototypeOf", Method 1);
    (js "propertyIsEnumerable", Method 1);
    (js "toString", Method 0);
    (js "valueOf", Method 0);
    (js "__proto__", Prototype);
    (js "toLocaleString", Method 0) ].

(** [object[name]] for a name that is not an own property of the object. *)
Definition inheritedProperty (name : jsstring) : option inherited :=
  snd <$> List.find (fun e => JsString.eqb (fst e) name) objectPrototype.

(** ** The scraper: price text *)

Definition comma : N := 44.
Definition dot : N := 46.

Definition isDigitOrSeparator (c : N) : bool := isDigit c || (c =? dot) || (c =? comma).

(** [toNumber] inside [parsePriceText]. *)
Definition toNumber (str : jsstring) : option jsnum :=
  let num := parseFloat str in
  if isNaN num then None else Some num.

(** [value.replace(/,/g, '')] and [value.replace(/\./g, '')]. *)
Definition removeAll (c : N) (s : jsstring) : jsstring := keep (fun a => negb (a =? c)) s.

(** The last element of [s.split(c)]. *)
Definition lastPart (c : N) (s : jsstring) : jsstring := List.last (split c s) [].

Definition index_gt (a b : option nat) : bool :=
  match a, b with
  | Some i, Some j => (j <? i)%nat
  | Some _, None => true
  | None, _ => false
  end.

(** [text.replace(/[\s\u00A0]/g, '').replace(/[^\d.,]/g, '')] *)
Definition priceDigits (text : jsstring) : jsstring :=
  keep isDigitOrSeparator (keep (fun c => negb (isSpace c || (c =? 160))) text).

(** Digit groups written with a separator between them. *)
Definition grouped (sep : N) (groups : list jsstring) : jsstring := join [sep] groups.

(** The separator rules of [parsePriceText], on the text that is left of
    digits and separators. *)
Definition parseSeparated (value : jsstring) : option jsnum :=
  let hasComma := includes value [comma] in
  let hasDot := includes value [dot] in
  if hasComma && hasDot then
    if index_gt (lastIndexOf dot value) (lastIndexOf comma value) then
      toNumber (removeAll comma value)
    else
      toNumber (replaceFirst comma [dot] (removeAll dot value))
  else if hasComma then
    let parts := split comma value in
    let last := lastPart comma value in
    if (length last =? 3)%nat && (1 <? length parts)%nat then
      toNumber (removeAll comma value)
    else if (length last <=? 2)%nat then
      toNumber (replaceFirst comma [dot] value)
    else
      toNumber (removeAll comma value)
  else if hasDot then
    let parts := split dot value in
    let last := lastPart dot value in
    if (length last =? 3)%nat && (1 <? length parts)%nat then
      toNumber (removeAll dot value)
    else
      toNumber value
  else
    toNumber value.

(** [parsePriceText(text)], with [None] for [null]. *)
Definition parsePriceText (text : jsstring) : option jsnum :=
  match text with
  | [] => None
  | _ =>
    match priceDigits text with
    | [] => None
    | value => parseSeparated value
    end
  end.

(** The conversion of the price text in the copy of the extractor that has
    no [parsePriceText]: the last character is cut,
    what is neither digit nor separator is dropped, the first comma becomes
    a dot, and [parseFloat] reads the rest; [None] when nothing is stored. *)
Definition inlinePriceNumber (priceText : jsstring) : option jsnum :=
  match priceText with
  | [] => None
  | _ =>
      let trimmed := trim priceText in
      let priceWithoutLastSymbol := take (length trimmed - 1) trimmed in
      let cleanedPrice :=
        replaceFirst comma [dot] (keep isDigitOrSeparator priceWithoutLastSymbol) in
      let priceNumber := parseFloat cleanedPrice in
      if negb (isNaN priceNumber) then Some priceNumber else None
  end.

(** The separator rule in the words of the specification, for comparison
    with [parseSeparated]: with both separators the right-most one is the
    decimal mark; with only one kind, it is the decimal mark exactly when at
    most two digits follow the last one and it occurs once, and a thousands
    separator otherwise, alike for comma and dot. *)
Definition statedSeparatorRule (value : jsstring) : option jsnum :=
  let hasComma := includes value [comma] in
  let hasDot := includes value [dot] in
  let single (c : N) :=
    if (length (lastPart c value) <=? 2)%nat && (length (split c value) =? 2)%nat
    then toNumber (replaceFirst c [dot] value)
    else toNumber (removeAll c value) in
  if hasComma && hasDot then
    if index_gt (lastIndexOf dot value) (lastIndexOf comma value) then
      toNumber (removeAll comma value)
    else
      toNumber (replaceFirst comma [dot] (removeAll dot value))
  else if hasComma then single comma
  else if hasDot then single dot
  else toNumber value.

(** ** Regular expressions *)

Module Regex.

(** The fragment of the regular-expression language the program uses. *)
Inductive re :=
  | Eps
  | Chr (p : N -> bool)
  | Cat (r1 r2 : re)
  | Alt (r1 r2 : re)
  | Star (greedy : bool) (r : re)
  | Grp (i : nat) (r : re)
  | Bol
  | Eol
  | WordB
  | Ahead (r : re).

(** A matcher state: the input already consumed (last unit first), the input
    ahead, and the groups captured so far (latest first). *)
Record st := mkSt {
  before : jsstring;
  after : jsstring;
  caps : list (nat * jsstring)
}.

Definition cont := st -> option st.

Definition orElse (a : option st) (b : option st) : option st :=
  match a with Some x => Some x | None => b end.

(** One unit of input is consumed. *)
Definition advance (s : st) : option (N * st) :=
  match after s with
  | c :: r => Some (c, mkSt (c :: before s) r (caps s))
  | [] => None
  end.

(** Iterations of a starred expression; an iteration that consumes nothing is
    rejected. [fuel] bounds the input still ahead. *)
Fixpoint starLoop (body : st -> cont -> option st) (greedy : bool) (k : cont)
    (fuel : nat) (s : st) : option st :=
  match fuel with
  | O => k s
  | S f =>
      let more := body s (fun s' =>
        if (length (after s') <? length (after s))%nat
        then starLoop body greedy k f s' else None) in
      if greedy then orElse more (k s) else orElse (k s) more
  end.

Definition wordAt (l : jsstring) : bool :=
  match l with c :: _ => isWord c | [] => false end.

(** The text a group matched, from the consumed input at its start and end. *)
Definition captured (s0 s1 : st) : jsstring :=
  rev (take (length (before s1) - length (before s0)) (before s1)).

(** Backtracking matching in continuation-passing style: alternatives are
    tried in order, the first overall success wins. *)
Fixpoint run (r : re) (s : st) (k : cont) : option st :=
  match r with
  | Eps => k s
  | Chr p =>
      match advance s with
      | Some (c, s') => if p c then k s' else None
      | None => None
      end
  | Cat r1 r2 => run r1 s (fun s' => run r2 s' k)
  | Alt r1 r2 => orElse (run r1 s k) (run r2 s k)
  | Star g r1 => starLoop (run r1) g k (length (after s)) s
  | Grp i r1 =>
      run r1 s (fun s' =>
        k (mkSt (before s') (after s') ((i, captured s s') :: caps s')))
  | Bol => match before s with [] => k s | _ => None end
  | Eol => match after s with [] => k s | _ => None end
  | WordB => if xorb (wordAt (before s)) (wordAt (after s)) then k s else None
  | Ahead r1 =>
      match run r1 s Some with
      | Some s' => k (mkSt (before s) (after s) (caps s'))
      | None => None
      end
  end.

Definition plus (g : bool) (r : re) : re := Cat r (Star g r).
Definition opt (r : re) : re := Alt r Eps.
Definition lit (c : N) : re := Chr (fun x => x =? c).
Definition str (s : jsstring) : re := fold_right (fun c r => Cat (lit c) r) Eps s.

(** [.]: anything but a line terminator. *)
Definition any : re := Chr (fun c => negb (isLineTerminator c)).
(** [\s] *)
Definition ws : re := Chr isSpace.

(** Canonicalize of the [i] flag: the upper-case unit, for ASCII and for
    Georgian Mkhedruli (whose capitals are the Mtavruli letters). *)
Definition canon (c : N) : N :=
  if (97 <=? c) && (c <=? 122) then c - 32
  else if ((4304 <=? c) && (c <=? 4346)) || ((4349 <=? c) && (c <=? 4351)) then c + 3008
  else c.

Definition liti (c : N) : re := Chr (fun x => canon x =? canon c).
Definition stri (s : jsstring) : re := fold_right (fun c r => Cat (liti c) r) Eps s.

(** A class given by its members, under the [i] flag. *)
Definition classi (p : N -> bool) (members : jsstring) : re :=
  Chr (fun x => p x || existsb (fun a => canon x =? canon a) members).

Definition group (s : st) (i : nat) : jsstring :=
  match List.find (fun c => Nat.eqb (fst c) i) (caps s) with
  | Some c => snd c
  | None => []
  end.

(** A match starting exactly at the state's position. *)
Definition matchHere (r : re) (s : st) : option st := run r s Some.

(** [re.exec(s)]: the leftmost start position at which the expression matches. *)
Fixpoint execFrom (r : re) (fuel : nat) (s : st) : option (st * st) :=
  match matchHere r s with
  | Some s' => Some (s, s')
  | None =>
      match fuel, advance s with
      | S f, Some (_, s1) => execFrom r f s1
      | _, _ => None
      end
  end.

Definition exec (r : re) (s : jsstring) : option (st * st) :=
  execFrom r (length s) (mkSt [] s []).

(** [re.test(s)] *)
Definition test (r : re) (s : jsstring) : bool :=
  match exec r s with Some _ => true | None => false end.

(** [s.replace(re, f)]: the first match, or with the [g] flag every match from
    left to right, is replaced by what [f] makes of its groups; after an empty
    match the search resumes one unit further. *)
Fixpoint replaceFrom (r : re) (f : st -> jsstring) (g : bool) (fuel : nat) (s : st)
    : jsstring :=
  match fuel with
  | O => after s
  | S n =>
      match matchHere r s with
      | Some s' =>
          let s0 := mkSt (before s') (after s') [] in
          let rest :=
            if negb g then after s'
            else if (length (after s') <? length (after s))%nat
            then replaceFrom r f g n s0
            else match advance s0 with
                 | Some (c, s1) => c :: replaceFrom r f g n s1
                 | None => []
                 end in
          f s' ++ rest
      | None =>
          match advance s with
          | Some (c, s1) => c :: replaceFrom r f g n s1
          | None => []
          end
      end
  end.

Definition replace (r : re) (f : st -> jsstring) (g : bool) (s : jsstring) : jsstring :=
  replaceFrom r f g (S (length s)) (mkSt [] s []).

(** [avoids c r]: no match of [r] consumes the unit [c]. *)
Fixpoint avoids (c : N) (r : re) : Prop :=
  match r with
  | Chr p => p c = false
  | Cat r1 r2 | Alt r1 r2 => avoids c r1 /\ avoids c r2
  | Star _ r1 | Grp _ r1 => avoids c r1
  | Eps | Bol | Eol | WordB | Ahead _ => True
  end.

(** [needs X r]: every match of [r] consumes, or sees ahead, a unit of the
    class [X]. *)
Fixpoint needs (X : N -> bool) (r : re) : Prop :=
  match r with
  | Chr p => forall c, p c = true -> X c = true
  | Cat r1 r2 => needs X r1 \/ needs X r2
  | Alt r1 r2 => needs X r1 /\ needs X r2
  | Grp _ r1 | Ahead r1 => needs X r1
  | Eps | Star _ _ | Bol | Eol | WordB => False
  end.

(** Texts without a unit of the class [X]. *)
Definition without (X : N -> bool) (a : jsstring) : Prop := Forall (fun c => X c = false) a.

End Regex.

(** ** The scraper: address *)

Import Regex.

(** [\s*მ\/რ$], the end of the address pattern. *)
Definition addressEnding : re :=
  Cat (Star true ws) (Cat (str (js "მ/რ")) Eol).

(** [\s*-\s*(.+?)\s*მ\/რ$], what follows the district in the address pattern. *)
Definition addressAfterDistrict : re :=
  Cat (Star true ws) (Cat (lit 45) (Cat (Star true ws)
    (Cat (Grp 2 (plus false any)) addressEnding))).

(** [/^(.+?)\s*-\s*(.+?)\s*მ\/რ$/] *)
Definition addressPattern : re :=
  Cat Bol (Cat (Grp 1 (plus false any)) addressAfterDistrict).


(** [transformAddress(address)] *)
Definition transformAddress (address : jsstring) : jsstring :=
  match address with
  | [] => address
  | _ =>
      match exec addressPattern address with
      | Some (_, mt) =>
          let district := trim (group mt 1) in
          let microdistrict := trim (group mt 2) in
          microdistrict ++ js " მიკრორაიონი - " ++ district
      | None => address
      end
  end.

(** ** Exceptions *)

Inductive error :=
  | TypeError
  | SyntaxError
  | Error (msg : jsstring).

(** The outcome of a call that may throw. *)
Inductive result (A : Type) :=
  | Ok (a : A)
  | Throw (e : error).
Arguments Ok {A} a.
Arguments Throw {A} e.

Definition bind {A B : Type} (x : result A) (f : A -> result B) : result B :=
  match x with
  | Ok a => f a
  | Throw e => Throw e
  end.

Notation "x <- e ;; k" := (bind e (fun x => k))
  (at level 200, e at level 99, right associativity, only parsing).

(** [try { ... } catch { ... }] *)
Definition catch {A : Type} (x : result A) (h : error -> A) : A :=
  match x with
  | Ok a => a
  | Throw e => h e
  end.

(** [arr.forEach(f)] over an accumulator, stopping at the first throw. *)
Fixpoint forEachM {A S : Type} (f : S -> A -> result S) (l : list A) (acc : S) : result S :=
  match l with
  | [] => Ok acc
  | x :: r => acc' <- f acc x ;; forEachM f r acc'
  end.

(** ** The page *)

(** The document the scraper runs against: its elements and the answers to
    the queries the code makes. A selector the engine rejects makes a query
    throw a SyntaxError. *)
Record DOM := mkDOM {
  Element : Type;
  textContent : Element -> jsstring;
  innerText : Element -> jsstring;
  body : option Element;
  validSelector : jsstring -> bool;
  docQuerySelector : jsstring -> option Element;
  docQuerySelectorAll : jsstring -> list Element;
  elQuerySelector : Element -> jsstring -> option Element;
  elQuerySelectorAll : Element -> jsstring -> list Element;
  elClosest : Element -> jsstring -> option Element;
  parentElement : Element -> option Element;
  nextElementSibling : Element -> option Element;
  getAttribute : Element -> jsstring -> option jsstring;
  currentSrc : Element -> jsstring;
  srcProperty : Element -> jsstring;
  locationHref : jsstring;
  resolveUrl : jsstring -> option jsstring;
  isoNow : jsstring
}.

Section Queries.
Context (d : DOM).

Definition checked {A : Type} (sel : jsstring) (a : A) : result A :=
  if validSelector d sel then Ok a else Throw SyntaxError.

(** [document.querySelector(sel)] *)
Definition querySelector (sel : jsstring) : result (option (Element d)) :=
  checked sel (docQuerySelector d sel).

(** [document.querySelectorAll(sel)] *)
Definition querySelectorAll (sel : jsstring) : result (list (Element d)) :=
  checked sel (docQuerySelectorAll d sel).

(** [el.querySelector(sel)] *)
Definition querySelectorIn (el : Element d) (sel : jsstring) : result (option (Element d)) :=
  checked sel (elQuerySelector d el sel).

(** [el.querySelectorAll(sel)] *)
Definition querySelectorAllIn (el : Element d) (sel : jsstring) : result (list (Element d)) :=
  checked sel (elQuerySelectorAll d el sel).

(** [el.closest(sel)] *)
Definition closest (el : Element d) (sel : jsstring) : result (option (Element d)) :=
  checked sel (elClosest d el sel).

(** [el.textContent.trim()] *)
Definition trimmedText (el : Element d) : jsstring := trim (textContent d el).
End Queries.

(** [[class*="c"]] *)
Definition classHas (c : string) : jsstring :=
  js "[class*=" ++ dq ++ utf16Of c ++ dq ++ js "]".

(** ** The scraper *)

Module Scraper.

(** The record [scrapeListingFromDom] returns. *)
Record ListingRecord := mkListing {
  scrapedAt : jsstring;
  url : jsstring;
  propertyDetails : gmap jsstring jsval;
  images : list jsstring;
  furniture : list jsstring;
  additionalParameters : gmap jsstring jsstring;
  dealType : option jsstring
}.

Definition FALLBACK_DESCRIPTION_SELECTORS : list jsstring :=
  [ js ".description"; js ".listing-description"; js "[data-testid='listing-description']" ].

Definition FALLBACK_SHORT_DESCRIPTION_SELECTORS : list jsstring :=
  [ js "[data-testid='short-description']";
    js ".short-description";
    js ".listing-short-description";
    js "section [class*='short'][class*='description']";
    js "div.relative.w-full.p-5.pb-3.mt-4.bg-white.border.rounded-2xl.border-gray-20 .text-sm";
    js "div.relative.w-full.p-5.pb-3.mt-4.bg-white.border.rounded-2xl.border-gray-20" ].

Definition titleSelectors : list jsstring :=
  [ js "h1"; js "h1" ++ classHas "font"; js ".font-tbcx-bold" ].

(** The built-in selector lists, by attribute name. *)
Definition FALLBACK_SELECTORS : list (jsstring * list jsstring) :=
  [ (js "title", titleSelectors);
    (js "title_ge", titleSelectors);
    (js "address",
      [ js "[itemprop=" ++ dq ++ js "address" ++ dq ++ js "]";
        js ".flex.flex-col.items-start .flex.items-center span:last-child" ]);
    (js "area", [ js ".area"; js ".property-area"; js "[data-area]" ]);
    (js "rooms", [ js ".rooms"; js "[data-rooms]" ]);
    (js "bedroom", [ js ".bedroom"; js "[data-bedroom]" ]);
    (js "floor", [ js ".floor"; js "[data-floor]" ]);
    (js "description", FALLBACK_DESCRIPTION_SELECTORS);
    (js "status", [ js ".status"; js "[data-status]" ]);
    (js "condition", [ js ".condition"; js "[data-condition]" ]);
    (js "type_of_project", [ js ".type"; js "[data-type]" ]);
    (js "bathrooms", [ js ".bathrooms"; js "[data-bathrooms]" ]);
    (js "height", [ js ".height"; js "[data-height]" ]);
    (js "heating", [ js ".heating"; js "[data-heating]" ]);
    (js "hot_water", [ js ".hot-water"; js "[data-hot-water]" ]);
    (js "living", [ js ".living"; js "[data-living]" ]);
    (js "gas", [ js ".gas"; js "[data-gas]" ]);
    (js "internet", [ js ".internet"; js "[data-internet]" ]);
    (js "tv", [ js ".tv"; js "[data-tv]" ]);
    (js "elevator", [ js ".elevator"; js "[data-elevator]" ]);
    (js "lift", [ js ".lift"; js "[data-lift]" ]);
    (js "telephone", [ js ".telephone"; js "[data-telephone]"; js "[data-phone]" ]) ].

Definition fallbackSelectors (attributeName : jsstring) : option (list jsstring) :=
  snd <$> List.find (fun e => JsString.eqb (fst e) attributeName) FALLBACK_SELECTORS.

Definition GALLERY_CONTAINER_SELECTOR : jsstring :=
  js "#__next > div.pt-0.md\:pt-8.pb-8.md\:pb-12.bg-white.md\:bg-\[rgb\(251\,251\,251\)\] > div > div.grid.items-start.grid-cols-12.gap-5.mt-0.md\:mt-3 > div.col-span-12.lg\:col-span-9 > div.relative > div.h-\[302px\].md\:h-\[551px\].w-full.overflow-hidden.relative.z-10.lg\:rounded-2xl > div.absolute.bottom-6.z-20.max-w-full.w-full.px-\[60px\] > div > div".

Definition isWordOrDash (c : N) : bool := isWord c || (c =? 45).

(** [/\.([\w-]+)\\:([\w-]+)/g] *)
Definition tailwindPattern : re :=
  Cat (lit 46) (Cat (Grp 1 (plus true (Chr isWordOrDash)))
    (Cat (lit 92) (Cat (lit 58) (Grp 2 (plus true (Chr isWordOrDash)))))).

(** [normalizeSelector(selector)], with [None] for [null]. *)
Definition normalizeSelector (selector : jsstring) : option jsstring :=
  match selector with
  | [] => Some selector
  | _ =>
      if includes selector [92; 91] || includes selector [92; 93] then None
      else Some (replace tailwindPattern
                   (fun mt => js "[class*=" ++ dq ++ group mt 1 ++ js ":" ++ group mt 2
                              ++ dq ++ js "]")
                   true selector)
  end.

Definition nonEmpty (s : jsstring) : bool := match s with [] => false | _ => true end.

(** *** The selectors written in the scraper *)

Definition imgSelector : jsstring := js "img".
Definition h3Selector : jsstring := js "h3".
Definition sectionContainerSelector : jsstring :=
  Eval vm_compute in js "div" ++ classHas "bg-white" ++ classHas "border" ++ classHas "rounded-2xl".
Definition gridSelector : jsstring :=
  Eval vm_compute in js "div" ++ classHas "grid" ++ classHas "gap".
Definition gridItemSelector : jsstring :=
  Eval vm_compute in js "div" ++ classHas "flex" ++ classHas "items-center".
Definition headerSpanSelector : jsstring :=
  Eval vm_compute in js "span" ++ classHas "line-clamp-1" ++ classHas "text-secondary-100".
Definition parameterDesktopSelector : jsstring :=
  Eval vm_compute in
    js "div" ++ classHas "hidden" ++ classHas "text-xs" ++ classHas "opacity-60"
      ++ classHas "md:block".
Definition parameterMobileSelector : jsstring :=
  Eval vm_compute in
    js "span" ++ classHas "block" ++ classHas "w-1/2" ++ classHas "text-xs"
      ++ classHas "md:hidden".
Definition flexColumnSelector : jsstring := Eval vm_compute in js "div" ++ classHas "flex-col".
Definition textXsSelector : jsstring :=
  Eval vm_compute in js "div" ++ classHas "text-xs" ++ js ", span" ++ classHas "text-xs".
Definition flexColSelector : jsstring :=
  Eval vm_compute in js "div" ++ classHas "flex" ++ classHas "flex-col".
Definition detailsBorderSelector : jsstring :=
  Eval vm_compute in
    js "div" ++ classHas "items-center" ++ classHas "flex-wrap" ++ classHas "border"
      ++ classHas "border-gray-20" ++ classHas "rounded-xl".
Definition detailsGridSelector : jsstring :=
  Eval vm_compute in js "div" ++ classHas "grid" ++ classHas "grid-cols-4".
Definition labelSpanSelector : jsstring :=
  Eval vm_compute in js "span" ++ classHas "text-secondary-60".
Definition valueDesktopSelector : jsstring :=
  Eval vm_compute in
    js "span" ++ classHas "mt-0.5" ++ classHas "hidden" ++ classHas "md:block"
      ++ classHas "text-sm" ++ classHas "font-tbcx-medium".
Definition valueMobileSelector : jsstring :=
  Eval vm_compute in
    js "span" ++ classHas "block" ++ classHas "md:hidden" ++ classHas "text-[10px]"
      ++ classHas "font-tbcx-medium".
Definition valueAnySelector : jsstring :=
  Eval vm_compute in js "span" ++ classHas "font-tbcx-medium".
Definition textSmSelector : jsstring := js ".text-sm".
Definition divSelector : jsstring := js "div".
Definition textNodesSelector : jsstring := js "p, span, div".
Definition firstHeadingSelector : jsstring := js "h3, h2, h4, span, div".
Definition headingsSelector : jsstring := js "h2, h3, h4, span, div".
Definition descriptionBlockSelector : jsstring :=
  js "div.relative.w-full.p-5.pb-3.mt-4.bg-white.border".
Definition enclosingSelector : jsstring := js "div, section, article".

Definition EXPLICIT_SHORT_DESCRIPTION_PATH : jsstring :=
  js "#__next > div.pt-0.md\:pt-8.pb-8.md\:pb-12.bg-white.md\:bg-\[rgb\(251\,251\,251\)\] > div > div.grid.items-start.grid-cols-12.gap-5.mt-0.md\:mt-3 > div.col-span-12.lg\:col-span-9 > div.px-4.md\:px-6.lg\:px-0 > div.relative.w-full.p-5.pb-3.mt-4.bg-white.border.md\:p-6.rounded-2xl.border-gray-20.md\:mt-5 > div > div > div > div".

Definition directContainerSelector : jsstring :=
  js "div.relative.w-full.p-5.pb-3.mt-4.bg-white.border.rounded-2xl.border-gray-20".

(** The selectors that reach the DOM outside a [try] block. *)
Definition literalSelectors : list jsstring :=
  [ GALLERY_CONTAINER_SELECTOR; imgSelector; h3Selector; sectionContainerSelector;
    gridSelector; gridItemSelector; headerSpanSelector; parameterDesktopSelector;
    parameterMobileSelector; flexColumnSelector; textXsSelector; flexColSelector;
    detailsBorderSelector; detailsGridSelector; labelSpanSelector; valueDesktopSelector;
    valueMobileSelector; valueAnySelector; textSmSelector; divSelector; textNodesSelector;
    firstHeadingSelector; headingsSelector; descriptionBlockSelector; enclosingSelector;
    EXPLICIT_SHORT_DESCRIPTION_PATH; directContainerSelector ].

Section WithDom.
Context (d : DOM).
Context (mappings : gmap jsstring jsstring).

(** [getFirstTextMatch(selectors)]: whatever a selector makes the query
    throw is caught, and the next selector is tried. *)
Fixpoint getFirstTextMatch (selectors : list jsstring) : option jsstring :=
  match selectors with
  | [] => None
  | selector :: rest =>
      if negb (nonEmpty selector) then getFirstTextMatch rest
      else
        match normalizeSelector selector with
        | None | Some [] => getFirstTextMatch rest
        | Some normalizedSelector =>
            match querySelector d normalizedSelector with
            | Ok (Some element) =>
                if nonEmpty (textContent d element)
                then Some (trimmedText d element)
                else getFirstTextMatch rest
            | Ok None => getFirstTextMatch rest
            | Throw _ => getFirstTextMatch rest
            end
        end
  end.

(** [getFirstTextMatch(selectors)] when [selectors] is not a list but what
    the lookup found in [Object.prototype]: a method of length 0 passes the
    test [selectors.length === 0]; any other is truthy and not iterable, and
    the [for ... of] throws outside the [try]. *)
Definition firstTextMatchOfInherited (selectors : inherited) : result (option jsstring) :=
  match selectors with
  | Method O => Ok None
  | _ => Throw TypeError
  end.

(** [scrapeMappedAttribute(attributeName)]. A name that [mappings] only
    inherits gives a method or the prototype as selector, which
    [getFirstTextMatch] passes over ([normalizeSelector] throws on it inside
    the [try]); the lookup in [FALLBACK_SELECTORS] also reaches
    [Object.prototype]. *)
Definition scrapeMappedAttribute (attributeName : jsstring) : result (option jsstring) :=
  let mapped :=
    match mappings !! attributeName with
    | Some sel =>
        if nonEmpty sel then
          match getFirstTextMatch [sel] with
          | Some value => if nonEmpty value then Some value else None
          | None => None
          end
        else None
    | None => None
    end in
  match mapped with
  | Some value => Ok (Some value)
  | None =>
      match fallbackSelectors attributeName with
      | Some selectors => Ok (getFirstTextMatch selectors)
      | None =>
          match inheritedProperty attributeName with
          | Some selectors => firstTextMatchOfInherited selectors
          | None => Ok None
          end
      end
  end.

(** [a || b] on strings that may be missing. *)
Definition orStr (a : option jsstring) (b : option jsstring) : option jsstring :=
  match a with
  | Some (_ :: _) => a
  | _ => b
  end.

(** [toAbsoluteUrl(value)] *)
Definition toAbsoluteUrl (value : option jsstring) : option jsstring :=
  match value with
  | Some ((_ :: _) as v) => resolveUrl d v
  | _ => None
  end.

(** The first piece of [s.split(/\s+/)]. *)
Fixpoint firstPiece (s : jsstring) : jsstring :=
  match s with
  | [] => []
  | c :: r => if isSpace c then [] else c :: firstPiece r
  end.

Definition rawSource (img : Element d) : option jsstring :=
  orStr (Some (currentSrc d img))
    (orStr (getAttribute d img (js "src"))
      (orStr (getAttribute d img (js "data-src"))
        (orStr (getAttribute d img (js "data-lazy"))
          (orStr (firstPiece <$> getAttribute d img (js "data-srcset"))
            (Some (srcProperty d img)))))).

(** The [map]/[filter] pipeline of [collectGalleryImages], with the [seen]
    set threaded through. *)
Fixpoint galleryFrom (imgs : list (Element d)) (seen : gset jsstring) : list jsstring :=
  match imgs with
  | [] => []
  | img :: rest =>
      match toAbsoluteUrl (rawSource img) with
      | Some absolute =>
          if negb (nonEmpty absolute) || bool_decide (absolute ∈ seen)
          then galleryFrom rest seen
          else absolute :: galleryFrom rest ({[absolute]} ∪ seen)
      | None => galleryFrom rest seen
      end
  end.

(** [collectGalleryImages()] *)
Definition collectGalleryImages : result (list jsstring) :=
  container <- querySelector d GALLERY_CONTAINER_SELECTOR ;;
  match container with
  | None => Ok []
  | Some c =>
      imgs <- querySelectorAllIn d c imgSelector ;;
      Ok (galleryFrom imgs ∅)
  end.



(** The grid items of the section whose [h3] heading contains [title]; none
    when the heading, its container or the grid is missing. *)
Definition sectionItems (title : jsstring) : result (list (Element d)) :=
  h3s <- querySelectorAll d h3Selector ;;
  match List.filter (fun h3 => includes (textContent d h3) title) h3s with
  | [] => Ok []
  | heading :: _ =>
      container <- closest d heading sectionContainerSelector ;;
      match container with
      | None => Ok []
      | Some c =>
          gridContainer <- querySelectorIn d c gridSelector ;;
          match gridContainer with
          | None => Ok []
          | Some g => querySelectorAllIn d g gridItemSelector
          end
      end
  end.

(** [a || b] on elements, the second looked up only when needed. *)
Definition orElseQuery (a : option (Element d)) (b : result (option (Element d)))
    : result (option (Element d)) :=
  match a with
  | Some e => Ok (Some e)
  | None => b
  end.

(** The body of the [forEach] in [collectAdditionalParameters]. *)
Definition additionalParameterItem (acc : gmap jsstring jsstring) (item : Element d)
    : result (gmap jsstring jsstring) :=
  headerElement <- querySelectorIn d item headerSpanSelector ;;
  match headerElement with
  | None => Ok acc
  | Some he =>
      let header := trimmedText d he in
      if negb (nonEmpty header) then Ok acc
      else
        desktop <- querySelectorIn d item parameterDesktopSelector ;;
        mobile <- orElseQuery desktop (querySelectorIn d item parameterMobileSelector) ;;
        valueElement <- orElseQuery mobile
          (flexCol <- querySelectorIn d item flexColumnSelector ;;
           match flexCol with
           | Some fc => querySelectorIn d fc textXsSelector
           | None => Ok None
           end) ;;
        match valueElement with
        | Some ve =>
            let value := trimmedText d ve in
            if nonEmpty value then Ok (setProp header value acc) else Ok acc
        | None => Ok acc
        end
  end.

(** [collectAdditionalParameters()] *)
Definition collectAdditionalParameters : result (gmap jsstring jsstring) :=
  items <- sectionItems (js "დამატებითი პარამეტრები") ;;
  forEachM additionalParameterItem items ∅.

(** The body of the [forEach] in [collectFurnitureItems]. *)
Definition furnitureItem (acc : list jsstring) (item : Element d) : result (list jsstring) :=
  valueElement <- querySelectorIn d item headerSpanSelector ;;
  match valueElement with
  | Some ve =>
      let value := trimmedText d ve in
      if nonEmpty value then Ok (acc ++ [value]) else Ok acc
  | None => Ok acc
  end.

(** [collectFurnitureItems()] *)
Definition collectFurnitureItems : result (list jsstring) :=
  items <- sectionItems (js "ავეჯი") ;;
  forEachM furnitureItem items [].

(** The conversion [collectPropertyDetails] applies to the value of a
    numeric field: one trailing unit that is not a digit is cut, what is
    neither digit nor separator is dropped, the first comma becomes a dot,
    and the original text is kept when [parseFloat] yields [NaN]. *)
Definition numericFieldValue (value : jsstring) : jsval :=
  let cleanedValue := trim value in
  let cleanedValue :=
    match last cleanedValue with
    | Some c =>
        if negb (isDigit c)
        then trim (take (length cleanedValue - 1) cleanedValue)
        else cleanedValue
    | None => cleanedValue
    end in
  let cleanedValue := replaceFirst comma [dot] (keep isDigitOrSeparator cleanedValue) in
  let numericValue := parseFloat cleanedValue in
  if negb (isNaN numericValue) then VNum numericValue else VStr value.

Definition numericFields : list jsstring := [ js "ოთახი"; js "საძინებელი"; js "ფართი" ].

Definition detailsContainerSelectors : list jsstring :=
  [ detailsBorderSelector; detailsGridSelector ].


(** The container loop of [collectPropertyDetails]. *)
Fixpoint findDetailsContainer (selectors : list jsstring) : result (option (Element d)) :=
  match selectors with
  | [] => Ok None
  | selector :: rest =>
      container <- querySelector d selector ;;
      match container with
      | Some c =>
          gridItems <- querySelectorAllIn d c flexColSelector ;;
          if (0 <? length gridItems)%nat then Ok (Some c) else findDetailsContainer rest
      | None => findDetailsContainer rest
      end
  end.

(** The body of the [forEach] in [collectPropertyDetails]. *)
Definition propertyDetailItem (acc : gmap jsstring jsval) (item : Element d)
    : result (gmap jsstring jsval) :=
  labelElement <- querySelectorIn d item labelSpanSelector ;;
  match labelElement with
  | None => Ok acc
  | Some le =>
      let label := trimmedText d le in
      if negb (nonEmpty label) then Ok acc
      else
        desktop <- querySelectorIn d item valueDesktopSelector ;;
        mobile <- orElseQuery desktop (querySelectorIn d item valueMobileSelector) ;;
        valueElement <- orElseQuery mobile (querySelectorIn d item valueAnySelector) ;;
        match valueElement with
        | Some ve =>
            let value := trimmedText d ve in
            if nonEmpty value then
              if existsb (JsString.eqb label) numericFields
              then Ok (setProp label (numericFieldValue value) acc)
              else Ok (setProp label (VStr value) acc)
            else Ok acc
        | None => Ok acc
        end
  end.

(** [collectPropertyDetails()] *)
Definition collectPropertyDetails : result (gmap jsstring jsval) :=
  container <- findDetailsContainer detailsContainerSelectors ;;
  match container with
  | None => Ok ∅
  | Some c =>
      items <- querySelectorAllIn d c flexColSelector ;;
      forEachM propertyDetailItem items ∅
  end.

(** The phrases [detectDealType] looks for, in the order it tries them. *)
Definition dealTypes : list jsstring :=
  [ js "ქირავდება დღიურად"; js "ქირავდება"; js "გირავდება"; js "იყიდება" ].

(** [document.body.textContent || document.body.innerText || ''] *)
Definition pageTextOf (b : Element d) : jsstring :=
  if nonEmpty (textContent d b) then textContent d b
  else if nonEmpty (innerText d b) then innerText d b
  else [].

(** The phrase loop of [detectDealType]. *)
Definition firstDealTypeIn (pageText : jsstring) : option jsstring :=
  List.find (fun dealType => includes pageText dealType) dealTypes.

(** [detectDealType()]: reading a property of a missing [document.body]
    is a TypeError. *)
Definition detectDealType : result (option jsstring) :=
  match body d with
  | None => Throw TypeError
  | Some b => Ok (firstDealTypeIn (pageTextOf b))
  end.

Definition shortDescriptionTitle : jsstring := js "მოკლე აღწერა".

(** [t && t !== headingText], and the check in [extractFromContainer] that
    skips a text equal to a non-empty heading. *)
Definition keptText (headingText : option jsstring) (t : jsstring) : bool :=
  nonEmpty t &&
  match headingText with
  | Some ((_ :: _) as h) => negb (JsString.eqb t h)
  | _ => true
  end.

(** [extractFromContainer(container, headingText)] *)
Definition extractFromContainer (container : option (Element d))
    (headingText : option jsstring) : result (option jsstring) :=
  match container with
  | None => Ok None
  | Some c =>
      textBlock <- querySelectorIn d c textSmSelector ;;
      blockText <-
        match textBlock with
        | Some tb =>
            inner <- querySelectorIn d tb divSelector ;;
            Ok (trimmedText d (default tb inner))
        | None => Ok []
        end ;;
      if nonEmpty blockText then Ok (Some blockText)
      else
        els <- querySelectorAllIn d c textNodesSelector ;;
        match List.filter (keptText headingText) (map (trimmedText d) els) with
        | [] => Ok None
        | texts => Ok (Some (join [32] texts))
        end
  end.

(** The loop over the direct containers in [collectShortDescription]. *)
Fixpoint fromDirectContainers (containers : list (Element d)) : result (option jsstring) :=
  match containers with
  | [] => Ok None
  | container :: rest =>
      headingEl <- querySelectorIn d container firstHeadingSelector ;;
      let headingText := trimmedText d <$> headingEl in
      afterHeading <-
        match headingText with
        | Some ((_ :: _) as h) =>
            if JsString.eqb (trim h) shortDescriptionTitle then
              els <- querySelectorAllIn d container textNodesSelector ;;
              Ok (List.filter (fun t => nonEmpty t && negb (JsString.eqb t h))
                    (map (trimmedText d) els))
            else Ok []
        | _ => Ok []
        end ;;
      match afterHeading with
      | _ :: _ => Ok (Some (join [32] afterHeading))
      | [] =>
          extracted <- extractFromContainer (Some container) headingText ;;
          match extracted with
          | Some ((_ :: _) as e) =>
              if negb (JsString.eqb e shortDescriptionTitle) then Ok (Some e)
              else fromDirectContainers rest
          | _ => fromDirectContainers rest
          end
      end
  end.

(** The sibling walk at the end of [collectShortDescription]. *)
Fixpoint fromSiblings (depth : nat) (sibling : option (Element d)) : option jsstring :=
  match depth, sibling with
  | S n, Some sib =>
      let text := trimmedText d sib in
      if nonEmpty text && negb (includes text shortDescriptionTitle) then Some text
      else fromSiblings n (nextElementSibling d sib)
  | _, _ => None
  end.

(** The last strategy of [collectShortDescription]: a heading that
    contains the title. *)
Definition fromHeading : result (option jsstring) :=
  els <- querySelectorAll d headingsSelector ;;
  match List.find (fun el => includes (trimmedText d el) shortDescriptionTitle) els with
  | None => Ok None
  | Some heading =>
      c1 <- closest d heading descriptionBlockSelector ;;
      c2 <- orElseQuery c1 (closest d heading enclosingSelector) ;;
      let container := match c2 with Some c => Some c | None => parentElement d heading end in
      pulled <- extractFromContainer container (Some (trimmedText d heading)) ;;
      match pulled with
      | Some ((_ :: _) as t) => Ok (Some t)
      | _ => Ok (fromSiblings 3 (nextElementSibling d heading))
      end
  end.

(** [collectShortDescription()] *)
Definition collectShortDescription : result (option jsstring) :=
  explicitPath <- querySelector d EXPLICIT_SHORT_DESCRIPTION_PATH ;;
  let explicitText :=
    match explicitPath with
    | Some e =>
        let text := trimmedText d e in
        if nonEmpty text && negb (JsString.eqb text shortDescriptionTitle)
        then Some text else None
    | None => None
    end in
  match explicitText with
  | Some text => Ok (Some text)
  | None =>
      directContainers <- querySelectorAll d directContainerSelector ;;
      found <- fromDirectContainers directContainers ;;
      match found with
      | Some text => Ok (Some text)
      | None =>
          match getFirstTextMatch FALLBACK_SHORT_DESCRIPTION_SELECTORS with
          | Some ((_ :: _) as direct) =>
              if negb (JsString.eqb (trim direct) shortDescriptionTitle)
              then Ok (Some direct) else fromHeading
          | _ => fromHeading
          end
      end
  end.

Definition priceSelectors : list jsstring :=
  [ js "[data-testid='listing-price']"; js ".text-2xl.font-tbcx-bold" ].

Definition withAddress (address : option jsstring) (pd : gmap jsstring jsval)
    : gmap jsstring jsval :=
  match address with
  | Some ((_ :: _) as address) => <[js "მისამართი" := VStr (transformAddress address)]> pd
  | _ => pd
  end.

Definition withPrice (pd : gmap jsstring jsval) : gmap jsstring jsval :=
  match getFirstTextMatch priceSelectors with
  | Some ((_ :: _) as priceText) =>
      match parsePriceText priceText with
      | Some priceNumber => <[js "ფასი" := VNum priceNumber]> pd
      | None => pd
      end
  | _ => pd
  end.

Definition withShortDescription (shortDescription : option jsstring)
    (pd : gmap jsstring jsval) : gmap jsstring jsval :=
  match shortDescription with
  | Some ((_ :: _) as sd) =>
      <[js "shortDescription" := VStr sd]> (<[shortDescriptionTitle := VStr sd]> pd)
  | _ => pd
  end.

(** Every value of a record's [propertyDetails] is present. *)
Definition allPresent (m : gmap jsstring jsval) : Prop :=
  map_Forall (fun _ v => presentValue v) m.

(** No value of a record's [additionalParameters] is empty. *)
Definition noEmptyValue (m : gmap jsstring jsstring) : Prop :=
  map_Forall (fun _ v => v <> []) m.

(** [scrapeListingFromDom(mappings)] *)
Definition scrapeListingFromDom : result ListingRecord :=
  galleryImages <- collectGalleryImages ;;
  additionalParameters <- collectAdditionalParameters ;;
  furnitureItems <- collectFurnitureItems ;;
  propertyDetails <- collectPropertyDetails ;;
  dealType <- detectDealType ;;
  shortDescription <- collectShortDescription ;;
  address <- scrapeMappedAttribute (js "address") ;;
  Ok {| scrapedAt := isoNow d;
        url := locationHref d;
        propertyDetails :=
          withShortDescription shortDescription
            (withPrice (withAddress address propertyDetails));
        images := galleryImages;
        furniture := furnitureItems;
        additionalParameters := additionalParameters;
        dealType := dealType |}.

End WithDom.

End Scraper.

(** ** The mapping loader *)

Module MappingLoader.

Record csvState := mkCsv {
  fields : list jsstring;
  currentField : jsstring;
  insideQuotes : bool;
  bracketDepth : nat
}.

Definition isOpenBracket (c : N) : bool := (c =? 40) || (c =? 91) || (c =? 123).
Definition isCloseBracket (c : N) : bool := (c =? 41) || (c =? 93) || (c =? 125).

(** The [else] branch of the loop in [parseCSVLine]: the character joins the
    field, and the bracket depth follows it. *)
Definition plainChar (char : N) (isEscaped : bool) (st : csvState) : csvState :=
  let depth :=
    if negb (insideQuotes st) && negb isEscaped then
      if isOpenBracket char then S (bracketDepth st)
      else if isCloseBracket char then Nat.pred (bracketDepth st)
      else bracketDepth st
    else bracketDepth st in
  mkCsv (fields st) (currentField st ++ [char]) (insideQuotes st) depth.

(** The loop of [parseCSVLine]; [prevChar] is the character before the
    current one. *)
Fixpoint parseCSVFrom (prevChar : option N) (line : jsstring) (st : csvState) : list jsstring :=
  match line with
  | [] => fields st ++ [trim (currentField st)]
  | char :: rest =>
      let isEscaped := bool_decide (prevChar = Some 92) in
      if (char =? 34) && negb isEscaped then
        match rest with
        | 34 :: rest' =>
            if insideQuotes st then
              parseCSVFrom (Some 34) rest'
                (mkCsv (fields st) (currentField st ++ [34]) (insideQuotes st) (bracketDepth st))
            else
              parseCSVFrom (Some char) rest
                (mkCsv (fields st) (currentField st ++ [char]) (negb (insideQuotes st))
                   (bracketDepth st))
        | _ =>
            parseCSVFrom (Some char) rest
              (mkCsv (fields st) (currentField st ++ [char]) (negb (insideQuotes st))
                 (bracketDepth st))
        end
      else if (char =? 44) && negb (insideQuotes st) && Nat.eqb (bracketDepth st) 0
              && negb isEscaped then
        parseCSVFrom (Some char) rest
          (mkCsv (fields st ++ [trim (currentField st)]) [] (insideQuotes st) (bracketDepth st))
      else
        parseCSVFrom (Some char) rest (plainChar char isEscaped st)
  end.

(** [parseCSVLine(line)] *)
Definition parseCSVLine (line : jsstring) : list jsstring :=
  parseCSVFrom None line (mkCsv [] [] false 0).

(** What [fetch] of the bundled [mappings.csv] gives: a rejection, or a
    response with its [ok] flag, status text and body. *)
Inductive fetched :=
  | Rejected (e : error)
  | Response (ok : bool) (statusText : jsstring) (text : jsstring).

(** The [forEach] over the headers in [loadMappings]. *)
Fixpoint zipMappings (headers selectors : list jsstring) (acc : gmap jsstring jsstring)
    : gmap jsstring jsstring :=
  match headers with
  | [] => acc
  | header :: hs =>
      match selectors with
      | selector :: ss =>
          zipMappings hs ss
            (match header, selector with
             | _ :: _, _ :: _ => setProp header selector acc
             | _, _ => acc
             end)
      | [] => acc
      end
  end.

(** [csvText.trim().split('\n').filter(line => line.trim())] *)
Definition nonBlankLines (csvText : jsstring) : list jsstring :=
  List.filter (fun line => Scraper.nonEmpty (trim line)) (split 10 (trim csvText)).

(** The body of the [try] block of [loadMappings]. *)
Definition readMappings (resource : fetched) : result (gmap jsstring jsstring) :=
  match resource with
  | Rejected e => Throw e
  | Response false statusText _ =>
      Throw (Error (js "Failed to load mappings.csv: " ++ statusText))
  | Response true _ csvText =>
      match nonBlankLines csvText with
      | l0 :: l1 :: _ =>
          Ok (zipMappings (parseCSVLine l0) (parseCSVLine l1) ∅)
      | _ => Throw (Error (js "mappings.csv must have at least 2 lines (header and data)"))
      end
  end.

(** [loadMappings()]: the [catch] clause logs the error and throws it again. *)
Definition loadMappings (resource : fetched) : result (gmap jsstring jsstring) :=
  match readMappings resource with
  | Ok mappings => Ok mappings
  | Throw e => Throw e
  end.

(** The mappings [executeScrapeOnActiveTab] and [scrapeListingsInParallel]
    end up with: an empty object unless [loadMappings] returns. *)
Definition mappingsForScrape (resource : fetched) : gmap jsstring jsstring :=
  catch (loadMappings resource) (fun _ => ∅).

(** A resource that is missing (the fetch is rejected or answers with an
    error status) or that does not hold a header line and a selector line. *)
Definition unusable (resource : fetched) : Prop :=
  match resource with
  | Rejected _ => True
  | Response false _ _ => True
  | Response true _ csvText => (length (nonBlankLines csvText) < 2)%nat
  end.

(** [executeScrapeOnActiveTab()], for the active tab's document. *)
Definition executeScrapeOnActiveTab (resource : fetched) (d : DOM)
    : result Scraper.ListingRecord :=
  Scraper.scrapeListingFromDom d (mappingsForScrape resource).

End MappingLoader.

(** ** The autofill steps *)

Module Autofill.

Definition seq (rs : list re) : re := fold_right Cat Eps rs.

Definition roman : re := classi (fun _ => false) (js "IVX").
Definition romanOrDigit : re := classi isDigit (js "IVX").

(** [/^ნუცუბიძის\s+პლ\.?\s*([IVX]+)\s*მ\/რ\.?\s*[IVX\d]+\s*კვარტ\.?$/i] *)
Definition nutsubidzePlatoRegex : re :=
  seq [ Bol; stri (js "ნუცუბიძის"); plus true ws; stri (js "პლ"); opt (lit 46);
        Star true ws; Grp 1 (plus true roman); Star true ws; stri (js "მ/რ"); opt (lit 46);
        Star true ws; plus true romanOrDigit; Star true ws; stri (js "კვარტ");
        opt (lit 46); Eol ].

(** [/^(.+?)\s*-\s*([IVX]+)\s*მ\/რ\s*([IVX\d]+)\s*კვარტ\.?$/i] *)
Definition mkrKvRegex : re :=
  seq [ Bol; Grp 1 (plus false any); Star true ws; lit 45; Star true ws;
        Grp 2 (plus true roman); Star true ws; stri (js "მ/რ"); Star true ws;
        Grp 3 (plus true romanOrDigit); Star true ws; stri (js "კვარტ"); opt (lit 46); Eol ].

(** [/\bშეს\.\b/gi] *)
Definition shesRegex : re := seq [ WordB; stri (js "შეს"); lit 46; WordB ].

(** The street-type words of the look-ahead: [ქ\.?|ქუჩა|ჩიხი|შესახვევი|შეს\.?] *)
Definition branchTypes : re :=
  Alt (Cat (stri (js "ქ")) (opt (lit 46)))
    (Alt (stri (js "ქუჩა"))
      (Alt (stri (js "ჩიხი"))
        (Alt (stri (js "შესახვევი")) (Cat (stri (js "შეს")) (opt (lit 46)))))).

(** [/\s+[IVX]+\s+(?=(ქ\.?|ქუჩა|ჩიხი|შესახვევი|შეს\.?)\b)/gi] *)
Definition branchNumberRegex : re :=
  seq [ plus true ws; plus true roman; plus true ws;
        Ahead (Cat (Grp 1 branchTypes) WordB) ].

(** The street-type words of the suffix pattern:
    [ქ\.?|ქუჩა|გამზ\.?|ჩიხი|ჩ\.|შესახვევი|შეს\.?] *)
Definition streetTypes : re :=
  Alt (Cat (stri (js "ქ")) (opt (lit 46)))
    (Alt (stri (js "ქუჩა"))
      (Alt (Cat (stri (js "გამზ")) (opt (lit 46)))
        (Alt (stri (js "ჩიხი"))
          (Alt (Cat (stri (js "ჩ")) (lit 46))
            (Alt (stri (js "შესახვევი")) (Cat (stri (js "შეს")) (opt (lit 46)))))))).

(** [/\s+(ქ\.?|ქუჩა|გამზ\.?|ჩიხი|ჩ\.|შესახვევი|შეს\.?)$/i] *)
Definition streetTypeSuffixRegex : re :=
  seq [ plus true ws; Grp 1 streetTypes; Eol ].

(** [/[,\.\s]+$/g] *)
Definition trailingPunctuationRegex : re :=
  seq [ plus true (Chr (fun c => (c =? 44) || (c =? 46) || isSpace c)); Eol ].

(** [/\s+/] *)
Definition spacesRegex : re := plus true ws.

(** [normalizeStreetForSs(address)] *)
Definition normalizeStreetForSs (address : jsstring) : jsstring :=
  match address with
  | [] => address
  | _ =>
    let normalized := trim address in
    match exec nutsubidzePlatoRegex normalized with
    | Some (_, mt) => js "ნუცუბიძის " ++ trim (group mt 1) ++ js " პლატო"
    | None =>
      match exec mkrKvRegex normalized with
      | Some (_, mt) =>
          let rawDistrict := trim (group mt 1) in
          let mkrRoman := trim (group mt 2) in
          let kvartToken := trim (group mt 3) in
          let district := replace spacesRegex (fun _ => [32]) false rawDistrict in
          mkrRoman ++ js " მიკრორაიონი, " ++ kvartToken ++ js " კვარტალი - " ++ district
      | None =>
          let s := normalized in
          let s := replace shesRegex (fun _ => js " შესახვევი ") true s in
          let s := replace branchNumberRegex (fun _ => [32]) true s in
          let s := replace streetTypeSuffixRegex (fun _ => []) false s in
          let s := replace trailingPunctuationRegex (fun _ => []) true s in
          let s := trim (replace spacesRegex (fun _ => [32]) true s) in
          match s with
          | [] => normalized
          | _ => s
          end
      end
    end
  end.

(** The units [[IVX]] and [[IVX\d]] accept under the [i] flag. *)
Definition romanUnit (x : N) : bool := existsb (fun a => canon x =? canon a) (js "IVX").
Definition romanOrDigitUnit (x : N) : bool := isDigit x || romanUnit x.

(** Georgian letters (the Mkhedruli block). *)
Definition isMkhedruli (c : N) : bool := (4304 <=? c) && (c <=? 4351).

(** Georgian words, each space followed by a letter. *)
Fixpoint spaced (l : jsstring) : bool :=
  match l with
  | [] => true
  | c :: r =>
      (isMkhedruli c
       || (c =? 32) && match r with c' :: _ => isMkhedruli c' | [] => false end)
      && spaced r
  end.

(** A street name: Georgian words with one space between them. *)
Definition streetName (l : jsstring) : Prop :=
  match l with c :: _ => isMkhedruli c = true | [] => False end /\ spaced l = true.

(** The texts [streetTypes] matches. *)
Definition streetTypeWords : list jsstring :=
  [ js "ქ"; js "ქ."; js "ქუჩა"; js "გამზ"; js "გამზ."; js "ჩიხი"; js "ჩ.";
    js "შესახვევი"; js "შეს"; js "შეს." ].

(** The units of a street name followed by a street-type word. *)
Definition plainUnit (c : N) : bool := isMkhedruli c || (c =? 32) || (c =? 46).

(** The token the rooms step looks for: [roomText] in [fillRoomsField]. *)
Definition roomTextOf (roomValue : jsval) : jsstring :=
  let roomText := trim (valToString roomValue) in
  let roomNumber := parseFloatVal roomValue in
  if negb (isNaN roomNumber) && gt roomNumber 8 then js "8+" else roomText.

Definition noneToken : jsstring := js "არ აქვს".

(** [bathroomValue === 0 || bathroomValue === '0'] *)
Definition isZeroValue (v : jsval) : bool :=
  match v with
  | VNum x => isZero x
  | VStr [48] => true
  | _ => false
  end.

(** The token the bathroom step looks for: [bathroomText] in
    [fillBathroomField], from the value the lookup found. *)
Definition bathroomTextOf (bathroomValue : jsval) : jsstring :=
  let bathroomText := trim (valToString bathroomValue) in
  let lowered := toLowerCase (valToString bathroomValue) in
  if isZeroValue bathroomValue || includes lowered noneToken || includes lowered (js "არა")
  then noneToken
  else
    let bathroomNumber := parseFloatVal bathroomValue in
    if negb (isNaN bathroomNumber) then
      if gt bathroomNumber 5 then js "5+" else toString bathroomNumber
    else bathroomText.

(** An object as its entries in insertion order, which is the order of
    [Object.keys]; [object[key]] is [undefined] for a key that is not there. *)
Definition jsobject : Type := list (jsstring * jsval).

Definition getProp (o : jsobject) (key : jsstring) : jsval :=
  match List.find (fun kv => JsString.eqb (fst kv) key) o with
  | Some kv => snd kv
  | None => VUndef
  end.

(** [a || b] *)
Definition orVal (a b : jsval) : jsval := if truthy a then a else b.

(** [o['სც.წერტილები'] || o['სც წერტილები'] || o['სვ.წერტილი'] || o['სველი წერტილი']] *)
Definition exactBathroomValue (o : jsobject) : jsval :=
  orVal (orVal (orVal (getProp o (js "სც.წერტილები")) (getProp o (js "სც წერტილები")))
           (getProp o (js "სვ.წერტილი")))
    (getProp o (js "სველი წერტილი")).

Definition isBathroomKey (key : jsstring) : bool :=
  includes key (js "წერტილ") || includes key (js "სველი") || includes key (js "სც").

(** The lookup at the head of [fillBathroomField]: [bathroomValue] when the
    normalization starts. *)
Definition bathroomValueOf (propertyDetails additionalParameters : option jsobject) : jsval :=
  let bathroomValue :=
    match additionalParameters with
    | Some ap =>
        let bathroomValue := exactBathroomValue ap in
        if negb (truthy bathroomValue) then
          match List.filter isBathroomKey (map fst ap) with
          | key :: _ => getProp ap key
          | [] => bathroomValue
          end
        else bathroomValue
    | None => VNull
    end in
  match propertyDetails with
  | Some pd => if negb (truthy bathroomValue) then exactBathroomValue pd else bathroomValue
  | None => bathroomValue
  end.

(** The text [fillBathroomField] goes on to search for; [None] when it
    returns because no value was found. *)
Definition bathroomSearchText (propertyDetails additionalParameters : option jsobject)
    : option jsstring :=
  match bathroomValueOf propertyDetails additionalParameters with
  | VUndef | VNull => None
  | bathroomValue => Some (bathroomTextOf bathroomValue)
  end.

Definition is_Some_b {A : Type} (o : option A) : bool :=
  match o with Some _ => true | None => false end.

(** What a step does to the page. *)
Inductive effect (E : Type) :=
  | Click (el : E)
  | Dispatch (el : E) (event : jsstring)
  | SetValue (el : E) (v : jsval)
  | Warn (msg : jsstring).
Arguments Click {E} el.
Arguments Dispatch {E} el event.
Arguments SetValue {E} el v.
Arguments Warn {E} msg.

Section Options.
Context {E : Type} (text : E -> jsstring).

(** The option search shared by the rooms, bedrooms and bathroom steps:
    an option whose trimmed text is the target, else the first option that
    contains the target or is contained in it. *)
Definition findMatchingOption (optionDivs : list E) (target : jsstring) : option E :=
  match List.find (fun div => JsString.eqb (trim (text div)) target) optionDivs with
  | Some o => Some o
  | None =>
      List.find (fun div =>
        let t := trim (text div) in includes t target || includes target t) optionDivs
  end.

(** The first element of the list sorted by text length (the sort is
    stable): the first of the shortest. *)
Fixpoint shortest (best : E) (l : list E) : E :=
  match l with
  | [] => best
  | x :: r =>
      if (length (trim (text x)) <? length (trim (text best)))%nat
      then shortest x r else shortest best r
  end.

(** The option search of the street field in [fillLocationForm]: exact
    text, else a text that starts with the value, else the shortest text
    that contains it. *)
Definition findStreetOption (streetOptions : list E) (streetValue : jsstring) : option E :=
  match List.find (fun opt => JsString.eqb (trim (text opt)) streetValue) streetOptions with
  | Some o => Some o
  | None =>
      match List.find (fun opt => startsWith (trim (text opt)) streetValue) streetOptions with
      | Some o => Some o
      | None =>
          match List.filter (fun opt => includes (trim (text opt)) streetValue) streetOptions with
          | [] => None
          | o :: r => Some (shortest o r)
          end
      end
  end.

(** [normalizeText] in [fillProjectTypeField]. *)
Definition normalizeText (value : jsstring) : jsstring := toLowerCase (trim value).

(** The option search of [fillProjectTypeField]: one pass, in which an
    option passes when its text equals the project type, contains it or is
    contained in it. *)
Definition findProjectTypeOption (optionDivs : list E) (projectValue : jsstring) : option E :=
  let projectText := normalizeText projectValue in
  List.find (fun option =>
    let t := normalizeText (text option) in
    JsString.eqb t projectText || includes t projectText || includes projectText t)
    optionDivs.
End Options.

Definition optionDivSelector : jsstring :=
  js "div" ++ classHas "sc-9e0391b6-0" ++ js ", div" ++ classHas "yrPxb".

Definition roomsInputSelector : jsstring :=
  js "input[name=" ++ dq ++ js "rooms" ++ dq ++ js "], input[placeholder*=" ++ dq
    ++ js "ოთახი" ++ dq ++ js "], #rooms".

(** [fillRoomsField(propertyDetails)]: what it does to the page. The
    selectors are literals of the program, so the queries do not throw. *)
Definition fillRoomsField (d : DOM) (propertyDetails : option (gmap jsstring jsval))
    : list (effect (Element d)) :=
  match propertyDetails with
  | None => []
  | Some pd =>
      match pd !! js "ოთახი" with
      | Some roomValue =>
          if negb (truthy roomValue) then []
          else
            let roomText := roomTextOf roomValue in
            match docQuerySelector d (js "#room-input") with
            | Some roomInputContainer =>
                let optionDivs := elQuerySelectorAll d roomInputContainer optionDivSelector in
                match findMatchingOption (textContent d) optionDivs roomText with
                | Some matchingOption =>
                    [ Click matchingOption; Dispatch roomInputContainer (js "change") ]
                | None => [ Warn (js "Could not find room option for: " ++ roomText) ]
                end
            | None =>
                match docQuerySelector d roomsInputSelector with
                | Some roomsField =>
                    [ SetValue roomsField roomValue; Dispatch roomsField (js "input");
                      Dispatch roomsField (js "change") ]
                | None => []
                end
            end
      | None => []
      end
  end.


(** *** Timers and retries *)

(** The callbacks the steps hand to [setTimeout]. *)
Inductive task :=
  | TrySelectCategory
  | SelectPropertyType
  | TrySelectDealType
  | AfterDealType
  | TryFillBathroom.

(** What a run leaves behind, in order. *)
Inductive event (E : Type) :=
  | Clicked (el : E)
  | Scheduled (t : task) (delayMs : nat)
  | Started (t : task)
  | Retrying (retryCount : nat)
  | Substituted (alt : jsstring)
  | FillBathroomField
  | LoggedError (msg : jsstring)
  | Uncaught (e : error).
Arguments Clicked {E} el.
Arguments Scheduled {E} t delayMs.
Arguments Started {E} t.
Arguments Retrying {E} retryCount.
Arguments Substituted {E} alt.
Arguments FillBathroomField {E}.
Arguments LoggedError {E} msg.
Arguments Uncaught {E} e.

Section Retries.
Context {E : Type}.

(** The page as the form driver sees it at a given time (in ms): the
    locators are run afresh on every tick. *)
Context (findCategoryElement : nat -> option E).
Context (findDealTypeElement : nat -> jsstring -> option E).
Context (bathroomContainer : nat -> option E).

(** The event loop: the clock, the pending timers with their due times (in
    the order they were set), the retry counter of the running step, and
    the events so far. *)
Record loop := mkLoop {
  clock : nat;
  timers : list (nat * task);
  retryCount : nat;
  events : list (event E)
}.

(** [setTimeout(t, delayMs)] *)
Definition setTimeout (t : task) (delayMs : nat) (l : loop) : loop :=
  mkLoop (clock l) (timers l ++ [(clock l + delayMs, t)]%nat) (retryCount l)
    (events l ++ [Scheduled t delayMs]).

Definition emit (e : event E) (l : loop) : loop :=
  mkLoop (clock l) (timers l) (retryCount l) (events l ++ [e]).

Definition categoryError : error :=
  Error (js "Could not find category element " ++ dq ++ js "უძრავი ქონება" ++ dq
         ++ js ". Please ensure you are on the correct form page and it has fully loaded.").

(** [trySelectCategory] in [autofillListingForm]. *)
Definition trySelectCategory (maxRetries : nat) (l : loop) : loop :=
  match findCategoryElement (clock l) with
  | Some categoryElement =>
      setTimeout SelectPropertyType 500 (emit (Clicked categoryElement) l)
  | None =>
      if (retryCount l <? maxRetries)%nat then
        let l := mkLoop (clock l) (timers l) (S (retryCount l)) (events l) in
        setTimeout TrySelectCategory 500 (emit (Retrying (retryCount l)) l)
      else
        emit (Uncaught categoryError)
          (emit (LoggedError (js "Could not find category element after retries")) l)
  end.

(** The normalization at the head of [selectDealType]. *)
Definition normalizeDealType (scrapedDealType : option jsstring) : jsstring :=
  let dealType :=
    match scrapedDealType with
    | Some ((_ :: _) as s) => s
    | _ => js "იყიდება"
    end in
  if includes dealType (js "ქირავდება") then js "ქირავდება"
  else if includes dealType (js "იყიდება") then js "იყიდება"
  else if includes dealType (js "გირავდება") then js "გირავდება"
  else dealType.

Definition alternatives (dealType : jsstring) : list jsstring :=
  if JsString.eqb dealType (js "იყიდება") then [ js "ქირავდება" ] else [ js "იყიდება" ].

Definition dealTypeError (dealType : jsstring) : error :=
  Error (js "Could not find deal type element " ++ dq ++ dealType ++ dq
         ++ js ". Please ensure the form has fully loaded.").

(** The loop over the alternatives at the end of [trySelectDealType]. *)
Fixpoint tryAlternatives (dealType : jsstring) (alts : list jsstring) (l : loop) : loop :=
  match alts with
  | [] => emit (Uncaught (dealTypeError dealType)) l
  | alt :: rest =>
      match findDealTypeElement (clock l) alt with
      | Some altElement =>
          setTimeout AfterDealType 1000 (emit (Clicked altElement) (emit (Substituted alt) l))
      | None => tryAlternatives dealType rest l
      end
  end.

(** [trySelectDealType] in [selectDealType]. *)
Definition trySelectDealType (maxRetries : nat) (dealType : jsstring) (l : loop) : loop :=
  match findDealTypeElement (clock l) dealType with
  | Some dealTypeElement =>
      setTimeout AfterDealType 1000 (emit (Clicked dealTypeElement) l)
  | None =>
      if (retryCount l <? maxRetries)%nat then
        let l := mkLoop (clock l) (timers l) (S (retryCount l)) (events l) in
        setTimeout TrySelectDealType 500 (emit (Retrying (retryCount l)) l)
      else
        tryAlternatives dealType (alternatives dealType)
          (emit (LoggedError (js "Could not find deal type element after retries")) l)
  end.

(** [tryFillBathroom] in [fillBathroomFieldWithRetry]. *)
Definition tryFillBathroom (maxRetries retryDelay : nat) (l : loop) : loop :=
  let container := bathroomContainer (clock l) in
  if is_Some_b container || (maxRetries <=? retryCount l)%nat then
    let l := emit FillBathroomField l in
    if negb (is_Some_b container) && (maxRetries <=? retryCount l)%nat
    then emit (LoggedError (js "Bathroom container not found after retries")) l
    else l
  else
    let l := mkLoop (clock l) (timers l) (S (retryCount l)) (events l) in
    setTimeout TryFillBathroom retryDelay (emit (Retrying (retryCount l)) l).

(** What the loop does when a timer fires. The callbacks that follow a
    successful gate ([selectPropertyType], and the upload, location and
    remaining-fields steps after the deal type) are outside this model,
    together with the timers they set: only their start is recorded. *)
Definition fire (dealType : jsstring) (t : task) (l : loop) : loop :=
  match t with
  | TrySelectCategory => trySelectCategory 3 l
  | TrySelectDealType => trySelectDealType 3 dealType l
  | TryFillBathroom => tryFillBathroom 5 500 l
  | SelectPropertyType => emit (Started SelectPropertyType) l
  | AfterDealType => emit (Started AfterDealType) l
  end.

(** The timer that is due first (among equals, the one set first) and the
    timers that stay pending. *)
Fixpoint popEarliest (l : list (nat * task)) : option ((nat * task) * list (nat * task)) :=
  match l with
  | [] => None
  | x :: r =>
      match popEarliest r with
      | Some (y, r') => if (fst y <? fst x)%nat then Some (y, x :: r') else Some (x, r)
      | None => Some (x, r)
      end
  end.

(** One turn of the event loop, [None] when no timer is pending. *)
Definition turn (dealType : jsstring) (l : loop) : option loop :=
  match popEarliest (timers l) with
  | None => None
  | Some (next, pending) =>
      Some (fire dealType (snd next) (mkLoop (fst next) pending (retryCount l) (events l)))
  end.

(** The event loop, run until it is idle or [fuel] turns have passed;
    the flag tells whether it became idle. *)
Fixpoint runLoop (dealType : jsstring) (fuel : nat) (l : loop) : loop * bool :=
  match turn dealType l with
  | None => (l, true)
  | Some l' =>
      match fuel with
      | O => (l, false)
      | S n => runLoop dealType n l'
      end
  end.

Definition start : loop := mkLoop 0 [] 0 [].

(** [autofillListingForm] from its first call of [trySelectCategory]. *)
Definition autofillListingForm (fuel : nat) : loop * bool :=
  runLoop [] fuel (trySelectCategory 3 start).

(** [selectDealType(..., scrapedDealType, ...)] *)
Definition selectDealType (scrapedDealType : option jsstring) (fuel : nat) : loop * bool :=
  let dealType := normalizeDealType scrapedDealType in
  runLoop dealType fuel (trySelectDealType 3 dealType start).

(** [fillBathroomFieldWithRetry(...)] *)
Definition fillBathroomFieldWithRetry (fuel : nat) : loop * bool :=
  runLoop [] fuel (tryFillBathroom 5 500 start).

End Retries.

End Autofill.

(** ** Sample pages *)

Module Pages.

(** A page that is a [body] with the given text and nothing a query finds. *)
Definition textPage (t : jsstring) : DOM :=
  {| Element := unit;
     textContent := fun _ => t;
     innerText := fun _ => t;
     body := Some tt;
     validSelector := fun _ => true;
     docQuerySelector := fun _ => None;
     docQuerySelectorAll := fun _ => [];
     elQuerySelector := fun _ _ => None;
     elQuerySelectorAll := fun _ _ => [];
     elClosest := fun _ _ => None;
     parentElement := fun _ => None;
     nextElementSibling := fun _ => None;
     getAttribute := fun _ _ => None;
     currentSrc := fun _ => [];
     srcProperty := fun _ => [];
     locationHref := js "https://www.myhome.ge/pr/1";
     resolveUrl := fun v => Some v;
     isoNow := js "2025-01-01T00:00:00.000Z" |}.

(** A document without a [body] (as for an XML or SVG resource). *)
Definition bodylessPage : DOM :=
  {| Element := unit;
     textContent := fun _ => [];
     innerText := fun _ => [];
     body := None;
     validSelector := fun _ => true;
     docQuerySelector := fun _ => None;
     docQuerySelectorAll := fun _ => [];
     elQuerySelector := fun _ _ => None;
     elQuerySelectorAll := fun _ _ => [];
     elClosest := fun _ _ => None;
     parentElement := fun _ => None;
     nextElementSibling := fun _ => None;
     getAttribute := fun _ _ => None;
     currentSrc := fun _ => [];
     srcProperty := fun _ => [];
     locationHref := js "https://www.myhome.ge/sitemap.xml";
     resolveUrl := fun v => Some v;
     isoNow := js "2025-01-01T00:00:00.000Z" |}.


(** Two sibling options of the street list, by position and text. *)
Definition microdistrictOptions : list (nat * jsstring) :=
  [ (0%nat, js "III ა მიკრორაიონი"); (1%nat, js "ა მიკრორაიონი") ].

(** The elements of a project-type container: a paragraph without text
    before the options. *)
Definition projectTypeOptions : list (nat * jsstring) :=
  [ (0%nat, []); (1%nat, js "არასტანდარტული"); (2%nat, js "ჩეხური") ].

(** Two project types of which the first contains the second. *)
Definition projectTypeSiblings : list (nat * jsstring) :=
  [ (0%nat, js "არასტანდარტული"); (1%nat, js "სტანდარტული") ].

End Pages.

Import Scraper Autofill MappingLoader Pages.

(** ** The log of a retrying step *)

(** What [k] failed attempts of a step leave in the log: each announces the
    retry and schedules the step again 500 ms later. *)
Definition retried {E : Type} (t : task) (k : nat) : list (event E) :=
  flat_map (fun i => [ Retrying i; Scheduled t 500 ]) (List.seq 1 k).

(** ** The listing storage *)

Module Storage.

Definition latestListing : jsstring := js "latestListing".
Definition latestScrapeAt : jsstring := js "latestScrapeAt".
Definition searchResults : jsstring := js "searchResults".
Definition searchResultsScrapedAt : jsstring := js "searchResultsScrapedAt".

Section WithListing.
Context {L : Type}.

(** What the extension hands to the storage and reads back: nothing, a
    listing, an array of listings, or a time stamp. *)
Inductive item :=
  | INull
  | IListing (listing : L)
  | IArray (listings : list L)
  | ITime (ms : N).

(** ToBoolean *)
Definition truthyItem (i : item) : bool :=
  match i with
  | INull | ITime 0 => false
  | _ => true
  end.

(** [Array.isArray] *)
Definition isArray (i : item) : bool :=
  match i with IArray _ => true | _ => false end.

(** [chrome.storage.local] is a finite map from keys to items. *)

(** [saveLatestListing(listing)], at the time [now] of [Date.now()]. *)
Definition saveLatestListing (listing : item) (now : N) (s : gmap jsstring item) : result (gmap jsstring item) :=
  if negb (truthyItem listing) then Throw (Error (js "Listing payload is required."))
  else Ok (<[latestScrapeAt := ITime now]> (<[latestListing := listing]> s)).

(** [data[key] ?? fallback] *)
Definition orDefault (fallback : item) (v : option item) : item :=
  match v with
  | Some INull | None => fallback
  | Some i => i
  end.

(** [getLatestListing()]: the fields [listing] and [scrapedAt]. *)
Definition getLatestListing (s : gmap jsstring item) : item * item :=
  (orDefault INull (s !! latestListing), orDefault INull (s !! latestScrapeAt)).

(** [saveSearchResults(listings)] *)
Definition saveSearchResults (listings : item) (now : N) (s : gmap jsstring item) : result (gmap jsstring item) :=
  if negb (isArray listings) then Throw (Error (js "Listings must be an array."))
  else Ok (<[searchResultsScrapedAt := ITime now]> (<[searchResults := listings]> s)).

(** [getSearchResults()]: the fields [listings] and [scrapedAt]. *)
Definition getSearchResults (s : gmap jsstring item) : item * item :=
  (orDefault (IArray []) (s !! searchResults), orDefault INull (s !! searchResultsScrapedAt)).

End WithListing.
Arguments item L : clear implicits.

End Storage.

(** ** The search results page *)

Module Search.

Section ListingUrls.
Context {E C : Type}.
(** [link.closest('article, ...') || link.parentElement] *)
Context (containerOf : E -> option C).
(** The container's [display] is ['none'], inline or computed. *)
Context (hidden : C -> bool).
(** [link.href || link.getAttribute('href')] *)
Context (urlOf : E -> option jsstring).

(** [searchFilters.maxListings && searchFilters.maxListings > 0
     ? searchFilters.maxListings : null], for the filter the popup sends:
    [Number(...)] of its input, or [null]. *)
Definition limitOf (maxListings : option jsnum) : option jsnum :=
  match maxListings with
  | Some x => if truthy (VNum x) && gt x 0 then Some x else None
  | None => None
  end.

(** [maxListings && urls.length >= maxListings] *)
Definition limitReached (maxListings : option jsnum) (urls : list jsstring) : bool :=
  match maxListings with
  | Some m => negb (gt m (Z.of_nat (length urls)))
  | None => false
  end.

(** The loop of [collectListingUrls]; reading the style of a missing
    container throws. *)
Fixpoint collectFrom (maxListings : option jsnum) (links : list E) (urls : list jsstring)
    (processedUrls : gset jsstring) : result (list jsstring) :=
  match links with
  | [] => Ok urls
  | link :: rest =>
      if limitReached maxListings urls then Ok urls
      else
        match containerOf link with
        | None => Throw TypeError
        | Some container =>
            if hidden container then collectFrom maxListings rest urls processedUrls
            else
              match urlOf link with
              | Some ((_ :: _) as url) =>
                  if includes url (js "/pr/") && negb (bool_decide (url ∈ processedUrls))
                  then collectFrom maxListings rest (urls ++ [url]) ({[url]} ∪ processedUrls)
                  else collectFrom maxListings rest urls processedUrls
              | _ => collectFrom maxListings rest urls processedUrls
              end
        end
  end.

(** [collectListingUrls()], over the links [a[href*="/pr/"]] of the page. *)
Definition collectListingUrls (maxListings : option jsnum) (listingLinks : list E)
    : result (list jsstring) :=
  collectFrom (limitOf maxListings) listingLinks [] ∅.

(** A link of the list that is shown and carries the address [u]. *)
Definition shownLink (links : list E) (u : jsstring) : Prop :=
  exists link container,
    In link links /\ containerOf link = Some container /\ hidden container = false
    /\ urlOf link = Some u.

(** What the loop keeps true of the addresses [urls] it holds and of the
    addresses [out] it ends with. *)
Definition collected (maxListings : option jsnum) (links : list E) (urls out : list jsstring)
    : Prop :=
  NoDup out
  /\ (forall u, In u out -> In u urls \/ (includes u (js "/pr/") = true /\ shownLink links u))
  /\ (forall m n, maxListings = Some m -> gt m (Z.of_nat n) = false ->
        (length urls <= n)%nat -> (length out <= n)%nat)
  /\ (maxListings = None ->
      forall u, includes u (js "/pr/") = true -> u <> [] -> shownLink links u -> In u out)
  /\ (forall u, In u urls -> In u out).

End ListingUrls.

End Search.

(** ** The autofill steps: values for the fields *)

Module Fields.

(** [mapMyhomeToSsStatus(myhomeStatus)], with [None] for [null]. *)
Definition mapMyhomeToSsStatus (myhomeStatus : jsval) : option jsstring :=
  if negb (truthy myhomeStatus) then None
  else
    let status := toLowerCase (trim (valToString myhomeStatus)) in
    if includes status (js "ახალი") then Some (js "ახალი აშენებული")
    else if includes status (js "მშენებარე") then Some (js "მშენებარე")
    else if includes status (js "ძველი") then Some (js "ძველი აშენებული")
    else Some (js "ძველი აშენებული").

(** The three options of the status field. *)
Definition statusOptions : list jsstring :=
  [ js "ახალი აშენებული"; js "მშენებარე"; js "ძველი აშენებული" ].

(** [mapMyhomeConditionToSsCondition(myhomeCondition)], with [None] for
    [null]. *)
Definition mapMyhomeConditionToSsCondition (myhomeCondition : jsval) : option jsstring :=
  if negb (truthy myhomeCondition) then None
  else
    let condition := trim (valToString myhomeCondition) in
    if JsString.eqb condition (js "სარემონტო") then Some (js "სარემონტო")
    else if JsString.eqb condition (js "მიმდინარე რემონტი") then Some (js "მიმდინარე რემონტი")
    else if JsString.eqb condition (js "თეთრი კარკასი") then Some (js "თეთრი კარკასი")
    else if JsString.eqb condition (js "შავი კარკასი") then Some (js "შავი კარკასი")
    else if JsString.eqb condition (js "მწვანე კარკასი") then Some (js "მწვანე კარკასი")
    else if JsString.eqb condition (js "ახალი გარემონტებული")
            || includes condition (js "ახალი გარემონტებული") then Some (js "ახალი რემონტით")
    else if JsString.eqb condition (js "ძველი გარემონტებული")
            || includes condition (js "ძველი გარემონტებული") then Some (js "ძველი რემონტით")
    else if includes condition (js "თეთრი პლიუსი") then Some (js "თეთრი კარკასი")
    else if includes condition (js "გარემონტებული") then Some (js "გარემონტებული")
    else if includes condition (js "სარემონტო") then Some (js "სარემონტო")
    else if includes condition (js "მიმდინარე რემონტი") then Some (js "მიმდინარე რემონტი")
    else None.

(** The options of the condition field, as the program lists them. *)
Definition conditionOptions : list jsstring :=
  [ js "ახალი რემონტით"; js "ძველი რემონტით"; js "სარემონტო"; js "მიმდინარე რემონტი";
    js "გარემონტებული"; js "თეთრი კარკასი"; js "შავი კარკასი"; js "მწვანე კარკასი" ].

(** [conditionText] in [fillConditionField]: the mapped condition, or the
    scraped one as it is; [None] when the step returns for want of a value. *)
Definition conditionTextOf (conditionValue : jsval) : option jsstring :=
  if negb (truthy conditionValue) then None
  else
    match mapMyhomeConditionToSsCondition conditionValue with
    | Some ((_ :: _) as conditionText) => Some conditionText
    | _ => Some (trim (valToString conditionValue))
    end.

(** [floorValue] in [fillFloorField]: the part before the slash of a text
    such as "2 / 12". *)
Definition floorValueOf (floor : jsval) : jsstring :=
  let floorStr := valToString floor in
  if includes floorStr [47]
  then trim (hd [] (split 47 floorStr))
  else trim floorStr.

(** [totalFloors] in [fillTotalFloorField]: the part after the first slash,
    [None] when the step fills nothing. *)
Definition totalFloorsOf (floor : jsval) : option jsstring :=
  let floorStr := valToString floor in
  if includes floorStr [47] then
    match split 47 floorStr with
    | _ :: part :: _ =>
        match trim part with
        | [] => None
        | totalFloors => Some totalFloors
        end
    | _ => None
    end
  else None.

(** [[ა-ჰA-Za-z\-\/0-9]] *)
Definition isHouseNumberUnit (c : N) : bool :=
  ((4304 <=? c) && (c <=? 4336)) || ((65 <=? c) && (c <=? 90))
  || ((97 <=? c) && (c <=? 122)) || (c =? 45) || (c =? 47) || isDigit c.

(** The house-number pattern: a group [\d+[ა-ჰA-Za-z\-\/0-9]*] followed by
    [\s*$]. *)
Definition houseNumberRegex : re :=
  seq [ Grp 1 (Cat (plus true (Chr isDigit)) (Star true (Chr isHouseNumberUnit)));
        Star true ws; Eol ].

(** [/(\d+)/] *)
Definition firstNumberRegex : re := Grp 1 (plus true (Chr isDigit)).

(** The head of [fillLocationForm]: [streetAddressPart] and
    [explicitHouseNumber]. *)
Definition splitHouseNumber (address : jsstring) : jsstring * option jsstring :=
  match exec houseNumberRegex address with
  | Some (s0, mt) => (trim (rev (before s0)), Some (group mt 1))
  | None => (address, None)
  end.

(** [streetValue] in [fillLocationForm], before the options are searched. *)
Definition streetValueOf (address : jsstring) : jsstring :=
  trim (normalizeStreetForSs (fst (splitHouseNumber address))).

(** [houseNumberToUse] in [fillLocationForm]. *)
Definition houseNumberToUse (address : jsstring) : option jsstring :=
  match snd (splitHouseNumber address) with
  | Some ((_ :: _) as explicitHouseNumber) => Some explicitHouseNumber
  | _ =>
      match exec firstNumberRegex address with
      | Some (_, mt) =>
          match group mt 1 with
          | [] => None
          | number => Some number
          end
      | None => None
      end
  end.

End Fields.

(** ** Fields of a mapping file *)

Module Csv.

(** A unit that [parseCSVLine] copies without looking at it: no quote, no
    comma, no backslash, no bracket. *)
Definition plainCsvUnit (c : N) : bool :=
  negb ((c =? 34) || (c =? 44) || (c =? 92) || isOpenBracket c || isCloseBracket c).

(** A field made of plain units and of bracketed parts, which may hold
    commas. *)
Inductive csvField : jsstring -> Prop :=
  | field_plain (f : jsstring) :
      Forall (fun c => plainCsvUnit c = true) f -> csvField f
  | field_bracket (a : jsstring) (o : N) (b : jsstring) (c : N) (f : jsstring) :
      Forall (fun x => plainCsvUnit x = true) a ->
      isOpenBracket o = true ->
      Forall (fun x => plainCsvUnit x = true \/ x = 44) b ->
      isCloseBracket c = true ->
      csvField f ->
      csvField (a ++ o :: b ++ c :: f).

(** A field as it stands in a mapping file: not empty, without white space
    at its ends, on one line. *)
Definition cell (f : jsstring) : Prop :=
  csvField f
  /\ match f with c :: _ => isSpace c = false | [] => False end
  /\ match last f with Some c => isSpace c = false | None => False end
  /\ free 10 f.

(** The text of a mapping file with a header line and a selector line. *)
Definition csvOf (headers selectors : list jsstring) : jsstring :=
  join [44] headers ++ 10 :: join [44] selectors.

End Csv.

(** ** More sample pages *)

Module Samples.

(** A page on which [h1] finds a heading; the engine rejects [h1::]. *)
Definition headingPage : DOM :=
  {| Element := unit;
     textContent := fun _ => js "  Flat for sale  ";
     innerText := fun _ => js "Flat for sale";
     body := Some tt;
     validSelector := fun sel => negb (JsString.eqb sel (js "h1::"));
     docQuerySelector := fun sel => if JsString.eqb sel (js "h1") then Some tt else None;
     docQuerySelectorAll := fun _ => [];
     elQuerySelector := fun _ _ => None;
     elQuerySelectorAll := fun _ _ => [];
     elClosest := fun _ _ => None;
     parentElement := fun _ => None;
     nextElementSibling := fun _ => None;
     getAttribute := fun _ _ => None;
     currentSrc := fun _ => [];
     srcProperty := fun _ => [];
     locationHref := js "https://www.myhome.ge/pr/1";
     resolveUrl := fun v => Some v;
     isoNow := js "2025-01-01T00:00:00.000Z" |}.

(** A page whose gallery (element 1) holds the images 2, 3 and 4: the first
    two show the same picture, the last has no source. *)
Definition galleryPage : DOM :=
  {| Element := nat;
     textContent := fun _ => [];
     innerText := fun _ => [];
     body := Some 0%nat;
     validSelector := fun _ => true;
     docQuerySelector := fun sel =>
       if JsString.eqb sel GALLERY_CONTAINER_SELECTOR then Some 1%nat else None;
     docQuerySelectorAll := fun _ => [];
     elQuerySelector := fun _ _ => None;
     elQuerySelectorAll := fun el sel =>
       if Nat.eqb el 1 && JsString.eqb sel imgSelector then [ 2%nat; 3%nat; 4%nat ] else [];
     elClosest := fun _ _ => None;
     parentElement := fun _ => None;
     nextElementSibling := fun _ => None;
     getAttribute := fun _ _ => None;
     currentSrc := fun el => if Nat.eqb el 4 then [] else js "https://static.myhome.ge/a.jpg";
     srcProperty := fun _ => [];
     locationHref := js "https://www.myhome.ge/pr/1";
     resolveUrl := fun v => Some v;
     isoNow := js "2025-01-01T00:00:00.000Z" |}.


End Samples.

(** * Properties *)

Import Storage Search Fields Csv Samples.

(** Boolean comparisons in the context, as propositions for [lia]. *)
Ltac props :=
  repeat match goal with
         | H : _ && _ = true |- _ => apply andb_true_iff in H as [? ?]
         | H : _ || _ = false |- _ => apply orb_false_iff in H as [? ?]
         | H : negb _ = true |- _ => apply negb_true_iff in H
         | H : negb _ = false |- _ => apply negb_false_iff in H
         | H : (_ <=? _) = true |- _ => apply N.leb_le in H
         | H : (_ <=? _) = false |- _ => apply N.leb_gt in H
         | H : (_ <? _) = true |- _ => apply N.ltb_lt in H
         | H : (_ <? _) = false |- _ => apply N.ltb_ge in H
         | H : (_ =? _) = true |- _ => apply N.eqb_eq in H
         | H : (_ =? _) = false |- _ => apply N.eqb_neq in H
         end.


(** ** Strings *)

Example js_ascii : js "8+" = [56; 43].
Proof. reflexivity. Qed.

Example js_georgian : utf16Of "ა მ/რ" = [4304; 32; 4315; 47; 4320].
Proof. reflexivity. Qed.

Example js_superscript : utf16Of "120²" = [49; 50; 48; 178].
Proof. reflexivity. Qed.

Lemma startsWith_app (t r : jsstring) : startsWith (t ++ r) t = true.
Proof.
  induction t as [|c t IH]; simpl; [reflexivity|].
  rewrite N.eqb_refl. exact IH.
Qed.

Lemma startsWith_inv (s t : jsstring) : startsWith s t = true -> exists r, s = t ++ r.
Proof.
  revert s. induction t as [|c t IH]; intros s H.
  - exists s. reflexivity.
  - destruct s as [|a s]; simpl in H; [discriminate|].
    apply andb_true_iff in H as [Hc Hr]. apply N.eqb_eq in Hc. subst a.
    destruct (IH _ Hr) as [r ->]. exists r. reflexivity.
Qed.

Lemma includes_app (a t b : jsstring) : includes (a ++ t ++ b) t = true.
Proof.
  induction a as [|c a IH]; simpl.
  - destruct t; simpl.
    + destruct b; reflexivity.
    + rewrite N.eqb_refl, startsWith_app. reflexivity.
  - rewrite IH. apply orb_true_r.
Qed.

Lemma includes_inv (s t : jsstring) :
  includes s t = true -> exists a b, s = a ++ t ++ b.
Proof.
  induction s as [|c s IH]; simpl; intros H.
  - rewrite orb_false_r in H. apply startsWith_inv in H as [r Hr].
    exists [], r. exact Hr.
  - apply orb_true_iff in H as [H|H].
    + apply startsWith_inv in H as [r Hr]. exists [], r. exact Hr.
    + destruct (IH H) as (a & b & ->). exists (c :: a), b. reflexivity.
Qed.

Lemma includes_iff (s t : jsstring) :
  includes s t = true <-> exists a b, s = a ++ t ++ b.
Proof.
  split; [apply includes_inv|]. intros (a & b & ->). apply includes_app.
Qed.

Lemma includes_trans (s t u : jsstring) :
  includes s t = true -> includes t u = true -> includes s u = true.
Proof.
  intros (a & b & ->)%includes_inv (a' & b' & ->)%includes_inv.
  replace (a ++ (a' ++ u ++ b') ++ b) with ((a ++ a') ++ u ++ (b' ++ b)).
  - apply includes_app.
  - rewrite <- !app_assoc. reflexivity.
Qed.

Lemma eqb_true (s t : jsstring) : JsString.eqb s t = true <-> s = t.
Proof. unfold JsString.eqb. apply bool_decide_eq_true. Qed.

Lemma eqb_false (s t : jsstring) : JsString.eqb s t = false <-> s <> t.
Proof. unfold JsString.eqb. apply bool_decide_eq_false. Qed.

(** ** Deal type detection *)

Lemma firstDealTypeIn_sound (pageText r : jsstring) :
  firstDealTypeIn pageText = Some r ->
  In r dealTypes /\ includes pageText r = true.
Proof.
  unfold firstDealTypeIn. intros H. apply find_some in H. exact H.
Qed.

Lemma firstDealTypeIn_longest (pageText r : jsstring) :
  firstDealTypeIn pageText = Some r ->
  forall p, In p dealTypes -> p <> r -> startsWith p r = true ->
  includes pageText p = false.
Proof.
  unfold firstDealTypeIn, dealTypes. cbn [List.find].
  destruct (includes pageText (js "ქირავდება დღიურად")) eqn:H1;
    [intros [= <-]|
     destruct (includes pageText (js "ქირავდება")) eqn:H2;
       [intros [= <-]|
        destruct (includes pageText (js "გირავდება")) eqn:H3;
          [intros [= <-]|
           destruct (includes pageText (js "იყიდება")) eqn:H4;
             [intros [= <-]|discriminate]]]];
    intros p Hp Hne Hs;
    repeat (destruct Hp as [<-|Hp]; [first [congruence | exact H1 | (vm_compute in Hs; discriminate)]|]);
    destruct Hp.
Qed.

(** C3. Deal-type detection tries a phrase before any phrase that is a
    prefix of it: whatever it returns is one of the fixed phrases, occurs in
    the page text, and no fixed phrase that extends it occurs there. A page
    that contains "ქირავდება დღიურად" yields exactly that phrase, and a page
    that contains none of the phrases yields [null]. *)
Theorem detectDealType_longest_first (d : DOM) (b : Element d) :
  body d = Some b ->
  (forall r, detectDealType d = Ok (Some r) ->
     In r dealTypes /\ includes (pageTextOf d b) r = true /\
     forall p, In p dealTypes -> p <> r -> startsWith p r = true ->
               includes (pageTextOf d b) p = false)
  /\ (includes (pageTextOf d b) (js "ქირავდება დღიურად") = true ->
      detectDealType d = Ok (Some (js "ქირავდება დღიურად")))
  /\ ((forall p, In p dealTypes -> includes (pageTextOf d b) p = false) ->
      detectDealType d = Ok None).
Proof.
  intros Hb. unfold detectDealType. rewrite Hb. split; [|split].
  - intros r [= Hr]. destruct (firstDealTypeIn_sound _ _ Hr) as [Hin Hinc].
    split; [exact Hin|]. split; [exact Hinc|].
    apply firstDealTypeIn_longest. exact Hr.
  - intros H. unfold firstDealTypeIn, dealTypes. cbn [List.find]. rewrite H. reflexivity.
  - intros H. f_equal. unfold firstDealTypeIn.
    destruct (List.find _ dealTypes) as [r|] eqn:Hf; [|reflexivity].
    apply find_some in Hf as [Hin Hr]. rewrite (H r Hin) in Hr. discriminate.
Qed.

Lemma detectDealType_longest_first_witness :
  detectDealType (textPage (js "ბინა ქირავდება დღიურად ვაკეში"))
  = Ok (Some (js "ქირავდება დღიურად")).
Proof.
  apply (proj1 (proj2 (detectDealType_longest_first
           (textPage (js "ბინა ქირავდება დღიურად ვაკეში")) tt eq_refl))).
  vm_compute. reflexivity.
Defined.

(** ** Option matching *)

Lemma find_first_exact {E : Type} (f : E -> bool) (l : list E) (o : E) :
  In o l -> f o = true -> exists o', List.find f l = Some o' /\ f o' = true.
Proof.
  intros Hin Hf. destruct (List.find f l) as [o'|] eqn:Hfind.
  - exists o'. split; [reflexivity|]. apply find_some in Hfind. tauto.
  - pose proof (find_none _ _ Hfind _ Hin) as Hn. congruence.
Qed.

(** Whenever some option's trimmed text equals the target, the option
    search of the rooms and bathroom steps and the one of the street field
    return the first option whose trimmed text equals the target, whatever
    longer options contain it; containment is consulted only when no option
    is equal. With the options "III ა მიკრორაიონი" and "ა მიკრორაიონი" and
    the target "ა მიკრორაიონი" the second one is chosen. *)
Theorem exact_option_preferred {E : Type} (text : E -> jsstring)
    (optionDivs : list E) (target : jsstring) (o : E) :
  In o optionDivs -> trim (text o) = target ->
  (exists o', findMatchingOption text optionDivs target = Some o'
              /\ trim (text o') = target
              /\ List.find (fun div => JsString.eqb (trim (text div)) target) optionDivs = Some o')
  /\ (exists o', findStreetOption text optionDivs target = Some o'
                 /\ trim (text o') = target
                 /\ List.find (fun div => JsString.eqb (trim (text div)) target) optionDivs = Some o')
  /\ findMatchingOption snd microdistrictOptions (js "ა მიკრორაიონი")
     = Some (1%nat, js "ა მიკრორაიონი")
  /\ findStreetOption snd microdistrictOptions (js "ა მიკრორაიონი")
     = Some (1%nat, js "ა მიკრორაიონი").
Proof.
  intros Hin Ht.
  destruct (find_first_exact (fun div => JsString.eqb (trim (text div)) target) optionDivs o Hin)
    as (o' & Hfind & Ho').
  { apply eqb_true. exact Ht. }
  apply eqb_true in Ho'.
  split; [|split; [|split]].
  - exists o'. unfold findMatchingOption. rewrite Hfind. auto.
  - exists o'. unfold findStreetOption. rewrite Hfind. auto.
  - vm_compute. reflexivity.
  - vm_compute. reflexivity.
Qed.

Lemma exact_option_preferred_witness :
  exists o', findMatchingOption snd microdistrictOptions (js "ა მიკრორაიონი") = Some o'
             /\ trim (snd o') = js "ა მიკრორაიონი".
Proof.
  destruct (proj1 (exact_option_preferred snd microdistrictOptions (js "ა მიკრორაიონი")
                     (1%nat, js "ა მიკრორაიონი")
                     (or_intror (or_introl eq_refl)) eq_refl))
    as (o' & H1 & H2 & _).
  exists o'. split; assumption.
Defined.

(** C6. The option search of [fillProjectTypeField] does not try equality
    before containment: it takes the first option that equals the project
    type, contains it or is contained in it. With the options
    "არასტანდარტული" and "სტანდარტული" and the project type "სტანდარტული" it
    takes "არასტანდარტული", and with the options "III ა მიკრორაიონი" and "ა
    მიკრორაიონი" and the target "ა მიკრორაიონი" it takes the longer sibling,
    where the searches of the rooms step and of the street field take the
    equal option; and an element without text, which every target contains,
    is taken before the option equal to the target. *)
Theorem projectType_search_takes_first_containing :
  findProjectTypeOption snd projectTypeSiblings (js "სტანდარტული")
  = Some (0%nat, js "არასტანდარტული")
  /\ findMatchingOption snd projectTypeSiblings (js "სტანდარტული")
     = Some (1%nat, js "სტანდარტული")
  /\ findProjectTypeOption snd microdistrictOptions (js "ა მიკრორაიონი")
     = Some (0%nat, js "III ა მიკრორაიონი")
  /\ findMatchingOption snd microdistrictOptions (js "ა მიკრორაიონი")
     = Some (1%nat, js "ა მიკრორაიონი")
  /\ findStreetOption snd microdistrictOptions (js "ა მიკრორაიონი")
     = Some (1%nat, js "ა მიკრორაიონი")
  /\ findProjectTypeOption snd projectTypeOptions (js "ჩეხური") = Some (0%nat, [])
  /\ findMatchingOption snd projectTypeOptions (js "ჩეხური") = Some (2%nat, js "ჩეხური").
Proof. repeat apply conj; vm_compute; reflexivity. Qed.

(** Without an equal option, the rooms search takes the first option that
    contains the target or is contained in it. *)
Lemma findMatchingOption_containment {E : Type} (text : E -> jsstring)
    (optionDivs : list E) (target : jsstring) :
  (forall o, In o optionDivs -> trim (text o) <> target) ->
  findMatchingOption text optionDivs target
  = List.find (fun div => includes (trim (text div)) target || includes target (trim (text div)))
      optionDivs.
Proof.
  intros Hne. unfold findMatchingOption.
  destruct (List.find _ optionDivs) as [o|] eqn:Hfind; [|reflexivity].
  apply find_some in Hfind as [Hin Heq]. apply eqb_true in Heq.
  destruct (Hne o Hin Heq).
Qed.


(** ** Retries *)

Section RetryProofs.
Context {E : Type}.
Context (fc : nat -> option E) (fd : nat -> jsstring -> option E) (bc : nat -> option E).

Lemma runLoop_idle (dealType : jsstring) (l : loop) (fuel : nat) :
  timers l = [] -> runLoop fc fd bc dealType fuel l = (l, true).
Proof.
  intros H. destruct fuel; simpl; unfold turn; rewrite H; reflexivity.
Qed.

Lemma runLoop_turn (dealType : jsstring) (l l' : loop) (fuel : nat) :
  turn fc fd bc dealType l = Some l' ->
  runLoop fc fd bc dealType (S fuel) l = runLoop fc fd bc dealType fuel l'.
Proof. intros H. simpl. rewrite H. reflexivity. Qed.

(** C8. When the locator never returns an element, the category gate makes
    its first attempt and three retries, each scheduled 500 ms after the
    previous one, then logs and throws once and leaves no timer pending; the
    bathroom step makes its first attempt and five retries at 500 ms, then
    calls [fillBathroomField] once and logs its error once. Any number of
    event-loop turns from five on gives this same final state. *)
Theorem retry_budget_exhausted (fuel : nat) :
  (5 <= fuel)%nat ->
  ((forall t, fc t = None) ->
   autofillListingForm fc fd bc fuel
   = (mkLoop 1500 [] 3
        [ Retrying 1; Scheduled TrySelectCategory 500;
          Retrying 2; Scheduled TrySelectCategory 500;
          Retrying 3; Scheduled TrySelectCategory 500;
          LoggedError (js "Could not find category element after retries");
          Uncaught categoryError ], true))
  /\ ((forall t, bc t = None) ->
      fillBathroomFieldWithRetry fc fd bc fuel
      = (mkLoop 2500 [] 5
           [ Retrying 1; Scheduled TryFillBathroom 500;
             Retrying 2; Scheduled TryFillBathroom 500;
             Retrying 3; Scheduled TryFillBathroom 500;
             Retrying 4; Scheduled TryFillBathroom 500;
             Retrying 5; Scheduled TryFillBathroom 500;
             FillBathroomField;
             LoggedError (js "Bathroom container not found after retries") ], true)).
Proof.
  intros Hfuel.
  do 5 (destruct fuel as [|fuel]; [lia|]). clear Hfuel.
  split; intros H.
  - unfold autofillListingForm, start, trySelectCategory. rewrite H. cbn.
    unfold trySelectCategory. rewrite H. cbn.
    unfold trySelectCategory. rewrite H. cbn.
    unfold trySelectCategory. rewrite H. cbn.
    destruct fuel; reflexivity.
  - unfold fillBathroomFieldWithRetry, start, tryFillBathroom. rewrite H. cbn.
    unfold tryFillBathroom. rewrite H. cbn.
    unfold tryFillBathroom. rewrite H. cbn.
    unfold tryFillBathroom. rewrite H. cbn.
    unfold tryFillBathroom. rewrite H. cbn.
    unfold tryFillBathroom. rewrite H. cbn.
    destruct fuel; reflexivity.
Qed.




End RetryProofs.

Lemma retry_budget_exhausted_witness :
  snd (autofillListingForm (E := unit) (fun _ => None) (fun _ _ => None) (fun _ => None) 5) = true
  /\ snd (fillBathroomFieldWithRetry (E := unit) (fun _ => None) (fun _ _ => None) (fun _ => None) 5)
     = true.
Proof.
  destruct (retry_budget_exhausted (E := unit) (fun _ => None) (fun _ _ => None) (fun _ => None)
              5 (le_n 5)) as [H1 H2].
  rewrite (H1 (fun _ => eq_refl)), (H2 (fun _ => eq_refl)). split; reflexivity.
Defined.


(** ** The mapping loader *)

Example parseCSVLine_brackets :
  parseCSVLine (js "title,div.bg-\[rgb\(251\,251\,251\)\] > h1,rgb(1,2)")
  = [ js "title"; js "div.bg-\[rgb\(251\,251\,251\)\] > h1"; js "rgb(1,2)" ].
Proof. vm_compute. reflexivity. Qed.

Example loadMappings_two_lines :
  loadMappings (Response true (js "OK") (js "address,price" ++ [10] ++ js ".addr,.price" ++ [10]))
  = Ok (<[js "price" := js ".price"]> (<[js "address" := js ".addr"]> ∅)).
Proof. vm_compute. reflexivity. Qed.

Lemma loadMappings_unusable (resource : fetched) :
  unusable resource -> exists e, loadMappings resource = Throw e.
Proof.
  unfold loadMappings, readMappings.
  destruct resource as [e|[|] statusText csvText]; simpl; intros H.
  - eauto.
  - destruct (nonBlankLines csvText) as [|l0 [|l1 rest]]; simpl in H; [eauto|eauto|lia].
  - eauto.
Qed.

(** With no mappings, an attribute is looked up through its built-in
    selector list alone. *)
Lemma scrapeMappedAttribute_empty (d : DOM) (attributeName : jsstring) :
  scrapeMappedAttribute d ∅ attributeName
  = match fallbackSelectors attributeName with
    | Some selectors => Ok (getFirstTextMatch d selectors)
    | None =>
        match inheritedProperty attributeName with
        | Some selectors => firstTextMatchOfInherited selectors
        | None => Ok None
        end
    end.
Proof. unfold scrapeMappedAttribute. rewrite lookup_empty. reflexivity. Qed.

(** C10 (as the code has it). For a mapping resource that is missing or
    does not parse, [loadMappings] does not return an empty mapping: it throws
    the error to its caller. The caller, [executeScrapeOnActiveTab], catches
    it and scrapes with an empty mapping, so that every attribute is resolved
    through its built-in fallback selector list (a name that is no attribute
    but a property of [Object.prototype] finds that property there). *)
Theorem loadMappings_failure_caught_by_caller (resource : fetched) (d : DOM) :
  unusable resource ->
  (exists e, loadMappings resource = Throw e)
  /\ mappingsForScrape resource = ∅
  /\ executeScrapeOnActiveTab resource d = scrapeListingFromDom d ∅
  /\ forall attributeName,
       scrapeMappedAttribute d (mappingsForScrape resource) attributeName
       = match fallbackSelectors attributeName with
         | Some selectors => Ok (getFirstTextMatch d selectors)
         | None =>
             match inheritedProperty attributeName with
             | Some selectors => firstTextMatchOfInherited selectors
             | None => Ok None
             end
         end.
Proof.
  intros H. destruct (loadMappings_unusable resource H) as [e He].
  assert (Hm : mappingsForScrape resource = ∅).
  { unfold mappingsForScrape. rewrite He. reflexivity. }
  split; [eauto|]. split; [exact Hm|]. split.
  - unfold executeScrapeOnActiveTab. rewrite Hm. reflexivity.
  - intros a. rewrite Hm. apply scrapeMappedAttribute_empty.
Qed.

Lemma loadMappings_failure_caught_by_caller_witness :
  mappingsForScrape (Response false (js "Not Found") []) = ∅.
Proof.
  apply (proj1 (proj2 (loadMappings_failure_caught_by_caller
           (Response false (js "Not Found") []) (textPage []) I))).
Defined.

(** The statement of the specification fails as it stands: for a missing
    resource [loadMappings] throws instead of returning an empty mapping. *)
Lemma loadMappings_missing_resource_throws :
  loadMappings (Response false (js "Not Found") [])
  = Throw (Error (js "Failed to load mappings.csv: Not Found"))
  /\ loadMappings (Response false (js "Not Found") []) <> Ok ∅.
Proof. split; [vm_compute; reflexivity|discriminate]. Qed.

(** ** Bucket tokens *)

Lemma includes_ascii (s t : jsstring) (c : N) :
  ascii s -> 128 <= c -> includes s (c :: t) = false.
Proof.
  intros Hs Hc. induction Hs as [|a s Ha Hs IH]; simpl; [reflexivity|].
  rewrite IH, orb_false_r. replace (a =? c) with false; [reflexivity|].
  symmetry. apply N.eqb_neq. lia.
Qed.

Lemma lowerUnit_ascii (c : N) : c < 128 -> ascii (lowerUnit c).
Proof.
  intros Hc. unfold lowerUnit, ascii.
  destruct ((65 <=? c) && (c <=? 90)) eqn:H1.
  { props. apply Forall_cons. split; [lia|constructor]. }
  destruct ((7312 <=? c) && (c <=? 7359) && negb ((7355 <=? c) && (c <=? 7356))) eqn:H2.
  { props. lia. }
  destruct ((4256 <=? c) && (c <=? 4293)) eqn:H3.
  { props. lia. }
  destruct (c =? 304) eqn:H4.
  { props. lia. }
  apply Forall_cons. split; [lia|constructor].
Qed.

Lemma toLowerCase_ascii (s : jsstring) : ascii s -> ascii (toLowerCase s).
Proof.
  intros Hs. unfold toLowerCase. induction Hs as [|a s Ha Hs IH]; simpl.
  - constructor.
  - apply Forall_app. split; [apply lowerUnit_ascii; exact Ha|exact IH].
Qed.

Lemma uintUnits_ascii (u : Decimal.uint) : ascii (uintUnits u).
Proof. induction u; simpl; constructor; (lia || assumption). Qed.

Lemma natDigits_ascii (n : N) : ascii (natDigits n).
Proof. apply uintUnits_ascii. Qed.

Lemma dropWhile_ascii (p : N -> bool) (s : jsstring) : ascii s -> ascii (dropWhile p s).
Proof.
  intros Hs. induction Hs as [|a s Ha Hs IH]; simpl; [constructor|].
  destruct (p a); [exact IH|constructor; assumption].
Qed.

Lemma repeat_ascii (c : N) (n : nat) : c < 128 -> ascii (repeat c n).
Proof. intros Hc. induction n; simpl; constructor; assumption. Qed.

Lemma positiveToString_ascii (m : N) (e : Z) : ascii (positiveToString m e).
Proof.
  unfold positiveToString, stripZeros.
  set (s := rev (dropWhile _ (rev (natDigits m)))).
  assert (Hs : ascii s).
  { apply Forall_rev, dropWhile_ascii, Forall_rev, natDigits_ascii. }
  cbv zeta.
  repeat match goal with
         | |- context [if ?b then _ else _] => destruct b
         end;
    repeat (apply Forall_app; split);
    try (apply repeat_ascii; lia);
    try (apply natDigits_ascii);
    try (apply Forall_take; exact Hs);
    try (apply Forall_drop; exact Hs);
    try exact Hs;
    try (repeat constructor; lia).
  all: destruct Hs as [|d r Hd Hr]; [constructor|].
  all: destruct r; repeat constructor; try lia; inversion Hr; assumption.
Qed.

Lemma toString_ascii (x : jsnum) : ascii (toString x).
Proof.
  destruct x as [|[|]|[|p|p] e]; cbn [toString].
  1-4: repeat constructor; lia.
  - destruct (shortestDigits (N.pos p) e) as [s t]. apply positiveToString_ascii.
  - destruct (shortestDigits (N.pos p) e) as [s t].
    constructor; [lia|apply positiveToString_ascii].
Qed.

Lemma toLowerCase_app (a b : jsstring) : toLowerCase (a ++ b) = toLowerCase a ++ toLowerCase b.
Proof. unfold toLowerCase. apply flat_map_app. Qed.

(** Lower-casing keeps a phrase that is already in lower case. *)
Lemma includes_toLowerCase (s t : jsstring) :
  toLowerCase t = t -> includes s t = true -> includes (toLowerCase s) t = true.
Proof.
  intros Ht (a & b & ->)%includes_inv.
  rewrite !toLowerCase_app, Ht. apply includes_app.
Qed.

Lemma dec_ge_gt (m e k k' : Z) : (k' < k)%Z -> dec_ge m e k = true -> dec_gt m e k' = true.
Proof.
  unfold dec_ge, dec_gt. intros Hk.
  destruct (0 <=? e)%Z eqn:He.
  - intros H%Z.leb_le. apply Z.ltb_lt. lia.
  - intros H%Z.leb_le. apply Z.ltb_lt.
    assert (0 < 10 ^ (- e))%Z by (apply Z.pow_pos_nonneg; lia). nia.
Qed.

Lemma ge_gt (x : jsnum) (k k' : Z) : (k' < k)%Z -> ge x k = true -> gt x k' = true.
Proof.
  intros Hk. destruct x as [|neg|m e]; simpl; [discriminate|tauto|].
  apply dec_ge_gt. exact Hk.
Qed.

Lemma dec_gt_nonzero (m e k : Z) : (0 <= k)%Z -> dec_gt m e k = true -> (0 < m)%Z.
Proof.
  unfold dec_gt. intros Hk. destruct (0 <=? e)%Z eqn:He.
  - intros H%Z.ltb_lt. apply Z.leb_le in He.
    assert (0 < 10 ^ e)%Z by (apply Z.pow_pos_nonneg; lia). nia.
  - intros H%Z.ltb_lt.
    assert (0 < 10 ^ (- e))%Z by (apply Z.pow_pos_nonneg; lia). nia.
Qed.

Lemma gt_facts (x : jsnum) (k : Z) :
  (0 <= k)%Z -> gt x k = true -> isNaN x = false /\ isZero x = false /\ truthy (VNum x) = true.
Proof.
  intros Hk. destruct x as [|neg|m e]; simpl; [discriminate|auto|].
  intros H%dec_gt_nonzero; [|exact Hk]. destruct m; [lia|auto|lia].
Qed.

Lemma number_has_no_none_token (x : jsnum) :
  includes (toLowerCase (toString x)) noneToken = false
  /\ includes (toLowerCase (toString x)) (js "არა") = false.
Proof.
  split; apply includes_ascii; try apply toLowerCase_ascii, toString_ascii; lia.
Qed.

Lemma isZeroValue_text (s : jsstring) : isZeroValue (VStr s) = true -> s = js "0".
Proof.
  destruct s as [|c [|c' r]]; cbn; try discriminate.
  - destruct c as [|p]; [discriminate|].
    do 6 (try destruct p as [p|p|]; try discriminate). reflexivity.
  - destruct c as [|p]; [discriminate|].
    do 6 (try destruct p as [p|p|]; try discriminate).
Qed.

Lemma ascii_has_no_none_token (s : jsstring) :
  ascii s ->
  includes (toLowerCase s) noneToken = false /\ includes (toLowerCase s) (js "არა") = false.
Proof. intros H. split; apply includes_ascii; try apply toLowerCase_ascii; try exact H; lia. Qed.

Lemma bathroomTextOf_text_above (s : jsstring) :
  ascii s -> gt (parseFloat s) 5 = true -> bathroomTextOf (VStr s) = js "5+".
Proof.
  intros Hs H. unfold bathroomTextOf.
  destruct (gt_facts _ 5 ltac:(lia) H) as (Hn & _ & _).
  destruct (ascii_has_no_none_token s Hs) as [H1 H2].
  cbn [valToString parseFloatVal]. rewrite H1, H2, Hn, H.
  destruct (isZeroValue (VStr s)) eqn:Hz; [|reflexivity].
  apply isZeroValue_text in Hz. subst s. vm_compute in H. discriminate.
Qed.

Lemma bathroomValueOf_found (pd : option jsobject) (ap : jsobject) (v : jsval) :
  exactBathroomValue ap = v -> truthy v = true -> bathroomValueOf pd (Some ap) = v.
Proof.
  intros <- H. unfold bathroomValueOf. destruct pd; cbv zeta; rewrite H; cbn [negb]; rewrite ?H; reflexivity.
Qed.

Lemma bathroomSearchText_text (pd : option jsobject) (ap : jsobject) (s : jsstring) :
  exactBathroomValue ap = VStr s -> s <> [] ->
  bathroomSearchText pd (Some ap) = Some (bathroomTextOf (VStr s)).
Proof.
  intros H Hne. unfold bathroomSearchText.
  rewrite (bathroomValueOf_found pd ap (VStr s) H); [reflexivity|].
  destruct s; [congruence|reflexivity].
Qed.

(** C4. A numeric room count of 9 or more makes the rooms step look for "8+"
    (and click the option found for it); a numeric bathroom count above 5,
    given as a number or as the text the scraper stored, makes the bathroom
    step look for "5+"; a bathroom value of 0, or a text that contains
    "არ აქვს" or "არა", makes it look for "არ აქვს". The bathroom value is
    the text found under one of the bathroom keys. *)
Theorem bucket_tokens :
  (forall x, ge x 9 = true -> roomTextOf (VNum x) = js "8+")
  /\ (forall s, ge (parseFloat s) 9 = true -> roomTextOf (VStr s) = js "8+")
  /\ (forall (d : DOM) pd x roomInputContainer,
        pd !! js "ოთახი" = Some (VNum x) -> ge x 9 = true ->
        docQuerySelector d (js "#room-input") = Some roomInputContainer ->
        fillRoomsField d (Some pd)
        = match findMatchingOption (textContent d)
                  (elQuerySelectorAll d roomInputContainer optionDivSelector) (js "8+") with
          | Some matchingOption =>
              [ Click matchingOption; Dispatch roomInputContainer (js "change") ]
          | None => [ Warn (js "Could not find room option for: 8+") ]
          end)
  /\ (forall x, gt x 5 = true -> bathroomTextOf (VNum x) = js "5+")
  /\ (forall e, bathroomTextOf (VNum (Dec 0 e)) = noneToken)
  /\ bathroomTextOf (VStr (js "0")) = noneToken
  /\ (forall s, includes s (js "არ აქვს") = true \/ includes s (js "არა") = true ->
                bathroomTextOf (VStr s) = noneToken)
  /\ (forall s, ascii s -> gt (parseFloat s) 5 = true -> bathroomTextOf (VStr s) = js "5+")
  /\ (forall pd ap s, exactBathroomValue ap = VStr s -> s <> [] ->
        bathroomSearchText pd (Some ap) = Some (bathroomTextOf (VStr s))).
Proof.
  assert (Hroom : forall v, ge (parseFloatVal v) 9 = true -> roomTextOf v = js "8+").
  { intros v H. unfold roomTextOf. apply (ge_gt _ 9 8) in H; [|lia].
    destruct (gt_facts _ 8 ltac:(lia) H) as (-> & _ & _). rewrite H. reflexivity. }
  split; [intros x; apply (Hroom (VNum x))|].
  split; [intros s; apply (Hroom (VStr s))|].
  split.
  { intros d pd x c Hpd Hx Hc. unfold fillRoomsField. rewrite Hpd.
    pose proof (ge_gt _ 9 8 ltac:(lia) Hx) as Hgt.
    destruct (gt_facts _ 8 ltac:(lia) Hgt) as (_ & _ & ->). cbn [negb].
    rewrite (Hroom (VNum x) Hx), Hc. reflexivity. }
  split.
  { intros x H. unfold bathroomTextOf.
    destruct (gt_facts _ 5 ltac:(lia) H) as (Hn & Hz & _).
    destruct (number_has_no_none_token x) as [H1 H2].
    cbn [valToString isZeroValue parseFloatVal]. rewrite Hz, H1, H2, Hn, H. reflexivity. }
  split; [reflexivity|]. split; [reflexivity|].
  split; [|split; [exact bathroomTextOf_text_above|exact bathroomSearchText_text]].
  intros s H. unfold bathroomTextOf, noneToken. cbn [valToString].
  destruct H as [H|H]; apply includes_toLowerCase in H; try reflexivity;
    rewrite H, ?orb_true_r; reflexivity.
Qed.

Lemma bucket_tokens_witness :
  roomTextOf (VNum (Dec 12 0)) = js "8+" /\ bathroomTextOf (VNum (Dec 6 0)) = js "5+"
  /\ bathroomTextOf (VStr (js "6")) = js "5+"
  /\ bathroomSearchText None (Some [ (js "სველი წერტილი", VStr (js "6")) ])
     = Some (bathroomTextOf (VStr (js "6"))).
Proof.
  split; [|split; [|split]].
  - apply (proj1 bucket_tokens (Dec 12 0)). reflexivity.
  - apply (proj1 (proj2 (proj2 (proj2 bucket_tokens))) (Dec 6 0)). reflexivity.
  - apply (proj1 (proj2 (proj2 (proj2 (proj2 (proj2 (proj2 (proj2 bucket_tokens)))))))
             (js "6")).
    + repeat constructor.
    + reflexivity.
  - apply (proj2 (proj2 (proj2 (proj2 (proj2 (proj2 (proj2 (proj2 bucket_tokens)))))))
             None [ (js "სველი წერტილი", VStr (js "6")) ] (js "6")).
    + reflexivity.
    + discriminate.
Defined.

(** ** Reading numbers *)

Lemma isDigit_not_space (c : N) : isDigit c = true -> isSpace c = false.
Proof.
  unfold isDigit, isSpace. intros H. props.
  repeat (apply orb_false_iff; split); try (apply N.eqb_neq; lia).
  apply andb_false_iff. left. apply N.leb_gt. lia.
Qed.

Lemma spanDigits_app (ds r : jsstring) :
  digits ds -> match r with [] => True | c :: _ => isDigit c = false end ->
  spanDigits (ds ++ r) = (ds, r).
Proof.
  intros Hd Hr. induction Hd as [|a ds Ha Hd IH]; simpl.
  - destruct r as [|c r]; [reflexivity|]. simpl. rewrite Hr. reflexivity.
  - rewrite Ha, IH. reflexivity.
Qed.

Lemma exponentPart_stops (r : jsstring) : stops r -> exponentPart r = 0%Z.
Proof.
  destruct r as [|c r]; [reflexivity|]. intros (_ & H1 & H2). simpl.
  apply N.eqb_neq in H1, H2. rewrite H1, H2. reflexivity.
Qed.

Lemma stops_not_digit (r : jsstring) :
  stops r -> match r with [] => True | c :: _ => isDigit c = false end.
Proof. destruct r; [tauto|]. intros (H & _). exact H. Qed.

Lemma stripTens_not_nan (fuel : nat) : forall m e, isNaN (stripTens fuel m e) = false.
Proof.
  induction fuel as [|f IH]; intros m e; [reflexivity|]. cbn [stripTens].
  destruct ((e <? 0)%Z && (m mod 10 =? 0)%Z); [apply IH|reflexivity].
Qed.

(** What [round64] gives is a number. *)
Lemma round64_not_nan (m e : Z) : isNaN (round64 m e) = false.
Proof.
  assert (H : forall neg n d, isNaN (nearest64 neg n d) = false).
  { intros neg n d. unfold nearest64. cbv zeta.
    match goal with |- context [if ?b then Inf neg else _] => destruct b end; [reflexivity|].
    unfold ofBinary. match goal with |- context [if ?b then Dec _ _ else _] => destruct b end;
      [reflexivity|apply stripTens_not_nan]. }
  unfold round64. destruct m; [reflexivity| |]; destruct (0 <=? e)%Z; apply H.
Qed.

Lemma stripTens_pow10 (n : Z) (j : nat) :
  stripTens j (n * 10 ^ Z.of_nat j)%Z (- Z.of_nat j)%Z = Dec n 0.
Proof.
  induction j as [|j IH].
  - cbn [stripTens]. f_equal. cbn. lia.
  - cbn [stripTens].
    replace (- Z.of_nat (S j) <? 0)%Z with true by (symmetry; apply Z.ltb_lt; lia).
    replace (n * 10 ^ Z.of_nat (S j))%Z with ((n * 10 ^ Z.of_nat j) * 10)%Z
      by (rewrite Nat2Z.inj_succ, Z.pow_succ_r by lia; ring).
    rewrite Z.mod_mul by lia. cbn [Z.eqb andb]. rewrite Z.div_mul by lia.
    replace (- Z.of_nat (S j) + 1)%Z with (- Z.of_nat j)%Z by lia. exact IH.
Qed.

Lemma roundHalfEven_one (n : Z) : roundHalfEven n 1 = n.
Proof. unfold roundHalfEven. rewrite Z.mod_1_r, Z.div_1_r. reflexivity. Qed.

(** An integer below [2^53] is a Number: reading it loses nothing. *)
Lemma round64_integer (n : Z) : (0 <= n < 2 ^ 53)%Z -> round64 n 0 = Dec n 0.
Proof.
  intros [H0 H1]. destruct (Z.eq_dec n 0%Z) as [->|Hn]; [reflexivity|].
  assert (Hpos : (0 < n)%Z) by lia.
  unfold round64. destruct n as [|p|p]; [lia| |lia].
  cbn [Z.leb Z.compare Z.ltb]. change (Z.abs (Z.pos p)) with (Z.pos p).
  rewrite Z.pow_0_r, Z.mul_1_r.
  set (n := Z.pos p) in *.
  pose proof (Z.log2_spec n Hpos) as [Hlo Hhi].
  pose proof (Z.log2_nonneg n) as Hl0.
  assert (Hl : (Z.log2 n < 53)%Z) by (apply (proj1 (Z.log2_lt_pow2 n 53 Hpos)); exact H1).
  unfold nearest64, binaryExponent. cbv zeta.
  replace (Z.log2 1%Z) with 0%Z by reflexivity. rewrite Z.sub_0_r.
  replace (0 <=? Z.log2 n)%Z with true by (symmetry; apply Z.leb_le; lia).
  rewrite Z.mul_1_l.
  replace (2 ^ Z.log2 n <=? n)%Z with true by (symmetry; apply Z.leb_le; lia).
  rewrite Z.max_l by lia.
  destruct (Z.eq_dec (Z.log2 n) 52%Z) as [E|E].
  - rewrite E. change (52 - 52)%Z with 0%Z. cbn [Z.leb Z.compare].
    rewrite Z.pow_0_r, Z.mul_1_r, roundHalfEven_one, Z.add_0_r, E.
    cbn [Z.leb Z.compare]. unfold ofBinary. cbn [Z.leb Z.compare].
    rewrite Z.pow_0_r, Z.mul_1_r. reflexivity.
  - replace (0 <=? Z.log2 n - 52)%Z with false by (symmetry; apply Z.leb_gt; lia).
    rewrite roundHalfEven_one.
    replace (- (Z.log2 n - 52))%Z with (52 - Z.log2 n)%Z by lia.
    rewrite Z.log2_mul_pow2 by lia.
    replace (1024 <=? 52 - Z.log2 n + Z.log2 n + (Z.log2 n - 52))%Z with false
      by (symmetry; apply Z.leb_gt; lia).
    unfold ofBinary.
    replace (0 <=? Z.log2 n - 52)%Z with false by (symmetry; apply Z.leb_gt; lia).
    replace (- (Z.log2 n - 52))%Z with (52 - Z.log2 n)%Z by lia.
    rewrite <- Z.mul_assoc, <- Z.pow_mul_l. change (2 * 5)%Z with 10%Z.
    pose proof (stripTens_pow10 n (Z.to_nat (52 - Z.log2 n))) as H.
    rewrite Z2Nat.id in H by lia.
    replace (- (52 - Z.log2 n))%Z with (Z.log2 n - 52)%Z in H by lia. exact H.
Qed.

(** The head of a text that starts a number: no white space, no sign, and
    not the [I] of [Infinity]. *)
Lemma parseFloat_head (c : N) (s : jsstring) :
  isDigit c = true \/ c = dot ->
  parseFloat (c :: s)
  = let '(ip, r1) := spanDigits (c :: s) in
    let '(fp, r2) := fractionOf r1 in
    match ip ++ fp with
    | [] => NaN
    | ds => round64 (digitsValue ds) (exponentPart r2 - Z.of_nat (length fp))
    end.
Proof.
  intros H. unfold parseFloat.
  assert (Hs : isSpace c = false).
  { destruct H as [H| ->]; [apply isDigit_not_space; exact H|reflexivity]. }
  assert (Hc : c <> 45 /\ c <> 43 /\ c <> 73).
  { destruct H as [H| ->]; [unfold isDigit in H; props; lia|unfold dot; lia]. }
  unfold trimStart. cbn [dropWhile]. rewrite Hs.
  destruct Hc as (H1 & H2 & H3). apply N.eqb_neq in H1, H2, H3.
  unfold signOf. rewrite H1, H2. cbn [startsWith]. rewrite H3. reflexivity.
Qed.

Lemma fractionOf_none (r : jsstring) :
  match r with c :: _ => c <> dot | [] => True end -> fractionOf r = ([], r).
Proof.
  destruct r as [|c r]; [reflexivity|]. intros H%N.eqb_neq. simpl.
  unfold dot in H. rewrite H. reflexivity.
Qed.

Lemma parseFloat_integer (ds r : jsstring) :
  digits ds -> ds <> [] -> stops r ->
  match r with c :: _ => c <> dot | [] => True end ->
  parseFloat (ds ++ r) = round64 (digitsValue ds) 0.
Proof.
  intros Hd Hne Hr Hdot.
  destruct ds as [|c ds]; [congruence|]. inversion Hd as [|? ? Hc Hds]; subst.
  change ((c :: ds) ++ r) with (c :: (ds ++ r)).
  rewrite parseFloat_head by (left; exact Hc).
  change (c :: (ds ++ r)) with ((c :: ds) ++ r).
  rewrite (spanDigits_app (c :: ds) r Hd (stops_not_digit r Hr)).
  rewrite (fractionOf_none r Hdot), app_nil_r, (exponentPart_stops r Hr). reflexivity.
Qed.

Lemma parseFloat_fraction (ip fp r : jsstring) :
  digits ip -> digits fp -> ip ++ fp <> [] -> stops r ->
  parseFloat (ip ++ dot :: fp ++ r)
  = round64 (digitsValue (ip ++ fp)) (- Z.of_nat (length fp)).
Proof.
  intros Hi Hf Hne Hr.
  assert (Hhead : exists c s, ip ++ dot :: fp ++ r = c :: s /\ (isDigit c = true \/ c = dot)).
  { destruct Hi as [|c ip Hc Hi]; [eexists _, _; split; [reflexivity|right; reflexivity]|].
    eexists _, _. split; [reflexivity|left; exact Hc]. }
  destruct Hhead as (c & s & Heq & Hc). rewrite Heq, parseFloat_head by exact Hc.
  rewrite <- Heq. rewrite (spanDigits_app ip (dot :: fp ++ r) Hi) by reflexivity.
  unfold fractionOf, dot. rewrite N.eqb_refl.
  rewrite (spanDigits_app fp r Hf (stops_not_digit r Hr)).
  rewrite (exponentPart_stops r Hr).
  destruct (ip ++ fp) eqn:E; [congruence|]. reflexivity.
Qed.

(** Without a digit there is no number. *)
Lemma parseFloat_separators_only (s : jsstring) :
  Forall (fun c => c = dot \/ c = comma) s -> parseFloat s = NaN.
Proof.
  intros Hs. destruct Hs as [|c s Hc Hs]; [reflexivity|].
  assert (Hnd : forall x, x = dot \/ x = comma -> isDigit x = false).
  { intros x [-> | ->]; reflexivity. }
  destruct Hc as [-> | ->].
  - rewrite parseFloat_head by (right; reflexivity).
    cbn [spanDigits]. change (isDigit dot) with false. cbv iota.
    unfold fractionOf, dot. rewrite N.eqb_refl.
    destruct Hs as [|c' s' Hc' Hs']; [reflexivity|].
    cbn [spanDigits]. rewrite (Hnd _ Hc'). reflexivity.
  - reflexivity.
Qed.

(** ** Trimming *)

Lemma trimStart_head (c : N) (s : jsstring) : isSpace c = false -> trimStart (c :: s) = c :: s.
Proof. intros H. unfold trimStart. simpl. rewrite H. reflexivity. Qed.

Lemma trimEnd_last (s : jsstring) (c : N) : isSpace c = false -> trimEnd (s ++ [c]) = s ++ [c].
Proof.
  intros H. unfold trimEnd. rewrite rev_app_distr. simpl.
  rewrite trimStart_head by exact H.
  change (c :: rev s) with ([c] ++ rev s). rewrite rev_app_distr, rev_involutive. reflexivity.
Qed.

(** A text that neither starts nor ends with white space is its own trim. *)
Lemma trim_inner (c : N) (s : jsstring) (c' : N) :
  isSpace c = false -> isSpace c' = false -> trim (c :: s ++ [c']) = c :: s ++ [c'].
Proof.
  intros H H'. unfold trim. rewrite trimStart_head by exact H.
  change (c :: s ++ [c']) with ((c :: s) ++ [c']). apply trimEnd_last. exact H'.
Qed.

Lemma trim_single (c : N) : isSpace c = false -> trim [c] = [c].
Proof. intros H. unfold trim. rewrite trimStart_head by exact H. apply (trimEnd_last [] c H). Qed.

(** A text with a first and a last unit, for the case analysis on its ends. *)
Lemma ends (s : jsstring) : s = [] \/ (exists c, s = [c]) \/ exists c m c', s = c :: m ++ [c'].
Proof.
  destruct s as [|c s]; [left; reflexivity|right].
  destruct s as [|x s]; [left; exists c; reflexivity|right].
  destruct (@exists_last _ (x :: s)) as (m & c' & Hm); [discriminate|].
  exists c, m, c'. rewrite Hm. reflexivity.
Qed.

(** A text without white space at its ends is not changed by [trim]. *)
Lemma trim_ends (s : jsstring) :
  match s with c :: _ => isSpace c = false | [] => False end ->
  match last s with Some c => isSpace c = false | None => False end ->
  trim s = s.
Proof.
  intros Hhead Hlast.
  destruct (ends s) as [->|[[c ->]|(c & m & c' & ->)]]; [destruct Hhead| |].
  - apply trim_single. exact Hhead.
  - apply trim_inner; [exact Hhead|].
    change (c :: m ++ [c']) with ((c :: m) ++ [c']) in Hlast.
    rewrite last_snoc in Hlast. exact Hlast.
Qed.



(** ** Numeric attributes *)



Lemma keep_all (p : N -> bool) (s : jsstring) :
  Forall (fun c => p c = true) s -> keep p s = s.
Proof.
  intros H. unfold keep. induction H as [|a s Ha Hs IH]; simpl; [reflexivity|].
  rewrite Ha, IH. reflexivity.
Qed.


Lemma replaceFirst_first (x : N) (r a b : jsstring) :
  Forall (fun c => c <> x) a -> replaceFirst x r (a ++ x :: b) = a ++ r ++ b.
Proof.
  intros H. induction H as [|c a Hc Ha IH]; simpl.
  - rewrite N.eqb_refl. reflexivity.
  - apply N.eqb_neq in Hc. rewrite Hc, IH. reflexivity.
Qed.

Lemma digits_not (x : N) (s : jsstring) : isDigit x = false -> digits s -> Forall (fun c => c <> x) s.
Proof.
  intros Hx Hs. eapply Forall_impl; [exact Hs|]. simpl. intros c Hc ->. congruence.
Qed.

Lemma digits_not_space (s : jsstring) : digits s -> Forall (fun c => isSpace c = false) s.
Proof. intros Hs. eapply Forall_impl; [exact Hs|]. apply isDigit_not_space. Qed.





Lemma Forall_take' (P : N -> Prop) (n : nat) (s : jsstring) : Forall P s -> Forall P (take n s).
Proof. apply Forall_take. Qed.


(** ** Separators *)

Lemma includes_single (s : jsstring) (c : N) : includes s [c] = existsb (fun a => a =? c) s.
Proof.
  induction s as [|a s IH]; simpl; [reflexivity|].
  rewrite IH, andb_true_r. reflexivity.
Qed.

Lemma includes_single_free (s : jsstring) (c : N) : free c s -> includes s [c] = false.
Proof.
  intros H. rewrite includes_single. induction H as [|a s Ha Hs IH]; simpl; [reflexivity|].
  apply N.eqb_neq in Ha. rewrite Ha, IH. reflexivity.
Qed.

Lemma includes_single_app (a b : jsstring) (c : N) : includes (a ++ c :: b) [c] = true.
Proof. apply (includes_app a [c] b). Qed.

Lemma removeAll_free (c : N) (s : jsstring) : free c s -> removeAll c s = s.
Proof.
  intros H. unfold removeAll. apply keep_all.
  eapply Forall_impl; [exact H|]. simpl. intros a Ha. apply negb_true_iff, N.eqb_neq. exact Ha.
Qed.

Lemma removeAll_app (c : N) (a b : jsstring) : removeAll c (a ++ b) = removeAll c a ++ removeAll c b.
Proof. unfold removeAll, keep. apply List.filter_app. Qed.

Lemma removeAll_sep (c : N) (s : jsstring) : removeAll c (c :: s) = removeAll c s.
Proof. unfold removeAll, keep. simpl. rewrite N.eqb_refl. reflexivity. Qed.

Lemma removeAll_grouped (sep : N) (groups : list jsstring) :
  Forall (free sep) groups -> removeAll sep (grouped sep groups) = concat groups.
Proof.
  intros H. unfold grouped. induction H as [|g gs Hg Hgs IH]; [reflexivity|].
  destruct gs as [|g' gs].
  - simpl. rewrite app_nil_r. apply removeAll_free. exact Hg.
  - change (join [sep] (g :: g' :: gs)) with (g ++ [sep] ++ join [sep] (g' :: gs)).
    rewrite !removeAll_app, IH, (removeAll_free _ _ Hg).
    change (removeAll sep [sep]) with (removeAll sep (sep :: [])).
    rewrite removeAll_sep. reflexivity.
Qed.

Lemma split_free (c : N) (s : jsstring) : free c s -> split c s = [s].
Proof.
  intros H. induction H as [|a s Ha Hs IH]; simpl; [reflexivity|].
  apply N.eqb_neq in Ha. rewrite Ha, IH. reflexivity.
Qed.

Lemma split_app (c : N) (a b : jsstring) :
  free c a -> split c (a ++ c :: b) = a :: split c b.
Proof.
  intros H. induction H as [|x a Hx Ha IH]; simpl.
  - rewrite N.eqb_refl. reflexivity.
  - apply N.eqb_neq in Hx. rewrite Hx, IH. reflexivity.
Qed.

Lemma split_grouped (sep : N) (groups : list jsstring) :
  groups <> [] -> Forall (free sep) groups -> split sep (grouped sep groups) = groups.
Proof.
  intros Hne H. unfold grouped. induction H as [|g gs Hg Hgs IH]; [destruct Hne; reflexivity|].
  destruct gs as [|g' gs].
  - simpl. apply split_free. exact Hg.
  - change (join [sep] (g :: g' :: gs)) with (g ++ sep :: join [sep] (g' :: gs)).
    rewrite split_app by exact Hg. rewrite IH by discriminate. reflexivity.
Qed.

Lemma grouped_has_sep (sep : N) (g g' : jsstring) (gs : list jsstring) :
  includes (grouped sep (g :: g' :: gs)) [sep] = true.
Proof. apply (includes_single_app g (join [sep] (g' :: gs)) sep). Qed.

Lemma free_grouped (c sep : N) (groups : list jsstring) :
  c <> sep -> Forall (free c) groups -> free c (grouped sep groups).
Proof.
  intros Hc H. unfold grouped, free. induction H as [|g gs Hg Hgs IH]; [constructor|].
  destruct gs as [|g' gs]; [exact Hg|].
  change (join [sep] (g :: g' :: gs)) with (g ++ [sep] ++ join [sep] (g' :: gs)).
  apply Forall_app. split; [exact Hg|]. constructor; [congruence|exact IH].
Qed.

Lemma lastIndexOf_from_free (i : nat) (c : N) (s : jsstring) (acc : option nat) :
  free c s -> lastIndexOf_from i c s acc = acc.
Proof.
  intros H. revert i. induction H as [|a s Ha Hs IH]; intros i; simpl; [reflexivity|].
  apply N.eqb_neq in Ha. rewrite Ha. apply IH.
Qed.

Lemma lastIndexOf_from_app (i : nat) (c : N) (a b : jsstring) (acc : option nat) :
  lastIndexOf_from i c (a ++ b) acc
  = lastIndexOf_from (i + length a) c b (lastIndexOf_from i c a acc).
Proof.
  revert i acc. induction a as [|x a IH]; intros i acc; simpl.
  - rewrite Nat.add_0_r. reflexivity.
  - rewrite IH. f_equal. lia.
Qed.

Lemma lastIndexOf_from_bound (i : nat) (c : N) (s : jsstring) (acc : option nat) (j : nat) :
  lastIndexOf_from i c s acc = Some j -> acc = Some j \/ (i <= j < i + length s)%nat.
Proof.
  revert i acc. induction s as [|a s IH]; intros i acc; simpl; [auto|].
  intros H. apply IH in H as [H|H]; [|right; lia].
  destruct (a =? c); [|auto]. injection H as <-. right. lia.
Qed.

Lemma lastIndexOf_bound (c : N) (s : jsstring) (j : nat) :
  lastIndexOf c s = Some j -> (j < length s)%nat.
Proof. intros H. apply lastIndexOf_from_bound in H as [H|H]; [discriminate|lia]. Qed.

(** The last of one kind of separator, after which none of either kind
    follows, is the right-most separator of the text. *)
Lemma rightmost_separator (c c' : N) (a f : jsstring) :
  c <> c' -> free c f -> free c' f ->
  index_gt (lastIndexOf c (a ++ c :: f)) (lastIndexOf c' (a ++ c :: f)) = true
  /\ index_gt (lastIndexOf c' (a ++ c :: f)) (lastIndexOf c (a ++ c :: f)) = false.
Proof.
  intros Hc Hf Hf'. unfold lastIndexOf.
  rewrite !lastIndexOf_from_app. simpl. rewrite N.eqb_refl.
  apply N.eqb_neq in Hc. rewrite Hc.
  rewrite !lastIndexOf_from_free by assumption.
  destruct (lastIndexOf_from 0 c' a None) as [j|] eqn:Hj; simpl; [|auto].
  apply lastIndexOf_bound in Hj. split; [apply Nat.ltb_lt|apply Nat.ltb_ge]; lia.
Qed.

(** ** Prices *)

Lemma digits_free (c : N) (s : jsstring) : isDigit c = false -> digits s -> free c s.
Proof. apply digits_not. Qed.

Lemma digits_concat (groups : list jsstring) : Forall digits groups -> digits (concat groups).
Proof.
  intros H. unfold digits. induction H as [|g gs Hg Hgs IH]; simpl; [constructor|].
  apply Forall_app. split; assumption.
Qed.

Lemma groups_free (c : N) (groups : list jsstring) :
  isDigit c = false -> Forall digits groups -> Forall (free c) groups.
Proof. intros Hc H. eapply Forall_impl; [exact H|]. intros g. apply digits_free. exact Hc. Qed.

Lemma toNumber_fraction (ip fp : jsstring) :
  digits ip -> digits fp -> ip ++ fp <> [] ->
  toNumber (ip ++ dot :: fp) = Some (round64 (digitsValue (ip ++ fp)) (- Z.of_nat (length fp))).
Proof.
  intros Hi Hf Hne. unfold toNumber.
  pose proof (parseFloat_fraction ip fp [] Hi Hf Hne I) as H. rewrite app_nil_r in H.
  cbv zeta. rewrite H, round64_not_nan. reflexivity.
Qed.

Lemma toNumber_integer (ds : jsstring) :
  digits ds -> ds <> [] -> toNumber ds = Some (round64 (digitsValue ds) 0).
Proof.
  intros Hd Hne. unfold toNumber.
  pose proof (parseFloat_integer ds [] Hd Hne I I) as H. rewrite app_nil_r in H.
  cbv zeta. rewrite H, round64_not_nan. reflexivity.
Qed.

Lemma parsePriceText_value (text value : jsstring) :
  priceDigits text = value -> value <> [] -> parsePriceText text = parseSeparated value.
Proof.
  intros H Hne. unfold parsePriceText. destruct text as [|c text]; [subst; destruct Hne; reflexivity|].
  rewrite H. destruct value; [congruence|reflexivity].
Qed.

Section Conventions.
Context (groups : list jsstring) (g g' : jsstring) (gs : list jsstring).
Context (Hgroups : groups = g :: g' :: gs) (Hdigits : Forall digits groups).
Context (Hne : concat groups <> []).

(** "1,234,567.89": commas group, the dot is the decimal mark. *)
Lemma comma_grouped_dot_decimal (fp : jsstring) :
  digits fp ->
  parseSeparated (grouped comma groups ++ dot :: fp)
  = Some (round64 (digitsValue (concat groups ++ fp)) (- Z.of_nat (length fp))).
Proof.
  intros Hf. unfold parseSeparated.
  assert (Hfc : Forall (free comma) groups) by (apply groups_free; [reflexivity|exact Hdigits]).
  assert (Hfd : free dot (grouped comma groups)).
  { apply free_grouped; [discriminate|]. apply groups_free; [reflexivity|exact Hdigits]. }
  assert (Hc : includes (grouped comma groups ++ dot :: fp) [comma] = true).
  { rewrite Hgroups. unfold grouped.
    change (join [comma] (g :: g' :: gs)) with (g ++ comma :: join [comma] (g' :: gs)).
    rewrite <- app_assoc. apply (includes_app g [comma]). }
  rewrite Hc, includes_single_app. cbn [andb].
  destruct (rightmost_separator dot comma (grouped comma groups) fp) as [-> _];
    [discriminate|apply digits_free; [reflexivity|exact Hf]..|].
  rewrite removeAll_app, removeAll_grouped by exact Hfc.
  rewrite (removeAll_free comma (dot :: fp)).
  - apply toNumber_fraction; [apply digits_concat; exact Hdigits|exact Hf|].
    intros E. apply app_eq_nil in E as [E _]. exact (Hne E).
  - constructor; [discriminate|apply digits_free; [reflexivity|exact Hf]].
Qed.

(** "1.234.567,89": dots group, the comma is the decimal mark. *)
Lemma dot_grouped_comma_decimal (fp : jsstring) :
  digits fp ->
  parseSeparated (grouped dot groups ++ comma :: fp)
  = Some (round64 (digitsValue (concat groups ++ fp)) (- Z.of_nat (length fp))).
Proof.
  intros Hf. unfold parseSeparated.
  assert (Hfd : Forall (free dot) groups) by (apply groups_free; [reflexivity|exact Hdigits]).
  assert (Hfc : free comma (grouped dot groups)).
  { apply free_grouped; [discriminate|]. apply groups_free; [reflexivity|exact Hdigits]. }
  assert (Hd : includes (grouped dot groups ++ comma :: fp) [dot] = true).
  { rewrite Hgroups. unfold grouped.
    change (join [dot] (g :: g' :: gs)) with (g ++ dot :: join [dot] (g' :: gs)).
    rewrite <- app_assoc. apply (includes_app g [dot]). }
  rewrite Hd, includes_single_app. cbn [andb].
  destruct (rightmost_separator comma dot (grouped dot groups) fp) as [_ ->];
    [discriminate|apply digits_free; [reflexivity|exact Hf]..|].
  rewrite removeAll_app, removeAll_grouped by exact Hfd.
  rewrite (removeAll_free dot (comma :: fp)).
  - rewrite replaceFirst_first.
    + apply toNumber_fraction; [apply digits_concat; exact Hdigits|exact Hf|].
      intros E. apply app_eq_nil in E as [E _]. exact (Hne E).
    + apply digits_free; [reflexivity|apply digits_concat; exact Hdigits].
  - constructor; [discriminate|apply digits_free; [reflexivity|exact Hf]].
Qed.

(** "1,234,567": commas only, three digits or more after the last one. *)
Lemma comma_grouped_integer :
  (3 <= length (List.last groups []))%nat ->
  parseSeparated (grouped comma groups) = Some (round64 (digitsValue (concat groups)) 0).
Proof.
  intros Hlast. unfold parseSeparated, lastPart.
  assert (Hfc : Forall (free comma) groups) by (apply groups_free; [reflexivity|exact Hdigits]).
  assert (Hfd : free dot (grouped comma groups)).
  { apply free_grouped; [discriminate|]. apply groups_free; [reflexivity|exact Hdigits]. }
  assert (Hhas : includes (grouped comma groups) [comma] = true)
    by (rewrite Hgroups; apply grouped_has_sep).
  rewrite (includes_single_free _ dot Hfd), Hhas. cbn [andb].
  rewrite split_grouped; [|rewrite Hgroups; discriminate|exact Hfc].
  rewrite removeAll_grouped by exact Hfc.
  assert (Hn : toNumber (concat groups) = Some (round64 (digitsValue (concat groups)) 0)).
  { apply toNumber_integer; [apply digits_concat; exact Hdigits|exact Hne]. }
  destruct ((length (List.last groups []) =? 3)%nat && (1 <? length groups)%nat);
    [exact Hn|].
  destruct (length (List.last groups []) <=? 2)%nat eqn:E; [|exact Hn].
  apply Nat.leb_le in E. lia.
Qed.

(** "1.234.567": dots only, exactly three digits after the last one. *)
Lemma dot_grouped_integer :
  length (List.last groups []) = 3%nat ->
  parseSeparated (grouped dot groups) = Some (round64 (digitsValue (concat groups)) 0).
Proof.
  intros Hlast. unfold parseSeparated, lastPart.
  assert (Hfd : Forall (free dot) groups) by (apply groups_free; [reflexivity|exact Hdigits]).
  assert (Hfc : free comma (grouped dot groups)).
  { apply free_grouped; [discriminate|]. apply groups_free; [reflexivity|exact Hdigits]. }
  assert (Hhas : includes (grouped dot groups) [dot] = true)
    by (rewrite Hgroups; apply grouped_has_sep).
  assert (Hlen : (1 <? length groups)%nat = true) by (rewrite Hgroups; reflexivity).
  rewrite (includes_single_free _ comma Hfc), Hhas. cbn [andb].
  rewrite split_grouped; [|rewrite Hgroups; discriminate|exact Hfd].
  rewrite removeAll_grouped by exact Hfd.
  rewrite Hlast, Hlen. cbn [Nat.eqb andb].
  apply toNumber_integer; [apply digits_concat; exact Hdigits|exact Hne].
Qed.

End Conventions.

(** "105,50": one comma with at most two digits after it is the decimal mark. *)
Lemma comma_decimal (ip fp : jsstring) :
  digits ip -> digits fp -> ip ++ fp <> [] -> (length fp <= 2)%nat ->
  parseSeparated (ip ++ comma :: fp)
  = Some (round64 (digitsValue (ip ++ fp)) (- Z.of_nat (length fp))).
Proof.
  intros Hi Hf Hne Hlen. unfold parseSeparated, lastPart.
  assert (Hic : free comma ip) by (apply digits_free; [reflexivity|exact Hi]).
  assert (Hfc : free comma fp) by (apply digits_free; [reflexivity|exact Hf]).
  assert (Hd : free dot (ip ++ comma :: fp)).
  { apply Forall_app. split; [apply digits_free; [reflexivity|exact Hi]|].
    constructor; [discriminate|apply digits_free; [reflexivity|exact Hf]]. }
  rewrite includes_single_app, (includes_single_free _ dot Hd). cbn [andb].
  rewrite split_app, split_free by assumption. cbn [List.last length].
  destruct (length fp =? 3)%nat eqn:E; [apply Nat.eqb_eq in E; lia|]. cbn [andb].
  destruct (length fp <=? 2)%nat eqn:E2; [|apply Nat.leb_gt in E2; lia].
  rewrite replaceFirst_first by exact Hic. apply toNumber_fraction; assumption.
Qed.

(** Several commas and at most two digits after the last: the first comma
    becomes the decimal point and the number ends at the second comma. *)
Lemma commas_short_last_group (g g' g'' : jsstring) (gs : list jsstring) :
  Forall digits (g :: g' :: g'' :: gs) -> g ++ g' <> [] ->
  (length (List.last (g'' :: gs) []) <= 2)%nat ->
  parseSeparated (grouped comma (g :: g' :: g'' :: gs))
  = Some (round64 (digitsValue (g ++ g')) (- Z.of_nat (length g'))).
Proof.
  intros Hd Hne Hlen. unfold parseSeparated, lastPart.
  assert (Hfc : Forall (free comma) (g :: g' :: g'' :: gs))
    by (apply groups_free; [reflexivity|exact Hd]).
  assert (Hfd : free dot (grouped comma (g :: g' :: g'' :: gs))).
  { apply free_grouped; [discriminate|]. apply groups_free; [reflexivity|exact Hd]. }
  rewrite (includes_single_free _ dot Hfd), grouped_has_sep. cbn [andb].
  rewrite split_grouped; [|discriminate|exact Hfc].
  change (List.last (g :: g' :: g'' :: gs) []) with (List.last (g'' :: gs) []).
  destruct (length (List.last (g'' :: gs) []) =? 3)%nat eqn:E;
    [apply Nat.eqb_eq in E; lia|]. cbn [andb].
  destruct (length (List.last (g'' :: gs) []) <=? 2)%nat eqn:E2;
    [|apply Nat.leb_gt in E2; lia].
  inversion Hd as [|? ? Hg Hd']; subst. inversion Hd' as [|? ? Hg' _]; subst.
  inversion Hfc as [|? ? Hgc _]; subst.
  unfold grouped.
  change (join [comma] (g :: g' :: g'' :: gs))
    with (g ++ comma :: (g' ++ comma :: join [comma] (g'' :: gs))).
  rewrite replaceFirst_first by exact Hgc. cbn [app].
  unfold toNumber.
  rewrite (parseFloat_fraction g g' (comma :: join [comma] (g'' :: gs)) Hg Hg' Hne).
  - rewrite round64_not_nan. reflexivity.
  - cbn. repeat split; discriminate.
Qed.

(** "105.50": one dot with other than three digits after it is the decimal mark. *)
Lemma dot_decimal (ip fp : jsstring) :
  digits ip -> digits fp -> ip ++ fp <> [] -> length fp <> 3%nat ->
  parseSeparated (ip ++ dot :: fp)
  = Some (round64 (digitsValue (ip ++ fp)) (- Z.of_nat (length fp))).
Proof.
  intros Hi Hf Hne Hlen. unfold parseSeparated, lastPart.
  assert (Hid : free dot ip) by (apply digits_free; [reflexivity|exact Hi]).
  assert (Hfd : free dot fp) by (apply digits_free; [reflexivity|exact Hf]).
  assert (Hc : free comma (ip ++ dot :: fp)).
  { apply Forall_app. split; [apply digits_free; [reflexivity|exact Hi]|].
    constructor; [discriminate|apply digits_free; [reflexivity|exact Hf]]. }
  rewrite includes_single_app, (includes_single_free _ comma Hc). cbn [andb].
  rewrite split_app, split_free by assumption. cbn [List.last length].
  destruct (length fp =? 3)%nat eqn:E; [apply Nat.eqb_eq in E; lia|]. cbn [andb].
  apply toNumber_fraction; assumption.
Qed.

(** [parsePriceText] drops white space and every
    unit that is neither a digit nor a separator, and reads the Number
    nearest to what is left in these cases: digit groups joined by commas and a dot
    before the decimals, or joined by dots and a comma before the decimals
    (the right-most kind of separator is the decimal mark); groups joined by
    commas alone when at least three digits follow the last comma, or by dots
    alone when exactly three digits follow the last dot (thousands
    separators); one comma followed by at most two digits, or one dot
    followed by a number of digits other than three (decimal mark). So
    "105,000.50" and "105.000,50" give 105000.50, "105,50" gives 105.50 and
    "105,000" gives 105000. With several commas and at most two digits
    after the last one, the first comma is read as the decimal point and
    the text from the second comma on is not read. *)
Theorem parsePriceText_conventions :
  parsePriceText (js "105,000.50") = Some (round64 10500050 (-2))
  /\ parsePriceText (js "105.000,50") = Some (round64 10500050 (-2))
  /\ parsePriceText (js "105,50") = Some (round64 10550 (-2))
  /\ parsePriceText (js "105,000") = Some (Dec 105000 0)
  /\ (forall text g g' gs fp,
        Forall digits (g :: g' :: gs) -> concat (g :: g' :: gs) <> [] -> digits fp ->
        priceDigits text = grouped comma (g :: g' :: gs) ++ dot :: fp ->
        parsePriceText text
        = Some (round64 (digitsValue (concat (g :: g' :: gs) ++ fp)) (- Z.of_nat (length fp))))
  /\ (forall text g g' gs fp,
        Forall digits (g :: g' :: gs) -> concat (g :: g' :: gs) <> [] -> digits fp ->
        priceDigits text = grouped dot (g :: g' :: gs) ++ comma :: fp ->
        parsePriceText text
        = Some (round64 (digitsValue (concat (g :: g' :: gs) ++ fp)) (- Z.of_nat (length fp))))
  /\ (forall text g g' gs,
        Forall digits (g :: g' :: gs) -> (3 <= length (List.last (g :: g' :: gs) []))%nat ->
        priceDigits text = grouped comma (g :: g' :: gs) ->
        parsePriceText text = Some (round64 (digitsValue (concat (g :: g' :: gs))) 0))
  /\ (forall text g g' gs,
        Forall digits (g :: g' :: gs) -> length (List.last (g :: g' :: gs) []) = 3%nat ->
        priceDigits text = grouped dot (g :: g' :: gs) ->
        parsePriceText text = Some (round64 (digitsValue (concat (g :: g' :: gs))) 0))
  /\ (forall text ip fp,
        digits ip -> digits fp -> ip ++ fp <> [] -> (length fp <= 2)%nat ->
        priceDigits text = ip ++ comma :: fp ->
        parsePriceText text = Some (round64 (digitsValue (ip ++ fp)) (- Z.of_nat (length fp))))
  /\ (forall text ip fp,
        digits ip -> digits fp -> ip ++ fp <> [] -> length fp <> 3%nat ->
        priceDigits text = ip ++ dot :: fp ->
        parsePriceText text = Some (round64 (digitsValue (ip ++ fp)) (- Z.of_nat (length fp))))
  /\ (forall text g g' g'' gs,
        Forall digits (g :: g' :: g'' :: gs) -> g ++ g' <> [] ->
        (length (List.last (g'' :: gs) []) <= 2)%nat ->
        priceDigits text = grouped comma (g :: g' :: g'' :: gs) ->
        parsePriceText text = Some (round64 (digitsValue (g ++ g')) (- Z.of_nat (length g')))).
Proof.
  assert (Hlast : forall (groups : list jsstring),
             (0 < length (List.last groups []))%nat -> concat groups <> []).
  { intros groups Hl E. induction groups as [|x groups IH]; [simpl in Hl; lia|].
    simpl in E. apply app_eq_nil in E as [-> E].
    destruct groups as [|y groups]; [simpl in Hl; lia|]. apply IH; assumption. }
  assert (Hgrouped : forall sep x y l, grouped sep (x :: y :: l) <> []).
  { intros sep x y l E. unfold grouped in E. simpl in E.
    apply app_eq_nil in E as [_ E]. discriminate. }
  do 4 (split; [vm_compute; reflexivity|]).
  repeat split.
  - intros text g g' gs fp Hd Hne Hf Hv.
    rewrite (parsePriceText_value _ _ Hv) by (intros E; apply app_eq_nil in E as [_ E]; discriminate).
    eapply comma_grouped_dot_decimal; eauto.
  - intros text g g' gs fp Hd Hne Hf Hv.
    rewrite (parsePriceText_value _ _ Hv) by (intros E; apply app_eq_nil in E as [_ E]; discriminate).
    eapply dot_grouped_comma_decimal; eauto.
  - intros text g g' gs Hd Hl Hv.
    rewrite (parsePriceText_value _ _ Hv) by apply Hgrouped.
    eapply comma_grouped_integer; eauto. apply Hlast. lia.
  - intros text g g' gs Hd Hl Hv.
    rewrite (parsePriceText_value _ _ Hv) by apply Hgrouped.
    eapply dot_grouped_integer; eauto. apply Hlast. lia.
  - intros text ip fp Hi Hf Hne Hl Hv.
    rewrite (parsePriceText_value _ _ Hv) by (intros E; apply app_eq_nil in E as [_ E]; discriminate).
    apply comma_decimal; assumption.
  - intros text ip fp Hi Hf Hne Hl Hv.
    rewrite (parsePriceText_value _ _ Hv) by (intros E; apply app_eq_nil in E as [_ E]; discriminate).
    apply dot_decimal; assumption.
  - intros text g g' g'' gs Hd Hne Hl Hv.
    rewrite (parsePriceText_value _ _ Hv) by apply Hgrouped.
    apply commas_short_last_group; assumption.
Qed.

Lemma parsePriceText_conventions_witness :
  parsePriceText (js "1,250,000.75 ₾") = Some (Dec 125000075 (-2)).
Proof.
  apply (proj1 (proj2 (proj2 (proj2 (proj2 parsePriceText_conventions))))
           (js "1,250,000.75 ₾") (js "1") (js "250") [js "000"] (js "75")).
  - repeat constructor.
  - discriminate.
  - repeat constructor.
  - reflexivity.
Defined.

(** C1. The copy of the extractor that converts the price text in line does
    not recover the price from a text with a thousands separator: it cuts the
    last character, turns the first comma into a dot and calls [parseFloat],
    so that the price texts "105,000 $", "105,000.50 $" and "105.000,50 $" are
    all stored as 105, where [parsePriceText] of the other copy gives 105000
    and 105000.5. *)
Theorem inline_price_conversion_drops_thousands :
  inlinePriceNumber (js "105,000 $") = Some (Dec 105 0)
  /\ inlinePriceNumber (js "105,000.50 $") = Some (Dec 105 0)
  /\ inlinePriceNumber (js "105.000,50 $") = Some (Dec 105 0)
  /\ parsePriceText (js "105,000 $") = Some (Dec 105000 0)
  /\ parsePriceText (js "105,000.50 $") = Some (round64 10500050 (-2))
  /\ parsePriceText (js "105.000,50 $") = Some (round64 10500050 (-2))
  /\ round64 10500050 (-2) <> Dec 105 0
  /\ Dec 105000 0 <> Dec 105 0.
Proof.
  repeat split; try (vm_compute; reflexivity); vm_compute; discriminate.
Qed.

(** [parsePriceText] is not the rule the specification states: with only a
    dot and four digits after it, the stated rule (alike for comma and dot)
    makes the dot a thousands separator, while the parser reads it as the
    decimal mark; and with two commas and one digit after the last, the
    stated rule drops the commas, while the parser turns the first comma
    into the decimal point. *)
Lemma parsePriceText_not_the_stated_rule :
  parsePriceText (js "1.2345") = Some (round64 12345 (-4))
  /\ statedSeparatorRule (priceDigits (js "1.2345")) = Some (Dec 12345 0)
  /\ round64 12345 (-4) <> Dec 12345 0
  /\ parsePriceText (js "1,234,5") = Some (round64 1234 (-3))
  /\ statedSeparatorRule (priceDigits (js "1,234,5")) = Some (Dec 12345 0)
  /\ round64 1234 (-3) <> Dec 12345 0.
Proof.
  repeat split; try (vm_compute; reflexivity); vm_compute; discriminate.
Qed.

(** ** Matching *)



(** A greedy star over a character class: one more unit first, then the
    continuation. *)
Lemma run_star_greedy (p : N -> bool) (s : st) (k : cont) :
  run (Star true (Chr p)) s k
  = match after s with
    | c :: r =>
        if p c then orElse (run (Star true (Chr p)) (mkSt (c :: before s) r (caps s)) k) (k s)
        else k s
    | [] => k s
    end.
Proof.
  destruct s as [b a cs]. cbn [run after before caps].
  destruct a as [|c r]; cbn [length starLoop]; [reflexivity|].
  cbn [run advance after before caps].
  destruct (p c); [|reflexivity].
  cbn [after length]. rewrite (proj2 (Nat.ltb_lt _ _) (Nat.lt_succ_diag_r _)). reflexivity.
Qed.




(** ** The address transform *)


Lemma run_star_greedy_ws (s : st) (k : cont) :
  run (Star true ws) s k
  = match after s with
    | c :: r =>
        if isSpace c then orElse (run (Star true ws) (mkSt (c :: before s) r (caps s)) k) (k s)
        else k s
    | [] => k s
    end.
Proof. apply run_star_greedy. Qed.

Lemma run_chr_cons (p : N -> bool) (b : jsstring) (c : N) (a : jsstring)
    (cs : list (nat * jsstring)) (k : cont) :
  run (Chr p) (mkSt b (c :: a) cs) k = if p c then k (mkSt (c :: b) a cs) else None.
Proof. reflexivity. Qed.

Lemma captured_consumed (b a a' x : jsstring) (cs cs' : list (nat * jsstring)) :
  captured (mkSt b a cs) (mkSt (rev x ++ b) a' cs') = x.
Proof.
  unfold captured. cbn [before]. rewrite length_app, length_rev.
  replace (length x + length b - length b)%nat with (length (rev x)) by (rewrite length_rev; lia).
  rewrite take_app_length. apply rev_involutive.
Qed.


















(** ** The street normalizer *)

(** The continuation of a match is only run on input that is still ahead. *)
Lemma starLoop_ahead (body : st -> cont -> option st) (g : bool) (k : cont) (P : jsstring -> Prop) :
  (forall s k', P (after s) -> (forall s', P (after s') -> k' s' = None) -> body s k' = None) ->
  (forall s', P (after s') -> k s' = None) ->
  forall fuel s, P (after s) -> starLoop body g k fuel s = None.
Proof.
  intros Hbody Hk. induction fuel as [|fuel IH]; intros s Hs; cbn [starLoop].
  - apply Hk. exact Hs.
  - rewrite (Hk s Hs), Hbody.
    + destruct g; reflexivity.
    + exact Hs.
    + intros s' Hs'. destruct (_ <? _)%nat; [apply IH; exact Hs'|reflexivity].
Qed.

(** A pattern that cannot consume [c] fails when what follows it fails
    wherever [c] is still ahead. *)
Lemma run_avoids (c : N) (r : re) :
  avoids c r ->
  forall s k, In c (after s) -> (forall s', In c (after s') -> k s' = None) -> run r s k = None.
Proof.
  induction r as [|p|r1 IH1 r2 IH2|r1 IH1 r2 IH2|g r1 IH1|i r1 IH1| | | |r1 IH1];
    intros Hav s k Hs Hk; cbn [run avoids] in *.
  - apply Hk, Hs.
  - destruct s as [b [|x a] cs]; cbn [advance after before caps] in *; [reflexivity|].
    destruct (p x) eqn:Hp; [|reflexivity]. apply Hk. cbn [after].
    destruct Hs as [->|Hs]; [congruence|exact Hs].
  - destruct Hav as [H1 H2]. apply IH1; [exact H1|exact Hs|].
    intros s' Hs'. apply IH2; assumption.
  - destruct Hav as [H1 H2]. rewrite IH1, IH2 by assumption. reflexivity.
  - apply (starLoop_ahead _ _ _ (fun a => In c a)); [|exact Hk|exact Hs].
    intros s0 k' Hs0 Hk'. apply IH1; assumption.
  - apply IH1; [exact Hav|exact Hs|]. intros s' Hs'. apply Hk. exact Hs'.
  - destruct (before s); [apply Hk, Hs|reflexivity].
  - destruct (after s); [destruct Hs|reflexivity].
  - destruct (xorb _ _); [apply Hk, Hs|reflexivity].
  - destruct (run r1 s Some); [apply Hk, Hs|reflexivity].
Qed.

(** A pattern fails when what follows it fails on every rest of the input. *)
Lemma run_ahead (P : jsstring -> Prop) (r : re) :
  (forall c a, P (c :: a) -> P a) ->
  forall s k, P (after s) -> (forall s', P (after s') -> k s' = None) -> run r s k = None.
Proof.
  intros Htail.
  induction r as [|p|r1 IH1 r2 IH2|r1 IH1 r2 IH2|g r1 IH1|i r1 IH1| | | |r1 IH1];
    intros s k Hs Hk; cbn [run].
  - apply Hk, Hs.
  - destruct s as [b [|x a] cs]; cbn [advance after before caps] in *; [reflexivity|].
    destruct (p x); [|reflexivity]. apply Hk. cbn [after]. exact (Htail _ _ Hs).
  - apply IH1; [exact Hs|]. intros s' Hs'. apply IH2; assumption.
  - rewrite IH1, IH2 by assumption. reflexivity.
  - apply (starLoop_ahead _ _ _ P); [|exact Hk|exact Hs].
    intros s0 k' Hs0 Hk'. apply IH1; assumption.
  - apply IH1; [exact Hs|]. intros s' Hs'. apply Hk. exact Hs'.
  - destruct (before s); [apply Hk, Hs|reflexivity].
  - pose proof (Hk s Hs) as H0. destruct (after s); [exact H0|reflexivity].
  - destruct (xorb _ _); [apply Hk, Hs|reflexivity].
  - destruct (run r1 s Some); [apply Hk, Hs|reflexivity].
Qed.

Lemma without_tail (X : N -> bool) (c : N) (a : jsstring) : without X (c :: a) -> without X a.
Proof. intros H. inversion H; assumption. Qed.

(** A pattern that needs a unit of the class [X] fails on input without one. *)
Lemma run_needs (X : N -> bool) (r : re) :
  needs X r -> forall s k, without X (after s) -> run r s k = None.
Proof.
  induction r as [|p|r1 IH1 r2 IH2|r1 IH1 r2 IH2|g r1 IH1|i r1 IH1| | | |r1 IH1];
    intros Hn s k Hs; cbn [run needs] in *; try destruct Hn.
  - destruct s as [b [|x a] cs]; cbn [advance after before caps] in *; [reflexivity|].
    destruct (p x) eqn:Hp; [|reflexivity]. apply Hn in Hp.
    inversion Hs; congruence.
  - apply IH1; assumption.
  - apply (run_ahead (without X)); [apply without_tail|exact Hs|].
    intros s' Hs'. apply IH2; assumption.
  - rewrite IH1, IH2 by assumption. reflexivity.
  - apply IH1; assumption.
  - rewrite IH1 by assumption. reflexivity.
Qed.

(** No match anywhere: [exec] finds nothing and [replace] changes nothing. *)
Lemma execFrom_nowhere (P : st -> Prop) (r : re) :
  (forall s, P s -> matchHere r s = None) ->
  (forall s c s1, P s -> advance s = Some (c, s1) -> P s1) ->
  forall fuel s, P s -> execFrom r fuel s = None.
Proof.
  intros Hno Hadv. induction fuel as [|fuel IH]; intros s Hs; cbn [execFrom]; rewrite (Hno s Hs).
  - reflexivity.
  - destruct (advance s) as [[c s1]|] eqn:E; [|reflexivity]. apply IH. exact (Hadv _ _ _ Hs E).
Qed.

Lemma replaceFrom_nowhere (P : st -> Prop) (r : re) (f : st -> jsstring) (g : bool) :
  (forall s, P s -> matchHere r s = None) ->
  (forall s c s1, P s -> advance s = Some (c, s1) -> P s1) ->
  forall fuel s, P s -> replaceFrom r f g fuel s = after s.
Proof.
  intros Hno Hadv. induction fuel as [|fuel IH]; intros s Hs; cbn [replaceFrom]; [reflexivity|].
  rewrite (Hno s Hs). destruct (advance s) as [[c s1]|] eqn:E.
  - rewrite (IH s1 (Hadv _ _ _ Hs E)). unfold advance in E.
    destruct (after s); [discriminate|]. injection E as <- <-. reflexivity.
  - unfold advance in E. destruct (after s); [reflexivity|discriminate].
Qed.

Lemma mkhedruli_facts (c : N) :
  isMkhedruli c = true ->
  isSpace c = false /\ isWord c = false /\ romanOrDigitUnit c = false
  /\ (c =? 32) = false /\ (c =? 44) = false /\ (c =? 46) = false.
Proof.
  unfold isMkhedruli. intros H. props.
  assert (Hcanon : 4304 <= canon c).
  { unfold canon. repeat match goal with |- context [if ?b then _ else _] => destruct b eqn:? end;
      props; lia. }
  repeat split.
  - unfold isSpace. repeat (apply orb_false_iff; split); try (apply N.eqb_neq; lia).
    apply andb_false_iff. left. apply N.leb_gt. lia.
  - unfold isWord, isDigit. repeat (apply orb_false_iff; split);
      try (apply N.eqb_neq; lia); apply andb_false_iff; right; apply N.leb_gt; lia.
  - unfold romanOrDigitUnit, romanUnit, isDigit. apply orb_false_iff. split.
    + apply andb_false_iff; right; apply N.leb_gt; lia.
    + cbn [existsb]. change (canon 73) with 73. change (canon 86) with 86.
      change (canon 88) with 88.
      repeat (apply orb_false_iff; split); try reflexivity; apply N.eqb_neq; lia.
  - apply N.eqb_neq; lia.
  - apply N.eqb_neq; lia.
  - apply N.eqb_neq; lia.
Qed.

Lemma plainUnit_facts (c : N) :
  plainUnit c = true -> isWord c = false /\ romanOrDigitUnit c = false.
Proof.
  unfold plainUnit. intros H. apply orb_true_iff in H as [H|H]; [apply orb_true_iff in H as [H|H]|].
  - apply mkhedruli_facts in H. tauto.
  - apply N.eqb_eq in H as ->. split; reflexivity.
  - apply N.eqb_eq in H as ->. split; reflexivity.
Qed.

Lemma plain_without (a : jsstring) :
  Forall (fun c => plainUnit c = true) a -> without romanOrDigitUnit a.
Proof.
  intros H. eapply Forall_impl; [exact H|]. intros c Hc. apply plainUnit_facts in Hc. tauto.
Qed.

Lemma spaced_tail (c : N) (l : jsstring) : spaced (c :: l) = true -> spaced l = true.
Proof. cbn [spaced]. intros H. apply andb_true_iff in H. tauto. Qed.

Lemma spaced_suffix (x y : jsstring) : spaced (x ++ y) = true -> spaced y = true.
Proof. induction x as [|c x IH]; [tauto|]. intros H. apply IH. exact (spaced_tail _ _ H). Qed.

Lemma spaced_plain (l : jsstring) : spaced l = true -> Forall (fun c => plainUnit c = true) l.
Proof.
  induction l as [|c l IH]; [constructor|]. intros H. constructor; [|apply IH, (spaced_tail _ _ H)].
  cbn [spaced] in H. apply andb_true_iff in H as [H _]. unfold plainUnit.
  apply orb_true_iff in H as [->|H]; [reflexivity|].
  apply andb_true_iff in H as [-> _]. rewrite orb_true_r. reflexivity.
Qed.

(** The shape of a spaced text: empty, a letter first, or a space and a
    letter first. *)
Lemma spaced_cases (l : jsstring) :
  spaced l = true ->
  l = [] \/ (exists c r, l = c :: r /\ isMkhedruli c = true /\ spaced r = true)
  \/ exists c r, l = 32 :: c :: r /\ isMkhedruli c = true /\ spaced (c :: r) = true.
Proof.
  destruct l as [|c r]; [tauto|]. intros H. pose proof (spaced_tail _ _ H) as Hr.
  cbn [spaced] in H. apply andb_true_iff in H as [H _].
  apply orb_true_iff in H as [H|H]; [right; left; eauto|].
  apply andb_true_iff in H as [Hc H]. apply N.eqb_eq in Hc as ->.
  destruct r as [|c' r]; [discriminate|]. right. right. eauto.
Qed.

Lemma streetTypeWords_plain (w : jsstring) :
  In w streetTypeWords -> Forall (fun c => plainUnit c = true) w.
Proof.
  intros H. unfold streetTypeWords in H. cbn [In] in H.
  repeat (destruct H as [<-|H]; [repeat constructor|]). destruct H.
Qed.

Lemma streetTypeWords_last (w : jsstring) :
  In w streetTypeWords -> match last w with Some c => isSpace c = false | None => False end.
Proof.
  intros H. unfold streetTypeWords in H. cbn [In] in H.
  repeat (destruct H as [<-|H]; [reflexivity|]). destruct H.
Qed.

Lemma spaced_last (l : jsstring) :
  spaced l = true -> l <> [] ->
  match last l with Some c => isMkhedruli c = true | None => False end.
Proof.
  induction l as [|c l IH]; [congruence|]. intros H _.
  destruct (spaced_cases _ H) as [E|[(c0 & r & E & Hc & Hr)|(c0 & r & E & Hc & Hr)]];
    [discriminate| |].
  - injection E as -> ->. destruct r as [|c' r]; [exact Hc|].
    rewrite last_cons. specialize (IH Hr ltac:(discriminate)).
    destruct (last (c' :: r)); [exact IH|destruct IH].
  - injection E as -> ->. rewrite last_cons. specialize (IH Hr ltac:(discriminate)).
    destruct (last (c0 :: r)); [exact IH|destruct IH].
Qed.

Lemma streetName_trim (base : jsstring) : streetName base -> trim base = base.
Proof.
  intros [Hhead Hsp]. apply trim_ends.
  - destruct base as [|c r]; [destruct Hhead|]. apply mkhedruli_facts in Hhead. tauto.
  - assert (Hne : base <> []) by (destruct base; [destruct Hhead|discriminate]).
    pose proof (spaced_last _ Hsp Hne) as H. destruct (last base); [|destruct H].
    apply mkhedruli_facts in H. tauto.
Qed.

Lemma suffixed_trim (base w : jsstring) :
  streetName base -> In w streetTypeWords -> trim (base ++ 32 :: w) = base ++ 32 :: w.
Proof.
  intros [Hhead _] Hw. apply trim_ends.
  - destruct base as [|c r]; [destruct Hhead|]. apply mkhedruli_facts in Hhead. tauto.
  - pose proof (streetTypeWords_last _ Hw) as H.
    rewrite last_app, last_cons. destruct (last w); [exact H|destruct H].
Qed.

(** The two address patterns and the branch-number pattern need a Roman
    numeral. *)
Lemma nutsubidzePlatoRegex_needs : needs romanOrDigitUnit nutsubidzePlatoRegex.
Proof.
  unfold nutsubidzePlatoRegex, seq. cbn [fold_right needs].
  do 6 right. left. unfold plus. cbn [needs]. left.
  intros c H. unfold romanOrDigitUnit, romanUnit. cbn [orb] in H. rewrite H. apply orb_true_r.
Qed.

Lemma mkrKvRegex_needs : needs romanOrDigitUnit mkrKvRegex.
Proof.
  unfold mkrKvRegex, seq. cbn [fold_right needs].
  do 5 right. left. unfold plus. cbn [needs]. left.
  intros c H. unfold romanOrDigitUnit, romanUnit. cbn [orb] in H. rewrite H. apply orb_true_r.
Qed.

Lemma branchNumberRegex_needs : needs romanOrDigitUnit branchNumberRegex.
Proof.
  unfold branchNumberRegex, seq. cbn [fold_right needs].
  right. left. unfold plus. cbn [needs]. left.
  intros c H. unfold romanOrDigitUnit, romanUnit. cbn [orb] in H. rewrite H. apply orb_true_r.
Qed.

Lemma advance_without (X : N -> bool) (s : st) (c : N) (s1 : st) :
  without X (after s) -> advance s = Some (c, s1) -> without X (after s1).
Proof.
  unfold advance. destruct (after s) as [|x a] eqn:E; [discriminate|].
  intros H [= <- <-]. exact (without_tail _ _ _ H).
Qed.

Lemma exec_needs (X : N -> bool) (r : re) (s : jsstring) :
  needs X r -> without X s -> exec r s = None.
Proof.
  intros Hn Hs. unfold exec.
  apply (execFrom_nowhere (fun s => without X (after s))); [| |exact Hs].
  - intros s0 H0. apply (run_needs X); assumption.
  - intros s0 c s1. apply (advance_without X).
Qed.

Lemma replace_needs (X : N -> bool) (r : re) (f : st -> jsstring) (g : bool) (s : jsstring) :
  needs X r -> without X s -> replace r f g s = s.
Proof.
  intros Hn Hs. unfold replace.
  apply (replaceFrom_nowhere (fun s => without X (after s))); [| |exact Hs].
  - intros s0 H0. apply (run_needs X); assumption.
  - intros s0 c s1. apply (advance_without X).
Qed.

(** Without a letter of [\w] there is no word boundary. *)
Lemma replace_shes (f : st -> jsstring) (s : jsstring) :
  Forall (fun c => isWord c = false) s -> replace shesRegex f true s = s.
Proof.
  intros Hs. unfold replace.
  apply (replaceFrom_nowhere
           (fun s => Forall (fun c => isWord c = false) (before s)
                     /\ Forall (fun c => isWord c = false) (after s))).
  - intros [b a cs] [Hb Ha]. cbn [before after] in *.
    unfold matchHere, shesRegex, seq. cbn [fold_right run before after].
    replace (wordAt b) with false by (destruct Hb; [reflexivity|symmetry; assumption]).
    replace (wordAt a) with false by (destruct Ha; [reflexivity|symmetry; assumption]).
    reflexivity.
  - intros [b a cs] c s1 [Hb Ha]. unfold advance. cbn [before after caps] in *.
    destruct a as [|x a]; [discriminate|]. intros [= <- <-]. cbn [before after].
    inversion Ha; subst. split; [constructor|]; assumption.
  - cbn [before after]. split; [constructor|exact Hs].
Qed.

Lemma streetTypeSuffixRegex_run (s : st) (k : cont) :
  run streetTypeSuffixRegex s k
  = run ws s (fun s1 => run (Star true ws) s1
      (fun s2 => run (Grp 1 streetTypes) s2 (fun s3 => run Eol s3 k))).
Proof. reflexivity. Qed.

Lemma streetTypes_avoid_space : avoids 32 (Grp 1 streetTypes).
Proof. cbn. repeat split. Qed.

(** Inside the street name the suffix pattern does not match: a street-type
    word cannot reach over the space that is still ahead. *)
Lemma suffix_not_inside (b y rest : jsstring) :
  spaced y = true -> y <> [] ->
  matchHere streetTypeSuffixRegex (mkSt b (y ++ 32 :: rest) []) = None.
Proof.
  intros Hy Hne. unfold matchHere. rewrite streetTypeSuffixRegex_run.
  destruct (spaced_cases _ Hy) as [->|[(c & r & -> & Hc & Hr)|(c & r & -> & Hc & Hr)]];
    [congruence| |].
  - unfold ws. cbn [app]. rewrite run_chr_cons.
    apply mkhedruli_facts in Hc as (-> & _). reflexivity.
  - unfold ws at 1. cbn [app]. rewrite run_chr_cons. change (isSpace 32) with true. cbv iota.
    rewrite run_star_greedy_ws. cbn [after before caps].
    apply mkhedruli_facts in Hc as (-> & _).
    apply (run_avoids 32); [exact streetTypes_avoid_space| |].
    + cbn [after]. right. apply in_app_iff. right. left. reflexivity.
    + intros s' Hs'. cbn [run]. destruct (after s'); [destruct Hs'|reflexivity].
Qed.

(** After the street name the suffix pattern matches up to the end. *)
Lemma suffix_at_end (b w : jsstring) :
  In w streetTypeWords ->
  option_map after (matchHere streetTypeSuffixRegex (mkSt b (32 :: w) [])) = Some [].
Proof.
  intros H. unfold streetTypeWords in H. cbn [In] in H.
  repeat (destruct H as [<-|H]; [vm_compute; reflexivity|]). destruct H.
Qed.

(** Where the pattern does not match, [replace] copies the text. *)
Lemma replaceFrom_skip (r : re) (f : st -> jsstring) (g : bool) (rest : jsstring) (fuel : nat)
    (pre : jsstring) :
  forall b,
  (forall x y, pre = x ++ y -> y <> [] ->
     matchHere r (mkSt (rev x ++ b) (y ++ rest) []) = None) ->
  replaceFrom r f g (length pre + fuel) (mkSt b (pre ++ rest) [])
  = pre ++ replaceFrom r f g fuel (mkSt (rev pre ++ b) rest []).
Proof.
  induction pre as [|c pre IH]; intros b H; [reflexivity|].
  cbn [length Nat.add replaceFrom app].
  pose proof (H [] (c :: pre) eq_refl ltac:(discriminate)) as H0.
  cbn [rev app] in H0. rewrite H0.
  cbn [advance after before caps]. f_equal. rewrite IH.
  - cbn [rev]. rewrite <- app_assoc. reflexivity.
  - intros x y -> Hy. specialize (H (c :: x) y eq_refl Hy).
    cbn [rev] in H. rewrite <- app_assoc in H. exact H.
Qed.

Lemma replace_streetTypeSuffix (base w : jsstring) :
  spaced base = true -> In w streetTypeWords ->
  replace streetTypeSuffixRegex (fun _ => []) false (base ++ 32 :: w) = base.
Proof.
  intros Hb Hw. unfold replace.
  replace (S (length (base ++ 32 :: w))) with (length base + S (S (length w)))%nat
    by (rewrite length_app; cbn [length]; lia).
  rewrite replaceFrom_skip.
  - cbn [replaceFrom]. pose proof (suffix_at_end (rev base ++ []) w Hw) as H.
    destruct (matchHere _ _) as [s'|]; [|discriminate].
    injection H as ->. cbn [negb app]. apply app_nil_r.
  - intros x y -> Hy. apply suffix_not_inside; [exact (spaced_suffix _ _ Hb)|exact Hy].
Qed.

Lemma trailingPunctuationRegex_run (s : st) (k : cont) :
  run trailingPunctuationRegex s k
  = run (Chr (fun c => (c =? 44) || (c =? 46) || isSpace c)) s
      (fun s1 => run (Star true (Chr (fun c => (c =? 44) || (c =? 46) || isSpace c))) s1
         (fun s2 => run Eol s2 k)).
Proof. reflexivity. Qed.

(** A street name ends in a letter: no trailing punctuation to remove. *)
Lemma replace_trailingPunctuation (f : st -> jsstring) (base : jsstring) :
  spaced base = true -> replace trailingPunctuationRegex f true base = base.
Proof.
  intros Hb. unfold replace.
  apply (replaceFrom_nowhere (fun s => spaced (after s) = true)); [| |exact Hb].
  - intros [b a cs] Ha. cbn [after] in Ha. unfold matchHere. rewrite trailingPunctuationRegex_run.
    destruct (spaced_cases _ Ha) as [->|[(c & r & -> & Hc & Hr)|(c & r & -> & Hc & Hr)]].
    + reflexivity.
    + rewrite run_chr_cons. apply mkhedruli_facts in Hc as (-> & _ & _ & _ & -> & ->). reflexivity.
    + rewrite run_chr_cons. cbn [N.eqb Pos.eqb orb]. change (isSpace 32) with true. cbv iota.
      rewrite run_star_greedy. cbn [after before caps].
      apply mkhedruli_facts in Hc as (-> & _ & _ & _ & -> & ->). reflexivity.
  - intros [b a cs] c s1 Ha. unfold advance. cbn [after before caps] in *.
    destruct a as [|x a]; [discriminate|]. intros [= <- <-]. exact (spaced_tail _ _ Ha).
Qed.

(** Single spaces are replaced by themselves. *)
Lemma replaceFrom_spaces (fuel : nat) :
  forall b l, spaced l = true ->
  replaceFrom spacesRegex (fun _ => [32]) true fuel (mkSt b l []) = l.
Proof.
  induction fuel as [|fuel IH]; intros b l Hl; [reflexivity|].
  cbn [replaceFrom]. unfold matchHere, spacesRegex, plus.
  change (run (Cat ws (Star true ws)) (mkSt b l []) Some)
    with (run ws (mkSt b l []) (fun s1 => run (Star true ws) s1 Some)).
  destruct (spaced_cases _ Hl) as [->|[(c & r & -> & Hc & Hr)|(c & r & -> & Hc & Hr)]].
  - reflexivity.
  - unfold ws. rewrite run_chr_cons. apply mkhedruli_facts in Hc as (-> & _).
    cbn [advance after before caps]. rewrite IH by exact Hr. reflexivity.
  - unfold ws at 1. rewrite run_chr_cons. change (isSpace 32) with true. cbv iota.
    rewrite run_star_greedy_ws. cbn [after before caps].
    apply mkhedruli_facts in Hc as (-> & _).
    cbn [after before caps length negb app].
    rewrite (proj2 (Nat.ltb_lt _ _) (Nat.lt_succ_diag_r _)).
    rewrite IH by exact Hr. reflexivity.
Qed.

Lemma replace_spaces (base : jsstring) :
  spaced base = true -> replace spacesRegex (fun _ => [32]) true base = base.
Proof. intros H. apply replaceFrom_spaces. exact H. Qed.

(** A street name followed by a street-type word is reduced to the name. *)
Lemma normalizeStreetForSs_suffix (base w : jsstring) :
  streetName base -> In w streetTypeWords ->
  normalizeStreetForSs (base ++ 32 :: w) = base.
Proof.
  intros Hb Hw. pose proof Hb as [Hhead Hsp].
  unfold normalizeStreetForSs.
  destruct (base ++ 32 :: w) as [|c0 a0] eqn:E.
  { destruct base; discriminate. }
  rewrite <- E. clear E c0 a0.
  assert (Hplain : Forall (fun c => plainUnit c = true) (base ++ 32 :: w)).
  { apply Forall_app. split; [apply spaced_plain; exact Hsp|].
    constructor; [reflexivity|apply streetTypeWords_plain; exact Hw]. }
  assert (Hword : Forall (fun c => isWord c = false) (base ++ 32 :: w)).
  { eapply Forall_impl; [exact Hplain|]. intros c Hc. apply plainUnit_facts in Hc. tauto. }
  rewrite (suffixed_trim _ _ Hb Hw).
  rewrite (exec_needs _ _ _ nutsubidzePlatoRegex_needs (plain_without _ Hplain)).
  rewrite (exec_needs _ _ _ mkrKvRegex_needs (plain_without _ Hplain)).
  cbv zeta.
  rewrite (replace_shes _ _ Hword).
  rewrite (replace_needs _ _ _ _ _ branchNumberRegex_needs (plain_without _ Hplain)).
  rewrite (replace_streetTypeSuffix _ _ Hsp Hw).
  rewrite (replace_trailingPunctuation _ _ Hsp).
  rewrite (replace_spaces _ Hsp), (streetName_trim _ Hb).
  destruct base; [destruct Hhead|reflexivity].
Qed.

Lemma run_seq_cons (r : re) (rs : list re) (s : st) (k : cont) :
  run (seq (r :: rs)) s k = run r s (fun s' => run (seq rs) s' k).
Proof. reflexivity. Qed.

Lemma run_seq_nil (s : st) (k : cont) : run (seq []) s k = k s.
Proof. reflexivity. Qed.

Lemma run_cat (r1 r2 : re) (s : st) (k : cont) :
  run (Cat r1 r2) s k = run r1 s (fun s' => run r2 s' k).
Proof. reflexivity. Qed.

Lemma run_grp (i : nat) (r : re) (s : st) (k : cont) :
  run (Grp i r) s k
  = run r s (fun s' => k (mkSt (before s') (after s') ((i, captured s s') :: caps s'))).
Proof. reflexivity. Qed.





(** A greedy run over a class takes all the units of the class ahead. *)
Lemma run_star_greedy_all (p : N -> bool) (x rest : jsstring) (k : cont) (r : st)
    (cs : list (nat * jsstring)) :
  Forall (fun c => p c = true) x ->
  match rest with c :: _ => p c = false | [] => True end ->
  forall b, k (mkSt (rev x ++ b) rest cs) = Some r ->
  run (Star true (Chr p)) (mkSt b (x ++ rest) cs) k = Some r.
Proof.
  intros Hx Hrest. induction Hx as [|c x Hc Hx IH]; intros b Hk.
  - rewrite run_star_greedy. cbn [after before caps app rev] in *.
    destruct rest as [|c rest]; [exact Hk|]. rewrite Hrest. exact Hk.
  - rewrite run_star_greedy. cbn [after before caps app]. rewrite Hc.
    rewrite IH; [reflexivity|]. cbn [rev] in Hk. rewrite <- app_assoc in Hk. exact Hk.
Qed.








(** C5. [transformAddress] does not turn every address "{district} -
    {microdistrict} მ/რ" into "{microdistrict} მიკრორაიონი - {district}": the
    first group of its pattern is lazy and the hyphen needs no white space
    around it, so a district with a hyphen is cut at its first hyphen. The
    address "ვაკე-საბურთალო - ა მ/რ" becomes "საბურთალო - ა მიკრორაიონი -
    ვაკე" and not "ა მიკრორაიონი - ვაკე-საბურთალო". *)
Theorem transformAddress_hyphenated_district :
  transformAddress (js "ვაკე-საბურთალო" ++ js " - " ++ js "ა" ++ js " მ/რ")
  = js "საბურთალო - ა მიკრორაიონი - ვაკე"
  /\ transformAddress (js "ვაკე-საბურთალო" ++ js " - " ++ js "ა" ++ js " მ/რ")
     <> js "ა" ++ js " მიკრორაიონი - " ++ js "ვაკე-საბურთალო".
Proof. split; [vm_compute; reflexivity|vm_compute; discriminate]. Qed.

Lemma digitsValue_nonneg (ds : jsstring) : digits ds -> (0 <= digitsValue ds)%Z.
Proof.
  intros Hd. unfold digitsValue.
  assert (H : forall acc, (0 <= acc)%Z ->
            (0 <= fold_left (fun acc d => (acc * 10 + (Z.of_N d - 48))%Z) ds acc)%Z).
  { induction Hd as [|c ds Hc Hd IH]; intros acc Hacc; simpl; [exact Hacc|].
    apply IH. unfold isDigit in Hc. apply andb_prop in Hc as [Hc _].
    apply N.leb_le in Hc. lia. }
  apply H. lia.
Qed.

(** ** Assignment to a property *)

Lemma setProp_lookup {V : Type} (key k : jsstring) (value v : V) (o : gmap jsstring V) :
  setProp key value o !! k = Some v ->
  o !! k = Some v \/ (k = key /\ v = value /\ key <> js "__proto__").
Proof.
  unfold setProp. destruct (JsString.eqb key (js "__proto__")) eqn:E; [auto|].
  apply eqb_false in E. destruct (decide (k = key)) as [->|Hne].
  - rewrite lookup_insert_eq. intros [= <-]. auto.
  - rewrite lookup_insert_ne by congruence. auto.
Qed.

Lemma setProp_other {V : Type} (key k : jsstring) (value : V) (o : gmap jsstring V) :
  k <> key -> setProp key value o !! k = o !! k.
Proof.
  intros Hne. unfold setProp. destruct (JsString.eqb key _); [reflexivity|].
  apply lookup_insert_ne. congruence.
Qed.

Lemma setProp_stored {V : Type} (key : jsstring) (value : V) (o : gmap jsstring V) :
  key <> js "__proto__" -> setProp key value o !! key = Some value.
Proof.
  intros Hne. unfold setProp. apply eqb_false in Hne. rewrite Hne. apply lookup_insert_eq.
Qed.

(** ** The scraper does not throw *)

Section Totality.
Context (d : DOM) (mappings : gmap jsstring jsstring).
Context (Hvalid : Forall (fun sel => validSelector d sel = true) literalSelectors).

Lemma literal_valid (sel : jsstring) : In sel literalSelectors -> validSelector d sel = true.
Proof. intros H. exact (proj1 (List.Forall_forall _ _) Hvalid sel H). Qed.

Lemma checked_literal {A : Type} (sel : jsstring) (a : A) :
  In sel literalSelectors -> checked d sel a = Ok a.
Proof. intros H. unfold checked. rewrite (literal_valid sel H). reflexivity. Qed.

(** Membership in the list of literals, by position. *)
Ltac literal := unfold literalSelectors; cbn [In]; tauto.

(** One step through a scraper function: a query on a literal selector
    returns, a [bind] on a returned value continues, a test is split. *)
Ltac scrape_step :=
  match goal with
  | |- context [checked d ?s ?a] => rewrite (checked_literal s a) by literal
  | |- context [querySelector d ?s] =>
      unfold querySelector; rewrite (checked_literal s) by literal
  | |- context [querySelectorAll d ?s] =>
      unfold querySelectorAll; rewrite (checked_literal s) by literal
  | |- context [querySelectorIn d ?e ?s] =>
      unfold querySelectorIn; rewrite (checked_literal s) by literal
  | |- context [querySelectorAllIn d ?e ?s] =>
      unfold querySelectorAllIn; rewrite (checked_literal s) by literal
  | |- context [closest d ?e ?s] =>
      unfold closest; rewrite (checked_literal s) by literal
  | |- context [bind (Ok _) _] => cbn [bind]
  | |- context [orElseQuery _ (Some _) _] => cbn [orElseQuery]
  | |- context [orElseQuery _ None _] => cbn [orElseQuery]
  end.

Lemma forEachM_invariant {A S : Type} (P : S -> Prop) (f : S -> A -> result S)
    (l : list A) (acc : S) :
  (forall acc x, P acc -> exists acc', f acc x = Ok acc' /\ P acc') ->
  P acc -> exists r, forEachM f l acc = Ok r /\ P r.
Proof.
  intros Hf. revert acc. induction l as [|x l IH]; intros acc Hacc; simpl.
  - eauto.
  - destruct (Hf acc x Hacc) as (acc' & -> & Hacc'). cbn [bind]. apply IH. exact Hacc'.
Qed.

Lemma collectGalleryImages_returns : exists l, collectGalleryImages d = Ok l.
Proof.
  unfold collectGalleryImages. repeat scrape_step.
  destruct (docQuerySelector d GALLERY_CONTAINER_SELECTOR); [|eauto].
  repeat scrape_step. eauto.
Qed.

Lemma sectionItems_returns (title : jsstring) : exists l, sectionItems d title = Ok l.
Proof.
  unfold sectionItems. repeat scrape_step.
  destruct (List.filter _ _) as [|heading rest]; [eauto|].
  repeat scrape_step. destruct (elClosest d heading _) as [c|]; [|eauto].
  repeat scrape_step. destruct (elQuerySelector d c _) as [g|]; [|eauto].
  repeat scrape_step. eauto.
Qed.

Lemma nonEmpty_true (s : jsstring) : nonEmpty s = true -> s <> [].
Proof. destruct s; [discriminate|discriminate]. Qed.

Lemma setProp_Forall {V : Type} (P : jsstring -> V -> Prop) (key : jsstring) (value : V)
    (o : gmap jsstring V) :
  P key value -> map_Forall P o -> map_Forall P (setProp key value o).
Proof.
  intros Hv Ho. unfold setProp. destruct (JsString.eqb key _); [exact Ho|].
  apply map_Forall_insert_2; assumption.
Qed.

Lemma additionalParameterItem_returns (acc : gmap jsstring jsstring) (item : Element d) :
  noEmptyValue acc ->
  exists acc', additionalParameterItem d acc item = Ok acc' /\ noEmptyValue acc'.
Proof.
  intros Hacc. unfold additionalParameterItem. repeat scrape_step.
  destruct (elQuerySelector d item headerSpanSelector) as [he|]; [|eauto].
  destruct (negb (nonEmpty (trimmedText d he))); [eauto|].
  repeat scrape_step.
  assert (Hfinal : forall ve : option (Element d), exists acc',
             match ve with
             | Some ve =>
                 if nonEmpty (trimmedText d ve)
                 then Ok (setProp (trimmedText d he) (trimmedText d ve) acc) else Ok acc
             | None => Ok acc
             end = Ok acc' /\ noEmptyValue acc').
  { intros [ve|]; [|eauto]. destruct (nonEmpty (trimmedText d ve)) eqn:E; [|eauto].
    eexists. split; [reflexivity|]. apply setProp_Forall; [|exact Hacc].
    apply nonEmpty_true. exact E. }
  destruct (elQuerySelector d item parameterDesktopSelector) as [e1|];
    repeat scrape_step; [exact (Hfinal (Some e1))|].
  destruct (elQuerySelector d item parameterMobileSelector) as [e2|];
    repeat scrape_step; [exact (Hfinal (Some e2))|].
  destruct (elQuerySelector d item flexColumnSelector) as [fc|];
    repeat scrape_step; [exact (Hfinal _)|exact (Hfinal None)].
Qed.

Lemma collectAdditionalParameters_returns :
  exists m, collectAdditionalParameters d = Ok m /\ noEmptyValue m.
Proof.
  unfold collectAdditionalParameters.
  destruct (sectionItems_returns (js "დამატებითი პარამეტრები")) as [items ->]. cbn [bind].
  apply forEachM_invariant; [apply additionalParameterItem_returns|apply map_Forall_empty].
Qed.

Lemma furnitureItem_returns (acc : list jsstring) (item : Element d) :
  Forall (fun v => v <> []) acc ->
  exists acc', furnitureItem d acc item = Ok acc' /\ Forall (fun v => v <> []) acc'.
Proof.
  intros Hacc. unfold furnitureItem. repeat scrape_step.
  destruct (elQuerySelector d item headerSpanSelector) as [ve|]; [|eauto].
  destruct (nonEmpty (trimmedText d ve)) eqn:E; [|eauto].
  eexists. split; [reflexivity|]. apply Forall_app. split; [exact Hacc|].
  constructor; [apply nonEmpty_true; exact E|constructor].
Qed.

Lemma collectFurnitureItems_returns :
  exists l, collectFurnitureItems d = Ok l /\ Forall (fun v => v <> []) l.
Proof.
  unfold collectFurnitureItems.
  destruct (sectionItems_returns (js "ავეჯი")) as [items ->]. cbn [bind].
  apply forEachM_invariant; [apply furnitureItem_returns|constructor].
Qed.

Lemma numericFieldValue_present (value : jsstring) :
  value <> [] -> presentValue (numericFieldValue value).
Proof.
  intros Hne. unfold numericFieldValue.
  match goal with |- context [isNaN ?x] => destruct (isNaN x) eqn:E; cbn [negb] end.
  - destruct value; [congruence|exact I].
  - exact E.
Qed.

Lemma findDetailsContainer_returns (selectors : list jsstring) :
  (forall sel, In sel selectors -> In sel literalSelectors) ->
  exists c, findDetailsContainer d selectors = Ok c.
Proof.
  induction selectors as [|sel rest IH]; intros Hin; simpl; [eauto|].
  unfold querySelector. rewrite checked_literal by (apply Hin; left; reflexivity). cbn [bind].
  assert (Hrest : exists c, findDetailsContainer d rest = Ok c).
  { apply IH. intros s Hs. apply Hin. right. exact Hs. }
  destruct (docQuerySelector d sel) as [c|]; [|exact Hrest].
  repeat scrape_step. destruct (0 <? length _)%nat; [eauto|exact Hrest].
Qed.

Lemma propertyDetailItem_returns (acc : gmap jsstring jsval) (item : Element d) :
  allPresent acc ->
  exists acc', propertyDetailItem d acc item = Ok acc' /\ allPresent acc'.
Proof.
  intros Hacc. unfold propertyDetailItem. repeat scrape_step.
  destruct (elQuerySelector d item labelSpanSelector) as [le|]; [|eauto].
  destruct (negb (nonEmpty (trimmedText d le))); [eauto|].
  repeat scrape_step.
  assert (Hfinal : forall ve : option (Element d), exists acc',
             match ve with
             | Some ve =>
                 if nonEmpty (trimmedText d ve)
                 then if existsb (JsString.eqb (trimmedText d le)) numericFields
                      then Ok (setProp (trimmedText d le)
                                 (numericFieldValue (trimmedText d ve)) acc)
                      else Ok (setProp (trimmedText d le) (VStr (trimmedText d ve)) acc)
                 else Ok acc
             | None => Ok acc
             end = Ok acc' /\ allPresent acc').
  { intros [ve|]; [|eauto]. destruct (nonEmpty (trimmedText d ve)) eqn:E; [|eauto].
    apply nonEmpty_true in E.
    destruct (existsb _ numericFields); eexists; (split; [reflexivity|]);
      (apply setProp_Forall; [|exact Hacc]).
    - apply numericFieldValue_present. exact E.
    - simpl. destruct (trimmedText d ve); [congruence|exact I]. }
  destruct (elQuerySelector d item valueDesktopSelector) as [e1|];
    repeat scrape_step; [exact (Hfinal (Some e1))|].
  destruct (elQuerySelector d item valueMobileSelector) as [e2|];
    repeat scrape_step; [exact (Hfinal (Some e2))|exact (Hfinal _)].
Qed.

Lemma collectPropertyDetails_returns :
  exists m, collectPropertyDetails d = Ok m /\ allPresent m.
Proof.
  unfold collectPropertyDetails.
  destruct (findDetailsContainer_returns detailsContainerSelectors) as [c ->].
  { intros sel [<-|[<-|[]]]; literal. }
  cbn [bind]. destruct c as [c|].
  - repeat scrape_step.
    apply forEachM_invariant; [apply propertyDetailItem_returns|apply map_Forall_empty].
  - eexists. split; [reflexivity|apply map_Forall_empty].
Qed.

Lemma extractFromContainer_returns (container : option (Element d)) (headingText : option jsstring) :
  exists t, extractFromContainer d container headingText = Ok t.
Proof.
  unfold extractFromContainer. destruct container as [c|]; [|eauto].
  repeat scrape_step. destruct (elQuerySelector d c textSmSelector) as [tb|].
  - repeat scrape_step. destruct (nonEmpty _); [eauto|].
    repeat scrape_step. destruct (List.filter _ _); eauto.
  - repeat scrape_step. cbn [nonEmpty]. repeat scrape_step. destruct (List.filter _ _); eauto.
Qed.

Lemma fromDirectContainers_returns (containers : list (Element d)) :
  exists t, fromDirectContainers d containers = Ok t.
Proof.
  induction containers as [|container rest IH]; cbn [fromDirectContainers]; [eauto|].
  repeat scrape_step.
  set (headingEl := elQuerySelector d container firstHeadingSelector).
  assert (Hafter : forall l : list jsstring, exists t,
             match l with
             | _ :: _ => Ok (Some (join [32] l))
             | [] =>
                 extracted <- extractFromContainer d (Some container)
                               (trimmedText d <$> headingEl) ;;
                 match extracted with
                 | Some ((_ :: _) as e) =>
                     if negb (JsString.eqb e shortDescriptionTitle) then Ok (Some e)
                     else fromDirectContainers d rest
                 | _ => fromDirectContainers d rest
                 end
             end = Ok t).
  { intros [|x l]; [|eauto].
    destruct (extractFromContainer_returns (Some container) (trimmedText d <$> headingEl))
      as [e ->]. cbn [bind].
    destruct e as [[|c e]|]; try exact IH. destruct (negb _); [eauto|exact IH]. }
  destruct (trimmedText d <$> headingEl) as [[|c h]|]; cbn [bind]; try exact (Hafter []).
  destruct (JsString.eqb _ _); cbn [bind]; [|exact (Hafter [])].
  repeat scrape_step.
  match goal with |- context [List.filter ?p ?l] => exact (Hafter (List.filter p l)) end.
Qed.

Lemma fromHeading_returns : exists t, fromHeading d = Ok t.
Proof.
  unfold fromHeading. repeat scrape_step.
  destruct (List.find _ _) as [heading|]; [|eauto].
  repeat scrape_step.
  assert (Hpull : forall container, exists t,
     (pulled <- extractFromContainer d container (Some (trimmedText d heading)) ;;
      match pulled with
      | Some ((_ :: _) as t) => Ok (Some t)
      | _ => Ok (fromSiblings d 3 (nextElementSibling d heading))
      end) = Ok t).
  { intros container.
    destruct (extractFromContainer_returns container (Some (trimmedText d heading))) as [p ->].
    cbn [bind]. destruct p as [[|c p]|]; eauto. }
  destruct (elClosest d heading descriptionBlockSelector) as [c1|]; repeat scrape_step;
    [apply Hpull|].
  destruct (elClosest d heading enclosingSelector) as [c2|]; apply Hpull.
Qed.

Lemma collectShortDescription_returns :
  exists t, collectShortDescription d = Ok t.
Proof.
  unfold collectShortDescription. repeat scrape_step.
  match goal with |- context [match ?x with Some text => Ok (Some text) | None => _ end] =>
    destruct x as [text|]; [eauto|] end.
  repeat scrape_step.
  destruct (fromDirectContainers_returns (docQuerySelectorAll d directContainerSelector))
    as [found ->]. cbn [bind].
  destruct found as [text|]; [eauto|].
  destruct (getFirstTextMatch d FALLBACK_SHORT_DESCRIPTION_SELECTORS) as [[|c direct]|];
    try apply fromHeading_returns.
  destruct (negb _); [eauto|apply fromHeading_returns].
Qed.

Lemma toNumber_not_nan (s : jsstring) (x : jsnum) : toNumber s = Some x -> isNaN x = false.
Proof.
  unfold toNumber. destruct (isNaN (parseFloat s)) eqn:E; [discriminate|].
  intros [= <-]. exact E.
Qed.

Lemma parsePriceText_not_nan (text : jsstring) (x : jsnum) :
  parsePriceText text = Some x -> isNaN x = false.
Proof.
  unfold parsePriceText, parseSeparated. destruct text; [discriminate|].
  destruct (priceDigits _); [discriminate|].
  repeat match goal with
         | |- context [if ?b then _ else _] => destruct b
         end; apply toNumber_not_nan.
Qed.

Lemma transformAddress_not_empty (address : jsstring) :
  address <> [] -> transformAddress address <> [].
Proof.
  intros Hne. unfold transformAddress. destruct address as [|c a]; [congruence|].
  destruct (exec addressPattern (c :: a)) as [[s0 mt]|]; [|discriminate].
  intros E. apply app_eq_nil in E as [_ E]. discriminate.
Qed.

(** The lookup of the address does not throw: [address] is an own property
    of [FALLBACK_SELECTORS]. *)
Lemma scrapeMappedAttribute_address :
  exists address, scrapeMappedAttribute d mappings (js "address") = Ok address.
Proof.
  unfold scrapeMappedAttribute. cbv zeta.
  match goal with
  | |- exists a, match ?m with Some _ => _ | None => _ end = _ => destruct m
  end; eexists; reflexivity.
Qed.

Lemma withAddress_present (address : option jsstring) (pd : gmap jsstring jsval) :
  allPresent pd -> allPresent (withAddress address pd).
Proof.
  intros H. unfold withAddress.
  destruct address as [[|c a]|]; try exact H.
  apply map_Forall_insert_2; [|exact H].
  pose proof (transformAddress_not_empty (c :: a) ltac:(discriminate)) as Hne.
  destruct (transformAddress (c :: a)); [congruence|exact I].
Qed.

Lemma withPrice_present (pd : gmap jsstring jsval) :
  allPresent pd -> allPresent (withPrice d pd).
Proof.
  intros H. unfold withPrice.
  destruct (getFirstTextMatch d priceSelectors) as [[|c a]|]; try exact H.
  destruct (parsePriceText (c :: a)) as [x|] eqn:E; [|exact H].
  apply map_Forall_insert_2; [|exact H]. exact (parsePriceText_not_nan _ _ E).
Qed.

Lemma withShortDescription_present (sd : option jsstring) (pd : gmap jsstring jsval) :
  allPresent pd -> allPresent (withShortDescription sd pd).
Proof.
  intros H. unfold withShortDescription. destruct sd as [[|c a]|]; try exact H.
  apply map_Forall_insert_2; [exact I|]. apply map_Forall_insert_2; [exact I|exact H].
Qed.

(** On every page whose document has a [body], and whatever the selector
    mapping, [scrapeListingFromDom] does not throw: it returns a record with
    all seven fields, stamped with the time and the URL, whose deal type is
    the phrase found in the page text or [null], and whose mappings hold only
    present values (a field that does not resolve has no key); a selector from
    the mapping that the engine rejects is skipped. On a page where nothing
    resolves the record has empty mappings and lists. The selectors written in
    the program are taken to be accepted by the engine. *)
Theorem scrape_returns_complete_record (b : Element d) :
  body d = Some b ->
  (exists r, scrapeListingFromDom d mappings = Ok r
     /\ scrapedAt r = isoNow d /\ url r = locationHref d
     /\ dealType r = firstDealTypeIn (pageTextOf d b)
     /\ allPresent (propertyDetails r)
     /\ noEmptyValue (additionalParameters r)
     /\ Forall (fun v => v <> []) (furniture r))
  /\ scrapeListingFromDom (textPage []) ∅
     = Ok {| scrapedAt := isoNow (textPage []); url := locationHref (textPage []);
             propertyDetails := ∅; images := []; furniture := [];
             additionalParameters := ∅; dealType := None |}.
Proof.
  intros Hb. split; [|vm_compute; reflexivity].
  unfold scrapeListingFromDom.
  destruct collectGalleryImages_returns as [gallery ->]. cbn [bind].
  destruct collectAdditionalParameters_returns as (params & -> & Hparams). cbn [bind].
  destruct collectFurnitureItems_returns as (items & -> & Hitems). cbn [bind].
  destruct collectPropertyDetails_returns as (pd & -> & Hpd). cbn [bind].
  unfold detectDealType. rewrite Hb. cbn [bind].
  destruct collectShortDescription_returns as [sd ->]. cbn [bind].
  destruct scrapeMappedAttribute_address as [address ->]. cbn [bind].
  eexists. split; [reflexivity|]. cbn.
  repeat split; try assumption.
  apply withShortDescription_present, withPrice_present, withAddress_present. exact Hpd.
Qed.









End Totality.



Lemma scrape_returns_complete_record_witness :
  exists r, scrapeListingFromDom (textPage (js "იყიდება ბინა")) ∅ = Ok r
            /\ dealType r = Some (js "იყიდება").
Proof.
  destruct (proj1 (scrape_returns_complete_record (textPage (js "იყიდება ბინა")) ∅
                     (proj2 (List.Forall_forall _ _) (fun _ _ => eq_refl)) tt eq_refl))
    as (r & Hr & _ & _ & Hdeal & _).
  exists r. split; [exact Hr|exact Hdeal].
Defined.

(** C2. The scraper is meant not to throw on any page, whatever fails to
    resolve. On a document without a [body], with every selector accepted and
    no mapping, the deal-type scan reads a property of [null] and
    [scrapeListingFromDom] throws a TypeError. *)
Theorem scrape_throws_without_body :
  Forall (fun sel => validSelector bodylessPage sel = true) literalSelectors
  /\ scrapeListingFromDom bodylessPage ∅ = Throw TypeError.
Proof.
  split; [apply List.Forall_forall; intros; reflexivity|vm_compute; reflexivity].
Qed.

(** ** Option searches *)

Lemma includes_refl (s : jsstring) : includes s s = true.
Proof. apply includes_iff. exists [], []. rewrite app_nil_r. reflexivity. Qed.

(** The rooms search returns an option of the list that equals the target,
    contains it or is contained in it, and returns none only when no option
    does. *)
Theorem findMatchingOption_found_iff {E : Type} (text : E -> jsstring)
    (optionDivs : list E) (target : jsstring) :
  (forall o, findMatchingOption text optionDivs target = Some o ->
     In o optionDivs
     /\ (includes (trim (text o)) target = true \/ includes target (trim (text o)) = true))
  /\ (findMatchingOption text optionDivs target = None <->
      forall o, In o optionDivs ->
        includes (trim (text o)) target = false /\ includes target (trim (text o)) = false).
Proof.
  unfold findMatchingOption.
  destruct (List.find (fun div => JsString.eqb (trim (text div)) target) optionDivs)
    as [o1|] eqn:H1.
  - apply find_some in H1 as [Hin Heq]. apply eqb_true in Heq. split.
    + intros o [= <-]. split; [exact Hin|]. left. rewrite Heq. apply includes_refl.
    + split; [discriminate|]. intros H. destruct (H o1 Hin) as [Hc _].
      rewrite Heq, includes_refl in Hc. discriminate.
  - split.
    + intros o H2. apply find_some in H2 as [Hin H]. split; [exact Hin|].
      apply orb_true_iff in H. exact H.
    + split.
      * intros H o Hin. pose proof (find_none _ _ H o Hin) as Hn. cbv beta zeta in Hn.
        apply orb_false_iff in Hn. exact Hn.
      * intros H.
        match goal with
        | |- List.find ?f _ = None => destruct (List.find f optionDivs) as [o2|] eqn:H2
        end; [|reflexivity].
        apply find_some in H2 as [Hin Hc]. destruct (H o2 Hin) as [Ha Hb].
        cbv beta zeta in Hc. rewrite Ha, Hb in Hc. discriminate.
Qed.

Lemma findMatchingOption_found_iff_witness :
  exists o, findMatchingOption snd microdistrictOptions (js "მიკრორაიონი") = Some o
            /\ In o microdistrictOptions.
Proof.
  exists (0%nat, js "III ა მიკრორაიონი"). split; [reflexivity|].
  apply (proj1 (findMatchingOption_found_iff snd microdistrictOptions (js "მიკრორაიონი"))
           (0%nat, js "III ა მიკრორაიონი")).
  reflexivity.
Defined.

Lemma shortest_spec {E : Type} (text : E -> jsstring) (l : list E) :
  forall best,
  In (shortest text best l) (best :: l)
  /\ forall o, In o (best :: l) ->
       (length (trim (text (shortest text best l))) <= length (trim (text o)))%nat.
Proof.
  induction l as [|x l IH]; intros best; cbn [shortest].
  - split; [left; reflexivity|]. intros o [<-|[]]. lia.
  - destruct (_ <? _)%nat eqn:Hlt.
    + apply Nat.ltb_lt in Hlt. destruct (IH x) as [Hin Hmin]. split.
      * right. exact Hin.
      * intros o [<-|Ho]; [|apply Hmin; exact Ho].
        specialize (Hmin x (or_introl eq_refl)). lia.
    + apply Nat.ltb_ge in Hlt. destruct (IH best) as [Hin Hmin]. split.
      * destruct Hin as [Hin|Hin]; [left; exact Hin|right; right; exact Hin].
      * intros o [<-|[<-|Ho]].
        -- apply Hmin. left. reflexivity.
        -- specialize (Hmin best (or_introl eq_refl)). lia.
        -- apply Hmin. right. exact Ho.
Qed.

Lemma startsWith_includes (s t : jsstring) : startsWith s t = true -> includes s t = true.
Proof. intros H. destruct s; simpl; rewrite H; reflexivity. Qed.

(** The street search returns an option of the list whose text contains the
    value typed, and none only when no option contains it; when no option
    starts with the value, the one returned is a shortest of those that
    contain it. *)
Theorem findStreetOption_found_iff {E : Type} (text : E -> jsstring)
    (streetOptions : list E) (streetValue : jsstring) :
  (forall o, findStreetOption text streetOptions streetValue = Some o ->
     In o streetOptions /\ includes (trim (text o)) streetValue = true
     /\ ((forall o', In o' streetOptions -> startsWith (trim (text o')) streetValue = false) ->
         forall o', In o' streetOptions -> includes (trim (text o')) streetValue = true ->
                    (length (trim (text o)) <= length (trim (text o')))%nat))
  /\ (findStreetOption text streetOptions streetValue = None <->
      forall o, In o streetOptions -> includes (trim (text o)) streetValue = false).
Proof.
  unfold findStreetOption.
  destruct (List.find (fun opt => JsString.eqb (trim (text opt)) streetValue) streetOptions)
    as [o1|] eqn:H1.
  { apply find_some in H1 as [Hin Heq]. apply eqb_true in Heq. split.
    - intros o [= <-]. split; [exact Hin|]. split; [rewrite Heq; apply includes_refl|].
      intros Hno. specialize (Hno o1 Hin). rewrite Heq in Hno.
      rewrite <- (app_nil_r streetValue) in Hno at 1. rewrite startsWith_app in Hno. discriminate.
    - split; [discriminate|]. intros H. specialize (H o1 Hin).
      rewrite Heq, includes_refl in H. discriminate. }
  destruct (List.find (fun opt => startsWith (trim (text opt)) streetValue) streetOptions)
    as [o2|] eqn:H2.
  { apply find_some in H2 as [Hin Hs]. split.
    - intros o [= <-]. split; [exact Hin|]. split; [apply startsWith_includes; exact Hs|].
      intros Hno. rewrite (Hno o2 Hin) in Hs. discriminate.
    - split; [discriminate|]. intros H. specialize (H o2 Hin).
      rewrite (startsWith_includes _ _ Hs) in H. discriminate. }
  destruct (List.filter (fun opt => includes (trim (text opt)) streetValue) streetOptions)
    as [|o3 r] eqn:H3.
  { split; [discriminate|]. split; [|reflexivity]. intros _ o Hin.
    destruct (includes (trim (text o)) streetValue) eqn:Hc; [|reflexivity].
    assert (Hf : In o (List.filter (fun opt => includes (trim (text opt)) streetValue)
                         streetOptions)).
    { apply List.filter_In. split; assumption. }
    rewrite H3 in Hf. destruct Hf. }
  split.
  - intros o [= <-]. destruct (shortest_spec text r o3) as [Hin Hmin].
    assert (Hsub : forall x, In x (o3 :: r) ->
                     In x streetOptions /\ includes (trim (text x)) streetValue = true).
    { intros x Hx. rewrite <- H3 in Hx. apply List.filter_In in Hx. exact Hx. }
    destruct (Hsub _ Hin) as [Hin' Hc]. split; [exact Hin'|]. split; [exact Hc|].
    intros _ o' Ho' Hc'. apply Hmin. rewrite <- H3. apply List.filter_In. split; assumption.
  - split; [discriminate|]. intros H.
    assert (Hf : In o3 (List.filter (fun opt => includes (trim (text opt)) streetValue)
                          streetOptions)) by (rewrite H3; left; reflexivity).
    apply List.filter_In in Hf as [Hin Hc]. rewrite (H o3 Hin) in Hc. discriminate.
Qed.

Lemma findStreetOption_found_iff_witness :
  In (1%nat, js "ა მიკრორაიონი") microdistrictOptions
  /\ includes (trim (snd (1%nat, js "ა მიკრორაიონი"))) (js "მიკრორაიონი") = true.
Proof.
  destruct (proj1 (findStreetOption_found_iff snd microdistrictOptions (js "მიკრორაიონი"))
              (1%nat, js "ა მიკრორაიონი") eq_refl) as (H1 & H2 & _).
  split; assumption.
Defined.

(** ** Selector lists *)

Section Selectors.
Context (d : DOM).

Lemma getFirstTextMatch_cons (selector : jsstring) (rest : list jsstring) :
  getFirstTextMatch d (selector :: rest)
  = match getFirstTextMatch d [selector] with
    | Some t => Some t
    | None => getFirstTextMatch d rest
    end.
Proof.
  cbn [getFirstTextMatch].
  destruct (negb (nonEmpty selector)); [reflexivity|].
  destruct (normalizeSelector selector) as [[|c n]|]; try reflexivity.
  destruct (querySelector d (c :: n)) as [[e|]|]; try reflexivity.
  destruct (nonEmpty (textContent d e)); reflexivity.
Qed.

Lemma getFirstTextMatch_app (l1 l2 : list jsstring) :
  getFirstTextMatch d (l1 ++ l2)
  = match getFirstTextMatch d l1 with
    | Some t => Some t
    | None => getFirstTextMatch d l2
    end.
Proof.
  induction l1 as [|s l1 IH]; [reflexivity|].
  change ((s :: l1) ++ l2) with (s :: (l1 ++ l2)).
  rewrite getFirstTextMatch_cons, (getFirstTextMatch_cons s l1), IH.
  destruct (getFirstTextMatch d [s]); reflexivity.
Qed.

(** A selector that gives nothing: empty, skipped by [normalizeSelector],
    rejected by the engine, without an element, or with an element whose
    text is empty. *)
Lemma getFirstTextMatch_single (selector : jsstring) :
  getFirstTextMatch d [selector]
  = match normalizeSelector selector with
    | Some ((_ :: _) as n) =>
        if validSelector d n then
          match docQuerySelector d n with
          | Some e => if nonEmpty (textContent d e) then Some (trim (textContent d e)) else None
          | None => None
          end
        else None
    | _ => None
    end.
Proof.
  cbn [getFirstTextMatch]. destruct selector as [|c s]; [reflexivity|]. cbn [nonEmpty negb].
  destruct (normalizeSelector (c :: s)) as [[|c' n]|]; try reflexivity.
  unfold querySelector, checked. destruct (validSelector d (c' :: n)); [|reflexivity].
  destruct (docQuerySelector d (c' :: n)) as [e|]; [|reflexivity].
  destruct (nonEmpty (textContent d e)); reflexivity.
Qed.

Lemma getFirstTextMatch_skip (pre rest : list jsstring) :
  Forall (fun s => getFirstTextMatch d [s] = None) pre ->
  getFirstTextMatch d (pre ++ rest) = getFirstTextMatch d rest.
Proof.
  intros Hpre. induction Hpre as [|s pre Hs Hpre IH]; [reflexivity|].
  change ((s :: pre) ++ rest) with (s :: (pre ++ rest)).
  rewrite getFirstTextMatch_cons, Hs. exact IH.
Qed.

(** What [getFirstTextMatch] returns is the trimmed text of an element that
    one of the selectors finds. *)
Lemma getFirstTextMatch_found (selectors : list jsstring) (t : jsstring) :
  getFirstTextMatch d selectors = Some t ->
  exists selector n e,
    In selector selectors /\ normalizeSelector selector = Some n
    /\ validSelector d n = true /\ docQuerySelector d n = Some e
    /\ textContent d e <> [] /\ t = trim (textContent d e).
Proof.
  induction selectors as [|s l IH]; [discriminate|].
  rewrite getFirstTextMatch_cons. destruct (getFirstTextMatch d [s]) as [t'|] eqn:Hs.
  - intros [= ->]. rewrite getFirstTextMatch_single in Hs.
    destruct (normalizeSelector s) as [[|c n]|] eqn:Hn; try discriminate.
    destruct (validSelector d (c :: n)) eqn:Hv; [|discriminate].
    destruct (docQuerySelector d (c :: n)) as [e|] eqn:He; [|discriminate].
    destruct (textContent d e) as [|x r] eqn:Ht; [discriminate|].
    injection Hs as <-. exists s, (c :: n), e. rewrite Ht.
    repeat split; try assumption; try (left; reflexivity). discriminate.
  - intros H. destruct (IH H) as (sel & n & e & Hin & Hrest).
    exists sel, n, e. split; [right; exact Hin|exact Hrest].
Qed.

(** [getFirstTextMatch] tries the selectors in order and gives the trimmed
    text of the first element found with a text: the selectors before it
    that give nothing are passed over, one the engine rejects like one that
    finds no element, and the selectors after it are not looked at. What it
    gives is always the trimmed text of an element one of the selectors
    finds, and it gives nothing when no selector gives anything. *)
Theorem getFirstTextMatch_first_hit :
  (forall pre selector rest n e,
     Forall (fun s => getFirstTextMatch d [s] = None) pre ->
     normalizeSelector selector = Some n -> n <> [] ->
     validSelector d n = true -> docQuerySelector d n = Some e -> textContent d e <> [] ->
     getFirstTextMatch d (pre ++ selector :: rest) = Some (trim (textContent d e)))
  /\ (forall selector n,
        normalizeSelector selector = Some n -> validSelector d n = false ->
        getFirstTextMatch d [selector] = None)
  /\ (forall selectors t,
        getFirstTextMatch d selectors = Some t ->
        exists selector n e,
          In selector selectors /\ normalizeSelector selector = Some n
          /\ validSelector d n = true /\ docQuerySelector d n = Some e
          /\ textContent d e <> [] /\ t = trim (textContent d e))
  /\ (forall selectors,
        Forall (fun s => getFirstTextMatch d [s] = None) selectors ->
        getFirstTextMatch d selectors = None).
Proof.
  split; [|split; [|split]].
  - intros pre selector rest n e Hpre Hn Hne Hv He Ht.
    rewrite (getFirstTextMatch_skip pre _ Hpre), getFirstTextMatch_cons,
      getFirstTextMatch_single, Hn.
    destruct n as [|c n]; [congruence|]. rewrite Hv, He.
    destruct (textContent d e); [congruence|reflexivity].
  - intros selector n Hn Hv. rewrite getFirstTextMatch_single, Hn.
    destruct n; [reflexivity|]. rewrite Hv. reflexivity.
  - exact getFirstTextMatch_found.
  - intros selectors H. rewrite <- (app_nil_r selectors).
    rewrite (getFirstTextMatch_skip selectors [] H). reflexivity.
Qed.

(** What the lookup of a name gives that only [Object.prototype] has. *)
Lemma inheritedFallback_cases (attributeName : jsstring) :
  match inheritedProperty attributeName with
  | Some selectors => firstTextMatchOfInherited selectors
  | None => Ok None
  end
  = if bool_decide (attributeName ∈ [ js "toString"; js "valueOf"; js "toLocaleString" ])
    then Ok None
    else if bool_decide (attributeName ∈
              [ js "constructor"; js "__proto__"; js "hasOwnProperty";
                js "isPrototypeOf"; js "propertyIsEnumerable";
                js "__defineGetter__"; js "__defineSetter__";
                js "__lookupGetter__"; js "__lookupSetter__" ])
    then Throw TypeError
    else Ok None.
Proof.
  unfold inheritedProperty, objectPrototype. cbn [List.find fst snd].
  repeat match goal with
  | |- context [if JsString.eqb ?k attributeName then _ else _] =>
      let E := fresh "E" in
      destruct (JsString.eqb k attributeName) eqn:E;
      [apply eqb_true in E; subst attributeName; vm_compute; reflexivity|
       apply eqb_false in E]
  end.
  cbn [fmap option_fmap option_map].
  rewrite !bool_decide_eq_false_2; [reflexivity| |].
  - intros H. repeat (apply elem_of_cons in H as [H|H]; [congruence|]).
    apply elem_of_nil in H. exact H.
  - intros H. repeat (apply elem_of_cons in H as [H|H]; [congruence|]).
    apply elem_of_nil in H. exact H.
Qed.

Context (mappings : gmap jsstring jsstring).

(** [scrapeMappedAttribute] gives the text found by the selector the mapping
    file has for the attribute, when that text is not empty, whatever the
    selectors written in the scraper would find. What it gives is always the
    trimmed text of an element found by the mapped selector or by one of
    the attribute's own selectors. A name that is neither in the mapping nor
    among the built-in attributes gives nothing, unless [Object.prototype]
    has it: then the lookup in [FALLBACK_SELECTORS] finds a method or the
    prototype, and save for the methods of length 0 ([toString], [valueOf],
    [toLocaleString]) the call throws a TypeError. *)
Theorem scrapeMappedAttribute_mapping_first (attributeName : jsstring) :
  (forall sel v,
     mappings !! attributeName = Some sel -> getFirstTextMatch d [sel] = Some v -> v <> [] ->
     scrapeMappedAttribute d mappings attributeName = Ok (Some v))
  /\ (forall t,
        scrapeMappedAttribute d mappings attributeName = Ok (Some t) ->
        exists selector n e,
          (mappings !! attributeName = Some selector
           \/ exists l, fallbackSelectors attributeName = Some l /\ In selector l)
          /\ normalizeSelector selector = Some n /\ validSelector d n = true
          /\ docQuerySelector d n = Some e /\ textContent d e <> []
          /\ t = trim (textContent d e))
  /\ (mappings !! attributeName = None -> fallbackSelectors attributeName = None ->
      scrapeMappedAttribute d mappings attributeName
      = if bool_decide (attributeName ∈ [ js "toString"; js "valueOf"; js "toLocaleString" ])
        then Ok None
        else if bool_decide (attributeName ∈
                  [ js "constructor"; js "__proto__"; js "hasOwnProperty";
                    js "isPrototypeOf"; js "propertyIsEnumerable";
                    js "__defineGetter__"; js "__defineSetter__";
                    js "__lookupGetter__"; js "__lookupSetter__" ])
        then Throw TypeError
        else Ok None).
Proof.
  unfold scrapeMappedAttribute. split; [|split].
  - intros sel v Hm Hv Hne. rewrite Hm.
    assert (Hsel : nonEmpty sel = true).
    { destruct sel; [discriminate|reflexivity]. }
    rewrite Hsel, Hv. destruct v; [congruence|reflexivity].
  - intros t.
    assert (Hfb : match fallbackSelectors attributeName with
                  | Some selectors => Ok (getFirstTextMatch d selectors)
                  | None =>
                      match inheritedProperty attributeName with
                      | Some selectors => firstTextMatchOfInherited selectors
                      | None => Ok None
                      end
                  end = Ok (Some t) ->
                  exists selector n e,
                    (mappings !! attributeName = Some selector
                     \/ exists l, fallbackSelectors attributeName = Some l /\ In selector l)
                    /\ normalizeSelector selector = Some n /\ validSelector d n = true
                    /\ docQuerySelector d n = Some e /\ textContent d e <> []
                    /\ t = trim (textContent d e)).
    { destruct (fallbackSelectors attributeName) as [l|].
      - intros [= H]. destruct (getFirstTextMatch_found l t H) as (s & n & e & Hin & Hrest).
        exists s, n, e. split; [right; exists l; split; [reflexivity|exact Hin]|exact Hrest].
      - destruct (inheritedProperty attributeName) as [[[|k]|]|]; discriminate. }
    destruct (mappings !! attributeName) as [sel|]; [|exact Hfb].
    destruct (nonEmpty sel); [|exact Hfb].
    destruct (getFirstTextMatch d [sel]) as [v|] eqn:Hv; [|exact Hfb].
    destruct (nonEmpty v) eqn:Hne; [|exact Hfb].
    intros [= <-]. destruct (getFirstTextMatch_found [sel] v Hv) as (s & n & e & Hin & Hrest).
    destruct Hin as [<-|[]]. exists sel, n, e. split; [left; reflexivity|exact Hrest].
  - intros -> ->. apply inheritedFallback_cases.
Qed.

End Selectors.

Lemma getFirstTextMatch_first_hit_witness :
  getFirstTextMatch headingPage [ js "h1::"; js ".title"; js "h1"; js "h2" ]
  = Some (js "Flat for sale").
Proof.
  apply (proj1 (getFirstTextMatch_first_hit headingPage)
           [ js "h1::"; js ".title" ] (js "h1") [ js "h2" ] (js "h1") tt).
  - repeat constructor.
  - reflexivity.
  - discriminate.
  - reflexivity.
  - reflexivity.
  - discriminate.
Defined.

Lemma scrapeMappedAttribute_mapping_first_witness :
  scrapeMappedAttribute headingPage {[ js "rooms" := js "h1" ]} (js "rooms")
  = Ok (Some (js "Flat for sale")).
Proof.
  apply (proj1 (scrapeMappedAttribute_mapping_first headingPage {[ js "rooms" := js "h1" ]}
                  (js "rooms")) (js "h1")).
  - vm_compute. reflexivity.
  - vm_compute. reflexivity.
  - discriminate.
Defined.

(** ** Selector normalization *)

(** A text starting with [c] is not found where [c] does not occur. *)
Lemma includes_free_prefix (c : N) (t u v : jsstring) :
  free c u -> includes (u ++ v) (c :: t) = includes v (c :: t).
Proof.
  intros Hu. induction Hu as [|a u Ha Hu IH]; [reflexivity|].
  change ((a :: u) ++ v) with (a :: (u ++ v)).
  change (includes (a :: u ++ v) (c :: t))
    with (startsWith (a :: u ++ v) (c :: t) || includes (u ++ v) (c :: t)).
  cbn [startsWith]. apply N.eqb_neq in Ha. rewrite Ha. exact IH.
Qed.

Lemma includes_head_free (c : N) (t u : jsstring) : free c u -> includes u (c :: t) = false.
Proof.
  intros Hu. rewrite <- (app_nil_r u), (includes_free_prefix c t u [] Hu). reflexivity.
Qed.

Lemma free_without (c : N) (s : jsstring) : free c s -> without (fun x => x =? c) s.
Proof.
  intros H. eapply Forall_impl; [exact H|]. intros a Ha. cbn. apply N.eqb_neq. exact Ha.
Qed.

Lemma tailwindPattern_needs : needs (fun x => x =? 92) tailwindPattern.
Proof. cbn. right. right. left. intros c H. exact H. Qed.

(** A greedy run of a class stops at the latest before a unit that is not in
    the class: the continuation runs at positions up to that unit only. *)
Lemma star_class_blocked (p : N -> bool) (k : cont) (c0 : N) (rest : jsstring)
    (cs : list (nat * jsstring)) :
  p c0 = false ->
  forall x b,
  (forall x1 x2, x = x1 ++ x2 -> k (mkSt (rev x1 ++ b) (x2 ++ c0 :: rest) cs) = None) ->
  run (Star true (Chr p)) (mkSt b (x ++ c0 :: rest) cs) k = None.
Proof.
  intros Hc0. induction x as [|c x IH]; intros b Hk; rewrite run_star_greedy;
    cbn [after before caps app].
  - rewrite Hc0. exact (Hk [] [] eq_refl).
  - pose proof (Hk [] (c :: x) eq_refl) as H0. cbn [rev app] in H0.
    destruct (p c); [|exact H0]. rewrite IH; [exact H0|].
    intros x1 x2 ->. specialize (Hk (c :: x1) x2 eq_refl).
    cbn [rev] in Hk. rewrite <- app_assoc in Hk. exact Hk.
Qed.

Lemma isWordOrDash_facts :
  isWordOrDash 46 = false /\ isWordOrDash 92 = false /\ isWordOrDash 58 = false.
Proof. repeat split. Qed.

(** No match of the pattern starts in a text without backslash that is
    followed by a dot. *)
Lemma tailwindPattern_not_before (y rest b : jsstring) :
  free 92 y -> y <> [] ->
  matchHere tailwindPattern (mkSt b (y ++ 46 :: rest) []) = None.
Proof.
  intros Hy Hne. destruct y as [|c y]; [congruence|]. clear Hne.
  unfold matchHere, tailwindPattern. rewrite run_cat. unfold lit at 1.
  change ((c :: y) ++ 46 :: rest) with (c :: (y ++ 46 :: rest)). rewrite run_chr_cons.
  destruct (c =? 46); [|reflexivity].
  rewrite run_cat, run_grp. unfold plus. rewrite run_cat.
  apply Forall_cons in Hy as [_ Hy].
  destruct y as [|e y].
  - cbn [app]. rewrite run_chr_cons. reflexivity.
  - change ((e :: y) ++ 46 :: rest) with (e :: (y ++ 46 :: rest)). rewrite run_chr_cons.
    destruct (isWordOrDash e); [|reflexivity].
    apply Forall_cons in Hy as [_ Hy].
    apply star_class_blocked; [reflexivity|].
    intros x1 x2 ->. cbn [before after caps]. rewrite run_cat. unfold lit at 1.
    destruct x2 as [|h x2]; cbn [app].
    + rewrite run_chr_cons. reflexivity.
    + rewrite run_chr_cons. apply Forall_app in Hy as [_ Hy].
      apply Forall_cons in Hy as [Hh _]. apply N.eqb_neq in Hh. rewrite Hh. reflexivity.
Qed.

(** The match at an escaped Tailwind class. *)
Lemma tailwindPattern_matches (w1 w2 : N) (p1 p2 post b : jsstring) :
  Forall (fun c => isWordOrDash c = true) (w1 :: p1) ->
  Forall (fun c => isWordOrDash c = true) (w2 :: p2) ->
  match post with c :: _ => isWordOrDash c = false | [] => True end ->
  matchHere tailwindPattern
    (mkSt b (46 :: (w1 :: p1) ++ 92 :: 58 :: (w2 :: p2) ++ post) [])
  = Some (mkSt (rev (w2 :: p2) ++ 58 :: 92 :: rev (w1 :: p1) ++ 46 :: b) post
            [(2%nat, w2 :: p2); (1%nat, w1 :: p1)]).
Proof.
  intros H1 H2 Hpost. apply Forall_cons in H1 as [Hw1 H1]. apply Forall_cons in H2 as [Hw2 H2].
  unfold matchHere, tailwindPattern. rewrite run_cat. unfold lit at 1. rewrite run_chr_cons.
  cbn [N.eqb Pos.eqb]. rewrite run_cat, run_grp. unfold plus at 1. rewrite run_cat.
  change ((w1 :: p1) ++ 92 :: 58 :: (w2 :: p2) ++ post)
    with (w1 :: (p1 ++ 92 :: 58 :: (w2 :: p2) ++ post)).
  rewrite run_chr_cons, Hw1.
  apply run_star_greedy_all; [exact H1|reflexivity|].
  cbn [before after caps].
  rewrite run_cat. unfold lit at 1. rewrite run_chr_cons. cbn [N.eqb Pos.eqb].
  rewrite run_cat. unfold lit at 1. rewrite run_chr_cons. cbn [N.eqb Pos.eqb].
  rewrite run_grp. unfold plus. rewrite run_cat.
  change ((w2 :: p2) ++ post) with (w2 :: (p2 ++ post)). rewrite run_chr_cons, Hw2.
  apply run_star_greedy_all; [exact H2|exact Hpost|].
  cbn [before after caps]. f_equal. f_equal.
  - cbn [rev]. rewrite <- !app_assoc. reflexivity.
  - f_equal; [|f_equal]; f_equal.
    + change (w2 :: 58 :: 92 :: rev p1 ++ w1 :: 46 :: b)
        with ([w2] ++ 58 :: 92 :: rev p1 ++ w1 :: 46 :: b).
      rewrite app_assoc.
      change (rev p2 ++ [w2]) with (rev (w2 :: p2)).
      apply captured_consumed.
    + change (w1 :: 46 :: b) with ([w1] ++ 46 :: b). rewrite app_assoc.
      change (rev p1 ++ [w1]) with (rev (w1 :: p1)).
      apply captured_consumed.
Qed.

Lemma includes_true_nonempty (s t : jsstring) : t <> [] -> includes s t = true -> s <> [].
Proof. intros Ht H ->. destruct t; [congruence|]. discriminate. Qed.

Lemma normalizeSelector_nonempty (selector : jsstring) :
  selector <> [] ->
  normalizeSelector selector
  = if includes selector [92; 91] || includes selector [92; 93] then None
    else Some (replace tailwindPattern
                 (fun mt => js "[class*=" ++ dq ++ group mt 1 ++ js ":" ++ group mt 2
                            ++ dq ++ js "]")
                 true selector).
Proof. destruct selector; [congruence|reflexivity]. Qed.

(** [normalizeSelector]: a selector with an escaped bracket is given up; one
    without backslash is kept as it is; and an escaped Tailwind class
    [.p1\:p2] becomes the attribute selector [[class*="p1:p2"]], the text
    around it kept. *)
Theorem normalizeSelector_cases :
  (forall selector,
     includes selector (js "\[") = true \/ includes selector (js "\]") = true ->
     normalizeSelector selector = None)
  /\ (forall selector, free 92 selector -> normalizeSelector selector = Some selector)
  /\ (forall pre p1 p2 post,
        free 92 pre -> free 92 post ->
        p1 <> [] -> p2 <> [] ->
        Forall (fun c => isWordOrDash c = true) p1 ->
        Forall (fun c => isWordOrDash c = true) p2 ->
        match post with c :: _ => isWordOrDash c = false | [] => True end ->
        normalizeSelector (pre ++ js "." ++ p1 ++ js "\:" ++ p2 ++ post)
        = Some (pre ++ js "[class*=" ++ dq ++ p1 ++ js ":" ++ p2 ++ dq ++ js "]" ++ post)).
Proof.
  split; [|split].
  - intros selector H. unfold normalizeSelector.
    destruct selector as [|c s].
    + destruct H as [H|H]; discriminate.
    + change (js "\[") with [92; 91] in H. change (js "\]") with [92; 93] in H.
      destruct H as [H|H]; rewrite H; [reflexivity|]. rewrite orb_true_r. reflexivity.
  - intros selector H. unfold normalizeSelector. destruct selector as [|c s]; [reflexivity|].
    rewrite !(includes_head_free 92) by exact H. cbn [orb].
    rewrite (replace_needs (fun x => x =? 92)); [reflexivity|exact tailwindPattern_needs|].
    apply free_without, H.
  - intros pre p1 p2 post Hpre Hpost Hn1 Hn2 H1 H2 Hnext.
    destruct p1 as [|w1 p1]; [congruence|]. destruct p2 as [|w2 p2]; [congruence|].
    change (js ".") with [46]. change (js "\:") with [92; 58]. change (js ":") with [58].
    cbn [app].
    assert (Hw : forall p, Forall (fun c => isWordOrDash c = true) p -> free 92 p).
    { intros p Hp. eapply Forall_impl; [exact Hp|]. intros a Ha ->. discriminate. }
    assert (Hesc : forall x, x <> 58 ->
      includes (pre ++ 46 :: w1 :: p1 ++ 92 :: 58 :: w2 :: p2 ++ post) [92; x] = false).
    { intros x Hx.
      change (46 :: w1 :: p1 ++ 92 :: 58 :: w2 :: p2 ++ post)
        with ((46 :: w1 :: p1) ++ 92 :: 58 :: w2 :: p2 ++ post).
      rewrite app_assoc, includes_free_prefix.
      2:{ apply Forall_app; split; [exact Hpre|]. constructor; [discriminate|]. apply Hw, H1. }
      change (includes (92 :: 58 :: w2 :: p2 ++ post) [92; x])
        with (startsWith (92 :: 58 :: w2 :: p2 ++ post) [92; x]
              || includes (58 :: w2 :: p2 ++ post) [92; x]).
      cbn [startsWith]. replace (58 =? x) with false by (symmetry; apply N.eqb_neq; congruence).
      rewrite andb_false_r. cbn [orb N.eqb Pos.eqb andb].
      apply includes_head_free. constructor; [discriminate|].
      change (w2 :: p2 ++ post) with ((w2 :: p2) ++ post).
      apply Forall_app; split; [apply Hw, H2|exact Hpost]. }
    rewrite normalizeSelector_nonempty by (destruct pre; discriminate).
    rewrite !Hesc by discriminate. cbn [orb]. f_equal.
    unfold replace.
    replace (S (length (pre ++ 46 :: w1 :: p1 ++ 92 :: 58 :: w2 :: p2 ++ post)))
      with (Nat.add (length pre) (S (length (46 :: w1 :: p1 ++ 92 :: 58 :: w2 :: p2 ++ post))))
      by (rewrite (length_app pre); lia).
    rewrite replaceFrom_skip.
    2:{ intros x y -> Hy. apply tailwindPattern_not_before; [|exact Hy].
        apply Forall_app in Hpre as [_ Hpre]. exact Hpre. }
    f_equal. cbn [replaceFrom].
    change (46 :: w1 :: p1 ++ 92 :: 58 :: w2 :: p2 ++ post)
      with (46 :: (w1 :: p1) ++ 92 :: 58 :: (w2 :: p2) ++ post).
    rewrite (tailwindPattern_matches w1 w2 p1 p2 post) by assumption.
    cbn [negb before after caps].
    replace (Nat.ltb (length post) (length (46 :: (w1 :: p1) ++ 92 :: 58 :: (w2 :: p2) ++ post)))
      with true.
    2:{ symmetry. apply Nat.ltb_lt. cbn [length app]. rewrite !length_app. cbn [length].
        rewrite length_app. lia. }
    unfold group. cbn [List.find fst snd Nat.eqb caps].
    rewrite (replaceFrom_nowhere (fun s => without (fun x => x =? 92) (after s))).
    + cbn [after]. change (js "[class*=") with [91; 99; 108; 97; 115; 115; 42; 61].
      change (js "]") with [93]. unfold dq.
      repeat (progress (rewrite <- ?app_assoc; cbn [app])). reflexivity.
    + intros s H0. apply (run_needs (fun x => x =? 92)); [exact tailwindPattern_needs|exact H0].
    + intros s c s1. apply (advance_without (fun x => x =? 92)).
    + cbn [after]. apply free_without, Hpost.
Qed.

Lemma normalizeSelector_cases_witness :
  normalizeSelector (js "div.bg-\[rgb\(251\)\] > h1") = None
  /\ normalizeSelector (js "h1.title") = Some (js "h1.title")
  /\ normalizeSelector (js "div.pt-0" ++ js "." ++ js "md" ++ js "\:" ++ js "pt-8" ++ js ".pb-8 > h1")
     = Some (js "div.pt-0" ++ js "[class*=" ++ dq ++ js "md" ++ js ":" ++ js "pt-8" ++ dq
               ++ js "]" ++ js ".pb-8 > h1").
Proof.
  destruct normalizeSelector_cases as (H1 & H2 & H3). split; [|split].
  - apply H1. left. vm_compute. reflexivity.
  - apply H2. unfold free. repeat constructor; discriminate.
  - apply H3.
    + unfold free. repeat constructor; discriminate.
    + unfold free. repeat constructor; discriminate.
    + discriminate.
    + discriminate.
    + repeat constructor.
    + repeat constructor.
    + reflexivity.
Defined.

(** ** The gallery *)

Lemma galleryFrom_fresh (d : DOM) (imgs : list (Element d)) :
  forall seen,
  NoDup (galleryFrom d imgs seen)
  /\ forall u, In u (galleryFrom d imgs seen) ->
       (u ∉ seen) /\ u <> []
       /\ exists img, In img imgs /\ toAbsoluteUrl d (rawSource d img) = Some u.
Proof.
  induction imgs as [|img imgs IH]; intros seen; cbn [galleryFrom].
  - split; [constructor|]. intros u [].
  - assert (Hrest : forall seen' u, In u (galleryFrom d imgs seen') ->
                      (u ∉ seen') /\ u <> []
                      /\ exists img0, In img0 (img :: imgs)
                                      /\ toAbsoluteUrl d (rawSource d img0) = Some u).
    { intros seen' u Hu. destruct (proj2 (IH seen') u Hu) as (H1 & H2 & img0 & H3 & H4).
      split; [exact H1|]. split; [exact H2|]. exists img0. split; [right; exact H3|exact H4]. }
    destruct (toAbsoluteUrl d (rawSource d img)) as [absolute|] eqn:Habs.
    + destruct (negb (nonEmpty absolute) || bool_decide (absolute ∈ seen)) eqn:Hskip.
      * split; [apply IH|apply Hrest].
      * apply orb_false_iff in Hskip as [Hne Hseen].
        apply negb_false_iff in Hne. apply bool_decide_eq_false in Hseen.
        split.
        -- constructor; [|apply IH]. intros Hin. apply list_elem_of_In in Hin.
           destruct (Hrest _ _ Hin) as (Hnot & _). apply Hnot.
           apply elem_of_union. left. apply elem_of_singleton. reflexivity.
        -- intros u [<-|Hu].
           ++ split; [exact Hseen|]. split; [destruct absolute; [discriminate|discriminate]|].
              exists img. split; [left; reflexivity|exact Habs].
           ++ destruct (Hrest _ _ Hu) as (H1 & H2 & H3).
              split; [intros Hs; apply H1, elem_of_union; right; exact Hs|]. split; assumption.
    + split; [apply IH|apply Hrest].
Qed.

Lemma galleryFrom_complete (d : DOM) (imgs : list (Element d)) :
  forall seen img u,
  In img imgs -> toAbsoluteUrl d (rawSource d img) = Some u -> u <> [] ->
  u ∈ seen \/ In u (galleryFrom d imgs seen).
Proof.
  induction imgs as [|i imgs IH]; intros seen img u Hin Hu Hne; [exact (False_ind _ Hin)|].
  cbn [galleryFrom]. destruct Hin as [<-|Hin].
  - rewrite Hu. destruct (negb (nonEmpty u) || bool_decide (u ∈ seen)) eqn:Hs.
    + left. apply orb_true_iff in Hs as [Hs|Hs].
      * destruct u; [congruence|discriminate].
      * apply bool_decide_eq_true in Hs. exact Hs.
    + right. left. reflexivity.
  - destruct (toAbsoluteUrl d (rawSource d i)) as [a|]; [|apply (IH seen img u); assumption].
    destruct (negb (nonEmpty a) || bool_decide (a ∈ seen));
      [apply (IH seen img u); assumption|].
    destruct (IH ({[a]} ∪ seen) img u Hin Hu Hne) as [H|H].
    + apply elem_of_union in H as [H|H]; [|left; exact H].
      apply elem_of_singleton in H. subst. right. cbn [In]. left. reflexivity.
    + right. cbn [In]. right. exact H.
Qed.

(** When the engine accepts the two selectors of the gallery, the gallery is
    returned; it holds no address twice, and its addresses are exactly the
    resolved sources, not empty, of the images of the gallery container.
    Without the container the gallery is empty. *)
Theorem collectGalleryImages_distinct (d : DOM) :
  validSelector d GALLERY_CONTAINER_SELECTOR = true ->
  validSelector d imgSelector = true ->
  exists l,
    collectGalleryImages d = Ok l
    /\ NoDup l
    /\ (docQuerySelector d GALLERY_CONTAINER_SELECTOR = None -> l = [])
    /\ forall u, In u l <->
         u <> [] /\ exists c img,
           docQuerySelector d GALLERY_CONTAINER_SELECTOR = Some c
           /\ In img (elQuerySelectorAll d c imgSelector)
           /\ toAbsoluteUrl d (rawSource d img) = Some u.
Proof.
  intros Hv1 Hv2.
  unfold collectGalleryImages, querySelector, querySelectorAllIn, checked. rewrite Hv1.
  cbn [bind].
  destruct (docQuerySelector d GALLERY_CONTAINER_SELECTOR) as [c|].
  - rewrite Hv2. cbn [bind]. eexists. split; [reflexivity|].
    destruct (galleryFrom_fresh d (elQuerySelectorAll d c imgSelector) ∅) as [Hnd Hall].
    split; [exact Hnd|]. split; [discriminate|]. intros u. split.
    + intros Hu. destruct (Hall u Hu) as (_ & Hne & img & H1 & H2).
      split; [exact Hne|]. exists c, img. auto.
    + intros (Hne & c' & img & [= <-] & Himg & Hsrc).
      destruct (galleryFrom_complete d _ ∅ img u Himg Hsrc Hne) as [H|H]; [|exact H].
      apply elem_of_empty in H. destruct H.
  - exists []. split; [reflexivity|]. split; [constructor|]. split; [reflexivity|].
    intros u. split; [intros []|]. intros (_ & c & img & H & _). discriminate.
Qed.

Lemma collectGalleryImages_distinct_witness :
  exists l, collectGalleryImages galleryPage = Ok l
            /\ NoDup l /\ In (js "https://static.myhome.ge/a.jpg") l.
Proof.
  destruct (collectGalleryImages_distinct galleryPage eq_refl eq_refl)
    as (l & H & Hnd & _ & Hin).
  exists l. split; [exact H|]. split; [exact Hnd|]. apply Hin.
  split; [discriminate|]. exists 1%nat, 2%nat.
  split; [reflexivity|]. split; [left; reflexivity|reflexivity].
Defined.

(** ** Prices: what the parser never returns *)

Lemma toNumber_number (s : jsstring) (x : jsnum) : toNumber s = Some x -> isNaN x = false.
Proof.
  unfold toNumber. destruct (isNaN (parseFloat s)) eqn:E; [discriminate|]. intros [= <-]. exact E.
Qed.

Lemma toNumber_separators_only (s : jsstring) :
  Forall (fun c => c = dot \/ c = comma) s -> toNumber s = None.
Proof. intros H. unfold toNumber. rewrite (parseFloat_separators_only s H). reflexivity. Qed.

Lemma Forall_keep (P : N -> Prop) (p : N -> bool) (s : jsstring) : Forall P s -> Forall P (keep p s).
Proof.
  intros H. induction H as [|c s Hc Hs IH]; [constructor|].
  unfold keep in *. simpl. destruct (p c); [constructor; assumption|exact IH].
Qed.

Lemma replaceFirst_separators (s : jsstring) :
  Forall (fun c => c = dot \/ c = comma) s ->
  Forall (fun c => c = dot \/ c = comma) (replaceFirst comma [dot] s).
Proof.
  intros H. induction H as [|c s Hc Hs IH]; [constructor|]. simpl.
  destruct (c =? comma); [constructor; [left; reflexivity|exact Hs]|constructor; assumption].
Qed.

Lemma priceDigits_no_digit (text : jsstring) :
  Forall (fun c => isDigit c = false) text ->
  Forall (fun c => c = dot \/ c = comma) (priceDigits text).
Proof.
  intros H. unfold priceDigits.
  set (t := keep _ text). assert (Ht : Forall (fun c => isDigit c = false) t).
  { apply Forall_keep. exact H. }
  clearbody t. induction Ht as [|c t Hc Ht IH]; [constructor|].
  unfold keep in *. simpl. unfold isDigitOrSeparator at 1. rewrite Hc. cbn [orb].
  destruct (c =? dot) eqn:Hd.
  - constructor; [left; apply N.eqb_eq; exact Hd|exact IH].
  - cbn [orb]. destruct (c =? comma) eqn:Hm; [|exact IH].
    constructor; [right; apply N.eqb_eq; exact Hm|exact IH].
Qed.

Lemma parseSeparated_number (value : jsstring) (x : jsnum) :
  parseSeparated value = Some x -> isNaN x = false.
Proof.
  unfold parseSeparated. cbv zeta.
  repeat match goal with |- context [if ?b then _ else _] => destruct b end;
    apply toNumber_number.
Qed.

Lemma parseSeparated_separators_only (value : jsstring) :
  Forall (fun c => c = dot \/ c = comma) value -> parseSeparated value = None.
Proof.
  intros H. unfold parseSeparated. cbv zeta.
  repeat match goal with |- context [if ?b then _ else _] => destruct b end;
    apply toNumber_separators_only;
    repeat first [exact H | apply replaceFirst_separators | apply Forall_keep].
Qed.

Lemma parseSeparated_digits (ds : jsstring) :
  digits ds -> ds <> [] -> parseSeparated ds = Some (round64 (digitsValue ds) 0).
Proof.
  intros Hd Hne. unfold parseSeparated. cbv zeta.
  rewrite (includes_single_free ds comma), (includes_single_free ds dot)
    by (apply digits_free; [reflexivity|exact Hd]).
  cbn [andb]. apply toNumber_integer; assumption.
Qed.

(** What [parsePriceText] returns is a number, never [NaN]; a text without a
    digit gives [null]; a text whose only digits-and-separators are digits
    gives the Number nearest to their value, which is that value when it is
    below 2^53 (9007199254740993 is read as 9007199254740992); and two texts
    that differ only in white space, currency signs and other units that are
    neither digit nor separator give the same result. *)
Theorem parsePriceText_number_or_null :
  (forall text x, parsePriceText text = Some x -> isNaN x = false)
  /\ (forall text, Forall (fun c => isDigit c = false) text -> parsePriceText text = None)
  /\ (forall text ds, digits ds -> ds <> [] -> priceDigits text = ds ->
        parsePriceText text = Some (round64 (digitsValue ds) 0)
        /\ ((digitsValue ds < 2 ^ 53)%Z ->
            parsePriceText text = Some (Dec (digitsValue ds) 0)))
  /\ parsePriceText (js "9007199254740993 $") = Some (Dec 9007199254740992 0)
  /\ (forall t1 t2, t1 <> [] -> t2 <> [] -> priceDigits t1 = priceDigits t2 ->
        parsePriceText t1 = parsePriceText t2).
Proof.
  split; [|split; [|split; [|split]]].
  - intros text x. unfold parsePriceText. destruct text; [discriminate|].
    destruct (priceDigits _); [discriminate|]. apply parseSeparated_number.
  - intros text H. unfold parsePriceText. destruct text as [|c text]; [reflexivity|].
    pose proof (priceDigits_no_digit _ H) as Hs.
    destruct (priceDigits (c :: text)) as [|v vs] eqn:E; [reflexivity|].
    apply parseSeparated_separators_only. exact Hs.
  - intros text ds Hd Hne Hv. rewrite (parsePriceText_value _ _ Hv Hne).
    rewrite parseSeparated_digits by assumption. split; [reflexivity|].
    intros Hlt. rewrite round64_integer; [reflexivity|].
    split; [apply digitsValue_nonneg; exact Hd|exact Hlt].
  - vm_compute. reflexivity.
  - intros t1 t2 H1 H2 H. unfold parsePriceText.
    destruct t1; [congruence|]. destruct t2; [congruence|]. rewrite H. reflexivity.
Qed.

Lemma parsePriceText_number_or_null_witness :
  parsePriceText (js "$ 99 500") = Some (Dec 99500 0)
  /\ parsePriceText (js "ფასი შეთანხმებით") = None
  /\ parsePriceText (js "1 500 ₾") = parsePriceText (js "1500$").
Proof.
  split; [|split].
  - refine (proj2 (proj1 (proj2 (proj2 parsePriceText_number_or_null))
                     (js "$ 99 500") (js "99500") _ _ _) _).
    + repeat constructor.
    + discriminate.
    + reflexivity.
    + vm_compute. reflexivity.
  - apply (proj1 (proj2 parsePriceText_number_or_null)). repeat constructor.
  - apply (proj2 (proj2 (proj2 (proj2 parsePriceText_number_or_null))));
      [discriminate|discriminate|].
    reflexivity.
Defined.

(** ** Lines of the mapping file *)

Ltac norm_app := repeat (progress (rewrite <- ?app_assoc; cbn [app])).

Lemma plainCsvUnit_facts (c : N) :
  plainCsvUnit c = true ->
  (c =? 34) = false /\ (c =? 44) = false /\ c <> 92
  /\ isOpenBracket c = false /\ isCloseBracket c = false.
Proof.
  unfold plainCsvUnit. intros H. apply negb_true_iff in H.
  repeat (apply orb_false_iff in H as [H ?]). repeat split; try assumption.
  apply N.eqb_neq. assumption.
Qed.

Lemma isEscaped_false (prev : option N) : prev <> Some 92 -> bool_decide (prev = Some 92) = false.
Proof. intros H. apply bool_decide_eq_false. exact H. Qed.

(** Plain units join the current field. *)
Lemma parseCSVFrom_plain (f rest : jsstring) :
  Forall (fun c => plainCsvUnit c = true) f ->
  forall prev fs cur q depth, prev <> Some 92 ->
  exists prev', prev' <> Some 92
    /\ parseCSVFrom prev (f ++ rest) (mkCsv fs cur q depth)
       = parseCSVFrom prev' rest (mkCsv fs (cur ++ f) q depth).
Proof.
  intros Hf. induction Hf as [|c f Hc Hf IH]; intros prev fs cur q depth Hprev.
  - exists prev. rewrite app_nil_r. split; [exact Hprev|reflexivity].
  - destruct (plainCsvUnit_facts c Hc) as (H34 & H44 & H92 & Ho & Hcl).
    cbn [app parseCSVFrom]. rewrite H34, H44. cbn [andb].
    unfold plainChar. cbn [insideQuotes bracketDepth fields currentField].
    rewrite Ho, Hcl.
    destruct (IH (Some c) fs (cur ++ [c]) q depth ltac:(congruence)) as (prev' & Hp & Heq).
    exists prev'. split; [exact Hp|].
    rewrite <- app_assoc in Heq. cbn [app] in Heq. rewrite <- Heq.
    destruct (negb q && negb (bool_decide (prev = Some 92))); reflexivity.
Qed.

(** Inside brackets a comma joins the current field too. *)
Lemma parseCSVFrom_inside (b rest : jsstring) :
  Forall (fun x => plainCsvUnit x = true \/ x = 44) b ->
  forall prev fs cur depth, prev <> Some 92 ->
  exists prev', prev' <> Some 92
    /\ parseCSVFrom prev (b ++ rest) (mkCsv fs cur false (S depth))
       = parseCSVFrom prev' rest (mkCsv fs (cur ++ b) false (S depth)).
Proof.
  intros Hb. induction Hb as [|c b Hc Hb IH]; intros prev fs cur depth Hprev.
  - exists prev. rewrite app_nil_r. split; [exact Hprev|reflexivity].
  - destruct (IH (Some c) fs (cur ++ [c]) depth) as (prev' & Hp & Heq).
    { destruct Hc as [Hc| ->]; [|congruence].
      apply plainCsvUnit_facts in Hc as (_ & _ & H92 & _). congruence. }
    exists prev'. split; [exact Hp|].
    rewrite <- app_assoc in Heq. cbn [app] in Heq. rewrite <- Heq.
    cbn [app parseCSVFrom]. rewrite (isEscaped_false prev Hprev).
    destruct Hc as [Hc| ->].
    + destruct (plainCsvUnit_facts c Hc) as (H34 & H44 & H92 & Ho & Hcl).
      rewrite H34, H44. cbn [andb]. unfold plainChar.
      cbn [insideQuotes bracketDepth fields currentField negb andb]. rewrite Ho, Hcl. reflexivity.
    + cbn [N.eqb Pos.eqb andb insideQuotes bracketDepth negb Nat.eqb].
      unfold plainChar. cbn [insideQuotes bracketDepth fields currentField negb andb].
      reflexivity.
Qed.

Lemma parseCSVFrom_field (f : jsstring) :
  csvField f ->
  forall rest prev fs cur, prev <> Some 92 ->
  exists prev', prev' <> Some 92
    /\ parseCSVFrom prev (f ++ rest) (mkCsv fs cur false 0)
       = parseCSVFrom prev' rest (mkCsv fs (cur ++ f) false 0).
Proof.
  intros Hf. induction Hf as [f Hf|a o b c f Ha Ho Hb Hc Hf IH]; intros rest prev fs cur Hprev.
  - apply parseCSVFrom_plain; assumption.
  - destruct (parseCSVFrom_plain a (o :: b ++ c :: f ++ rest) Ha prev fs cur false 0%nat Hprev)
      as (p1 & Hp1 & E1).
    assert (Ho92 : o <> 92).
    { intros ->. discriminate. }
    assert (Hc92 : c <> 92).
    { intros ->. discriminate. }
    assert (Ho' : (o =? 34) = false /\ (o =? 44) = false /\ isCloseBracket o = false
                  /\ isOpenBracket o = true).
    { unfold isOpenBracket in Ho. repeat (apply orb_true_iff in Ho as [Ho|Ho]);
        apply N.eqb_eq in Ho; subst o; repeat split; reflexivity. }
    assert (Hc' : (c =? 34) = false /\ (c =? 44) = false /\ isOpenBracket c = false).
    { unfold isCloseBracket in Hc. repeat (apply orb_true_iff in Hc as [Hc|Hc]);
        apply N.eqb_eq in Hc; subst c; repeat split; reflexivity. }
    destruct Ho' as (Ho34 & Ho44 & _ & _). destruct Hc' as (Hc34 & Hc44 & Hco).
    destruct (parseCSVFrom_inside b (c :: f ++ rest) Hb (Some o) fs ((cur ++ a) ++ [o]) 0%nat
                ltac:(congruence)) as (p2 & Hp2 & E2).
    destruct (IH rest (Some c) fs (((cur ++ a) ++ [o]) ++ b ++ [c]) ltac:(congruence))
      as (p3 & Hp3 & E3).
    exists p3. split; [exact Hp3|].
    replace ((a ++ o :: b ++ c :: f) ++ rest) with (a ++ o :: b ++ c :: f ++ rest)
      by (norm_app; reflexivity).
    rewrite E1. cbn [parseCSVFrom]. rewrite (isEscaped_false p1 Hp1), Ho34, Ho44.
    cbn [andb]. unfold plainChar at 1.
    cbn [insideQuotes bracketDepth fields currentField negb andb]. rewrite Ho.
    rewrite E2. cbn [parseCSVFrom]. rewrite (isEscaped_false p2 Hp2), Hc34, Hc44.
    cbn [andb]. unfold plainChar at 1.
    cbn [insideQuotes bracketDepth fields currentField negb andb Nat.pred]. rewrite Hco, Hc.
    replace (((cur ++ a) ++ [o]) ++ b ++ [c]) with ((((cur ++ a) ++ [o]) ++ b) ++ [c]) in E3
      by (norm_app; reflexivity).
    rewrite E3. f_equal. f_equal. norm_app. reflexivity.
Qed.

Lemma parseCSVFrom_fields (fs : list jsstring) :
  Forall csvField fs -> fs <> [] ->
  forall prev acc, prev <> Some 92 ->
  parseCSVFrom prev (join [44] fs) (mkCsv acc [] false 0) = acc ++ map trim fs.
Proof.
  intros Hfs. induction Hfs as [|f fs Hf Hfs IH]; intros Hne prev acc Hprev; [congruence|].
  destruct fs as [|f' fs].
  - cbn [join map]. destruct (parseCSVFrom_field f Hf [] prev acc [] Hprev) as (p & _ & E).
    rewrite app_nil_r in E. rewrite E. reflexivity.
  - change (join [44] (f :: f' :: fs)) with (f ++ [44] ++ join [44] (f' :: fs)).
    destruct (parseCSVFrom_field f Hf ([44] ++ join [44] (f' :: fs)) prev acc [] Hprev)
      as (p & Hp & E).
    rewrite E. cbn [app parseCSVFrom]. rewrite (isEscaped_false p Hp).
    cbn [N.eqb Pos.eqb andb insideQuotes bracketDepth negb Nat.eqb fields currentField].
    rewrite IH by (discriminate || congruence). cbn [map]. rewrite <- app_assoc. reflexivity.
Qed.

Lemma parseCSVLine_fields (fs : list jsstring) :
  Forall csvField fs -> fs <> [] ->
  parseCSVLine (join [44] fs) = map trim fs.
Proof.
  intros Hfs Hne. unfold parseCSVLine. apply (parseCSVFrom_fields fs Hfs Hne None []).
  discriminate.
Qed.

Lemma parseCSVFrom_nonempty (n : nat) :
  forall line prev st, (length line <= n)%nat -> parseCSVFrom prev line st <> [].
Proof.
  induction n as [|n IH]; intros line prev st Hlen.
  - destruct line; [|simpl in Hlen; lia]. cbn [parseCSVFrom].
    intros E. apply app_eq_nil in E as [_ E]. discriminate.
  - destruct line as [|c rest].
    + cbn [parseCSVFrom]. intros E. apply app_eq_nil in E as [_ E]. discriminate.
    + cbn [length] in Hlen. cbn [parseCSVFrom].
      destruct ((c =? 34) && negb (bool_decide (prev = Some 92))).
      * destruct rest as [|c' rest']; [apply IH; simpl; lia|].
        destruct (c' =? 34) eqn:E34.
        -- apply N.eqb_eq in E34 as ->. destruct (insideQuotes st); apply IH; simpl in *; lia.
        -- assert (Hneq : c' <> 34) by (apply N.eqb_neq; exact E34).
           destruct c' as [|p]; [apply IH; simpl in *; lia|].
           repeat (destruct p as [p|p|]; try (apply IH; simpl in *; lia)).
           congruence.
      * destruct (_ && _); apply IH; lia.
Qed.

(** A line always gives at least one field. *)
Lemma parseCSVLine_nonempty (line : jsstring) : parseCSVLine line <> [].
Proof. apply (parseCSVFrom_nonempty (length line)). lia. Qed.

(** Fields made of plain units and of bracketed parts come back from a line
    in which commas join them, each trimmed: a comma inside brackets does
    not split a field. Any line gives at least one field. *)
Theorem parseCSVLine_join :
  (forall fs, Forall csvField fs -> fs <> [] -> parseCSVLine (join [44] fs) = map trim fs)
  /\ (forall line, parseCSVLine line <> []).
Proof. split; [exact parseCSVLine_fields|exact parseCSVLine_nonempty]. Qed.

Lemma parseCSVLine_join_witness :
  parseCSVLine (join [44] [ js " title "; js "span:not(.a,.b) > h1"; [] ])
  = [ js "title"; js "span:not(.a,.b) > h1"; [] ].
Proof.
  apply (proj1 parseCSVLine_join [ js " title "; js "span:not(.a,.b) > h1"; [] ]).
  - constructor; [|constructor; [|constructor; [|constructor]]].
    + apply field_plain. repeat constructor.
    + apply (field_bracket (js "span:not") 40 (js ".a,.b") 41 (js " > h1")).
      * repeat constructor.
      * reflexivity.
      * repeat (constructor; [first [left; reflexivity|right; reflexivity]|]). constructor.
      * reflexivity.
      * apply field_plain. repeat constructor.
    + apply field_plain. constructor.
  - discriminate.
Defined.

(** ** The mapping file *)

(** What [zipMappings] adds: for each position, the header with its
    selector, when neither is empty and the header is not [__proto__]. *)
Lemma zipMappings_lookup (headers : list jsstring) :
  forall selectors acc k v,
  zipMappings headers selectors acc !! k = Some v ->
  acc !! k = Some v
  \/ (k <> [] /\ v <> [] /\ k <> js "__proto__"
      /\ exists i, headers !! i = Some k /\ selectors !! i = Some v).
Proof.
  induction headers as [|h hs IH]; intros selectors acc k v; cbn [zipMappings]; [auto|].
  destruct selectors as [|s ss]; [auto|]. intros H.
  destruct (IH _ _ _ _ H) as [Hacc|(Hk & Hv & Hp & i & Hh & Hs)].
  - destruct h as [|hc h']; [left; exact Hacc|]. destruct s as [|sc s']; [left; exact Hacc|].
    apply setProp_lookup in Hacc as [Hacc|(-> & -> & Hp)]; [left; exact Hacc|].
    right. split; [discriminate|]. split; [discriminate|]. split; [exact Hp|].
    exists 0%nat. split; reflexivity.
  - right. split; [exact Hk|]. split; [exact Hv|]. split; [exact Hp|].
    exists (S i). split; assumption.
Qed.

Lemma zipMappings_keeps (headers : list jsstring) :
  forall selectors acc k v,
  ~ In k headers -> acc !! k = Some v -> zipMappings headers selectors acc !! k = Some v.
Proof.
  induction headers as [|h hs IH]; intros selectors acc k v Hk Hacc; cbn [zipMappings];
    [exact Hacc|].
  destruct selectors as [|s ss]; [exact Hacc|].
  apply IH; [intros Hin; apply Hk; right; exact Hin|].
  destruct h as [|hc h']; [exact Hacc|]. destruct s as [|sc s']; [exact Hacc|].
  rewrite setProp_other; [exact Hacc|]. intros ->. apply Hk. left. reflexivity.
Qed.

Lemma zipMappings_stores (headers : list jsstring) :
  forall selectors acc i h s,
  NoDup headers -> headers !! i = Some h -> selectors !! i = Some s -> h <> [] -> s <> [] ->
  h <> js "__proto__" ->
  zipMappings headers selectors acc !! h = Some s.
Proof.
  induction headers as [|h0 hs IH]; intros selectors acc i h s Hnd Hh Hs Hne Hne' Hp;
    [discriminate|].
  destruct selectors as [|s0 ss]; [destruct i; discriminate|]. cbn [zipMappings].
  apply NoDup_cons in Hnd as [Hnotin Hnd].
  destruct i as [|i].
  - injection Hh as ->. injection Hs as ->.
    apply zipMappings_keeps; [intros Hin; apply Hnotin, list_elem_of_In, Hin|].
    destruct h as [|hc h']; [congruence|]. destruct s as [|sc s']; [congruence|].
    apply setProp_stored. exact Hp.
  - apply (IH ss _ i); assumption.
Qed.

(** The mappings that are loaded hold no empty key and no empty selector;
    each entry is a field of the header line with the field of the selector
    line at the same position. *)
Theorem loadMappings_entries (resource : fetched) (mappings : gmap jsstring jsstring) :
  loadMappings resource = Ok mappings ->
  exists statusText csvText l0 l1 rest,
    resource = Response true statusText csvText
    /\ nonBlankLines csvText = l0 :: l1 :: rest
    /\ forall k v, mappings !! k = Some v ->
         k <> [] /\ v <> []
         /\ exists i, parseCSVLine l0 !! i = Some k /\ parseCSVLine l1 !! i = Some v.
Proof.
  unfold loadMappings, readMappings. destruct resource as [e|[|] statusText csvText];
    try discriminate.
  destruct (nonBlankLines csvText) as [|l0 [|l1 rest]] eqn:Hlines; try discriminate.
  intros [= <-]. exists statusText, csvText, l0, l1, rest.
  split; [reflexivity|]. split; [exact Hlines|]. intros k v H.
  destruct (zipMappings_lookup _ _ _ _ _ H) as [Hempty|(Hk & Hv & _ & Hi)];
    [|split; [exact Hk|split; [exact Hv|exact Hi]]].
  rewrite lookup_empty in Hempty. discriminate.
Qed.

Lemma cell_trim (f : jsstring) : cell f -> trim f = f.
Proof. intros (_ & Hh & Hl & _). apply trim_ends; assumption. Qed.

Lemma cells_trim (fs : list jsstring) : Forall cell fs -> map trim fs = fs.
Proof.
  intros H. induction H as [|f fs Hf Hfs IH]; [reflexivity|].
  cbn [map]. rewrite (cell_trim f Hf), IH. reflexivity.
Qed.

Lemma join_ends (fs : list jsstring) :
  Forall cell fs -> fs <> [] ->
  match join [44] fs with c :: _ => isSpace c = false | [] => False end
  /\ match last (join [44] fs) with Some c => isSpace c = false | None => False end.
Proof.
  intros H. induction H as [|f fs Hf Hfs IH]; intros Hne; [congruence|].
  destruct Hf as (_ & Hh & Hl & _).
  destruct fs as [|f' fs]; [cbn [join]; split; assumption|].
  change (join [44] (f :: f' :: fs)) with (f ++ [44] ++ join [44] (f' :: fs)).
  destruct (IH ltac:(discriminate)) as [_ IHl]. split.
  - destruct f; [destruct Hh|exact Hh].
  - rewrite !last_app. destruct (last (join [44] (f' :: fs))); [exact IHl|destruct IHl].
Qed.

Lemma join_line (fs : list jsstring) :
  Forall cell fs -> fs <> [] ->
  free 10 (join [44] fs) /\ trim (join [44] fs) = join [44] fs /\ join [44] fs <> [].
Proof.
  intros H Hne. destruct (join_ends fs H Hne) as [Hh Hl]. split; [|split].
  - apply (free_grouped 10 44); [discriminate|].
    eapply Forall_impl; [exact H|]. intros f (_ & _ & _ & Hf). exact Hf.
  - apply trim_ends; assumption.
  - destruct (join [44] fs); [destruct Hh|discriminate].
Qed.

Lemma nonBlankLines_csvOf (headers selectors : list jsstring) :
  Forall cell headers -> headers <> [] -> Forall cell selectors -> selectors <> [] ->
  nonBlankLines (csvOf headers selectors) = [ join [44] headers; join [44] selectors ].
Proof.
  intros Hh Hhne Hs Hsne.
  destruct (join_line headers Hh Hhne) as (Hf0 & Ht0 & Hn0).
  destruct (join_line selectors Hs Hsne) as (Hf1 & Ht1 & Hn1).
  destruct (join_ends headers Hh Hhne) as [Hhead _].
  destruct (join_ends selectors Hs Hsne) as [_ Hlast].
  unfold nonBlankLines, csvOf.
  assert (Htrim : trim (join [44] headers ++ 10 :: join [44] selectors)
                  = join [44] headers ++ 10 :: join [44] selectors).
  { apply trim_ends.
    - destruct (join [44] headers); [destruct Hhead|exact Hhead].
    - rewrite last_app, last_cons.
      destruct (last (join [44] selectors)); [exact Hlast|destruct Hlast]. }
  rewrite Htrim, (split_app 10 _ _ Hf0), (split_free 10 _ Hf1).
  cbn [List.filter]. rewrite Ht0, Ht1.
  destruct (join [44] headers); [congruence|]. destruct (join [44] selectors); [congruence|].
  reflexivity.
Qed.

(** A mapping file written as a line of header cells and a line of selector
    cells, with commas between the cells, loads as the mapping from each
    header to the selector below it; selectors may hold commas inside
    brackets. The one header that is not kept is [__proto__]: the
    assignment [mappings[header] = selector] does not make it a property. *)
Theorem loadMappings_round_trip (statusText : jsstring) (headers selectors : list jsstring) :
  Forall cell headers -> Forall cell selectors -> NoDup headers ->
  headers <> [] -> length headers = length selectors ->
  exists mappings,
    loadMappings (Response true statusText (csvOf headers selectors)) = Ok mappings
    /\ (forall i h s, headers !! i = Some h -> selectors !! i = Some s ->
          h <> js "__proto__" -> mappings !! h = Some s)
    /\ (forall k v, mappings !! k = Some v ->
          k <> js "__proto__"
          /\ exists i, headers !! i = Some k /\ selectors !! i = Some v)
    /\ mappings !! js "__proto__" = None.
Proof.
  intros Hh Hs Hnd Hne Hlen.
  assert (Hsne : selectors <> []).
  { destruct selectors; [destruct headers; [congruence|discriminate]|discriminate]. }
  assert (Hcsv0 : Forall csvField headers).
  { eapply Forall_impl; [exact Hh|]. intros f (H & _). exact H. }
  assert (Hcsv1 : Forall csvField selectors).
  { eapply Forall_impl; [exact Hs|]. intros f (H & _). exact H. }
  unfold loadMappings, readMappings.
  rewrite (nonBlankLines_csvOf headers selectors Hh Hne Hs Hsne).
  rewrite (parseCSVLine_fields headers Hcsv0 Hne), (parseCSVLine_fields selectors Hcsv1 Hsne).
  rewrite (cells_trim headers Hh), (cells_trim selectors Hs).
  assert (Hkeys : forall k v, zipMappings headers selectors ∅ !! k = Some v ->
                    k <> js "__proto__"
                    /\ exists i, headers !! i = Some k /\ selectors !! i = Some v).
  { intros k v H. destruct (zipMappings_lookup _ _ _ _ _ H) as [Hempty|(_ & _ & Hp & Hi)];
      [|split; [exact Hp|exact Hi]].
    rewrite lookup_empty in Hempty. discriminate. }
  eexists. split; [reflexivity|]. split; [|split].
  - intros i h s Hi Hi' Hp. apply (zipMappings_stores headers selectors ∅ i); try assumption.
    + apply list_elem_of_lookup_2 in Hi. apply list_elem_of_In in Hi.
      destruct (proj1 (List.Forall_forall _ _) Hh h Hi) as (_ & Hhead & _).
      destruct h; [destruct Hhead|discriminate].
    + apply list_elem_of_lookup_2 in Hi'. apply list_elem_of_In in Hi'.
      destruct (proj1 (List.Forall_forall _ _) Hs s Hi') as (_ & Hhead & _).
      destruct s; [destruct Hhead|discriminate].
  - exact Hkeys.
  - destruct (zipMappings headers selectors ∅ !! js "__proto__") as [v|] eqn:E; [|reflexivity].
    destruct (Hkeys _ _ E) as [Hp _]. congruence.
Qed.

Lemma loadMappings_entries_witness :
  exists l0 l1 rest,
    nonBlankLines (js "address,price" ++ [10] ++ js ".addr,.price" ++ [10]) = l0 :: l1 :: rest
    /\ exists i, parseCSVLine l0 !! i = Some (js "price")
                 /\ parseCSVLine l1 !! i = Some (js ".price").
Proof.
  destruct (loadMappings_entries
              (Response true (js "OK") (js "address,price" ++ [10] ++ js ".addr,.price" ++ [10]))
              (<[js "price" := js ".price"]> (<[js "address" := js ".addr"]> ∅)))
    as (st & csv & l0 & l1 & rest & Heq & Hlines & Hall).
  - vm_compute. reflexivity.
  - injection Heq as <- <-. exists l0, l1, rest. split; [exact Hlines|].
    destruct (Hall (js "price") (js ".price")) as (_ & _ & Hi); [|exact Hi].
    vm_compute. reflexivity.
Defined.

Lemma loadMappings_round_trip_witness :
  exists mappings,
    loadMappings (Response true (js "OK")
                    (csvOf [ js "title"; js "rooms" ] [ js "h1"; js "span:not(.a,.b)" ]))
    = Ok mappings
    /\ mappings !! js "rooms" = Some (js "span:not(.a,.b)").
Proof.
  destruct (loadMappings_round_trip (js "OK") [ js "title"; js "rooms" ]
              [ js "h1"; js "span:not(.a,.b)" ]) as (m & Hm & Hget & _).
  - constructor; [|constructor; [|constructor]].
    + split; [apply field_plain; repeat constructor|].
      split; [reflexivity|]. split; [reflexivity|]. repeat constructor; discriminate.
    + split; [apply field_plain; repeat constructor|].
      split; [reflexivity|]. split; [reflexivity|]. repeat constructor; discriminate.
  - constructor; [|constructor; [|constructor]].
    + split; [apply field_plain; repeat constructor|].
      split; [reflexivity|]. split; [reflexivity|]. repeat constructor; discriminate.
    + split.
      * apply (field_bracket (js "span:not") 40 (js ".a,.b") 41 []).
        -- repeat constructor.
        -- reflexivity.
        -- repeat (constructor; [first [left; reflexivity|right; reflexivity]|]). constructor.
        -- reflexivity.
        -- apply field_plain. constructor.
      * split; [reflexivity|]. split; [reflexivity|]. repeat constructor; discriminate.
  - apply NoDup_cons. split; [|apply NoDup_singleton].
    intros H. apply list_elem_of_singleton in H. discriminate.
  - discriminate.
  - reflexivity.
  - exists m. split; [exact Hm|]. apply (Hget 1%nat); [reflexivity|reflexivity|discriminate].
Defined.

(** ** The listing storage *)

Section StorageProofs.
Context {L : Type}.

(** A listing that is saved is the one read back, with the time of the
    save, whatever was stored before; the search results are not touched.
    Saving nothing throws. *)
Theorem latest_listing_round_trip (listing : item L) (now : N) (s : gmap jsstring (item L)) :
  (truthyItem listing = true ->
   exists s', saveLatestListing listing now s = Ok s'
              /\ getLatestListing s' = (listing, ITime now)
              /\ getSearchResults s' = getSearchResults s)
  /\ (truthyItem listing = false ->
      saveLatestListing listing now s = Throw (Error (js "Listing payload is required."))).
Proof.
  unfold saveLatestListing. split; intros H; rewrite H; cbn [negb]; [|reflexivity].
  eexists. split; [reflexivity|]. unfold getLatestListing, getSearchResults. split.
  - rewrite lookup_insert_ne by discriminate. rewrite lookup_insert_eq, lookup_insert_eq.
    destruct listing as [| | |[|p]]; try discriminate; reflexivity.
  - rewrite !lookup_insert_ne by discriminate. reflexivity.
Qed.

(** An array of listings that is saved is the one read back, with the time
    of the save, and the latest listing is not touched; anything that is not
    an array is refused. An empty storage reads as no listing and an empty
    array of results. *)
Theorem search_results_round_trip (listings : item L) (now : N) (s : gmap jsstring (item L)) :
  (isArray listings = true ->
   exists s', saveSearchResults listings now s = Ok s'
              /\ getSearchResults s' = (listings, ITime now)
              /\ getLatestListing s' = getLatestListing s)
  /\ (isArray listings = false ->
      saveSearchResults listings now s = Throw (Error (js "Listings must be an array.")))
  /\ getLatestListing (∅ : gmap jsstring (item L)) = (INull, INull)
  /\ getSearchResults (∅ : gmap jsstring (item L)) = (IArray [], INull).
Proof.
  unfold saveSearchResults. split; [|split; [|split; reflexivity]]; intros H; rewrite H;
    cbn [negb]; [|reflexivity].
  eexists. split; [reflexivity|]. unfold getLatestListing, getSearchResults. split.
  - rewrite lookup_insert_ne by discriminate. rewrite lookup_insert_eq, lookup_insert_eq.
    destruct listings; try discriminate; reflexivity.
  - rewrite !lookup_insert_ne by discriminate. reflexivity.
Qed.

End StorageProofs.

Lemma latest_listing_round_trip_witness :
  exists s', saveLatestListing (IListing 7%nat) 1700000000000 ∅ = Ok s'
             /\ getLatestListing s' = (IListing 7%nat, ITime 1700000000000).
Proof.
  destruct (proj1 (latest_listing_round_trip (IListing 7%nat) 1700000000000 ∅) eq_refl)
    as (s' & H1 & H2 & _).
  exists s'. split; assumption.
Defined.

Lemma search_results_round_trip_witness :
  exists s', saveSearchResults (IArray [1%nat; 2%nat]) 5 ∅ = Ok s'
             /\ getSearchResults s' = (IArray [1%nat; 2%nat], ITime 5).
Proof.
  destruct (proj1 (search_results_round_trip (IArray [1%nat; 2%nat]) 5 ∅) eq_refl)
    as (s' & H1 & H2 & _).
  exists s'. split; assumption.
Defined.

(** ** Listing addresses *)

Lemma dec_gt_mono (m e k k' : Z) : (k' <= k)%Z -> dec_gt m e k = true -> dec_gt m e k' = true.
Proof.
  unfold dec_gt. intros Hk. destruct (0 <=? e)%Z eqn:He.
  - intros H%Z.ltb_lt. apply Z.ltb_lt. lia.
  - intros H%Z.ltb_lt. apply Z.ltb_lt. apply Z.leb_gt in He.
    assert (Hp : (0 < 10 ^ (- e))%Z) by (apply Z.pow_pos_nonneg; lia).
    assert (Hm : (k' * 10 ^ (- e) <= k * 10 ^ (- e))%Z)
      by (apply Z.mul_le_mono_nonneg_r; lia).
    lia.
Qed.

Lemma gt_mono (x : jsnum) (k k' : Z) : (k' <= k)%Z -> gt x k = true -> gt x k' = true.
Proof. intros Hk. destruct x as [|neg|m e]; simpl; [tauto|tauto|apply dec_gt_mono; exact Hk]. Qed.

Section ListingUrlProofs.
Context {E C : Type}.
Context (containerOf : E -> option C) (hidden : C -> bool) (urlOf : E -> option jsstring).

Lemma collected_skip (maxListings : option jsnum) (link : E) (rest : list E)
    (urls out : list jsstring) :
  (forall u c, u <> [] -> includes u (js "/pr/") = true -> containerOf link = Some c ->
               hidden c = false -> urlOf link = Some u -> In u urls) ->
  collected containerOf hidden urlOf maxListings rest urls out -> collected containerOf hidden urlOf maxListings (link :: rest) urls out.
Proof.
  intros Hhere (H1 & H2 & H3 & H4 & H5).
  split; [exact H1|]. split; [|split; [exact H3|split; [|exact H5]]].
  - intros u Hu. destruct (H2 u Hu) as [Hin|[Hpr (l & c & Hl & Hrest)]]; [left; exact Hin|].
    right. split; [exact Hpr|]. exists l, c. split; [right; exact Hl|exact Hrest].
  - intros Hnone u Hpr Hne (l & c & [<-|Hl] & Hc & Hh & Hu).
    + apply H5. eapply Hhere; eassumption.
    + apply H4; try assumption. exists l, c. auto.
Qed.

Lemma collectFrom_spec (maxListings : option jsnum) (links : list E) :
  forall urls (processedUrls : gset jsstring) out,
  NoDup urls ->
  (forall u, u ∈ processedUrls <-> In u urls) ->
  collectFrom containerOf hidden urlOf maxListings links urls processedUrls = Ok out ->
  collected containerOf hidden urlOf maxListings links urls out.
Proof.
  induction links as [|link rest IH]; intros urls processed out Hnd Hproc; cbn [collectFrom].
  - intros [= <-]. split; [exact Hnd|]. split; [auto|]. split; [auto|]. split; [|auto].
    intros _ u _ _ (l & c & [] & _).
  - destruct (limitReached maxListings urls) eqn:Hlim.
    { intros [= <-]. split; [exact Hnd|]. split; [auto|]. split; [auto|]. split; [|auto].
      intros ->. discriminate. }
    destruct (containerOf link) as [container|] eqn:Hcont; [|discriminate].
    destruct (hidden container) eqn:Hhid.
    { intros H. apply collected_skip; [|exact (IH _ _ _ Hnd Hproc H)].
      intros u c _ _ Hc Hh _. congruence. }
    destruct (urlOf link) as [[|c0 url]|] eqn:Hurl.
    { intros H. apply collected_skip; [|exact (IH _ _ _ Hnd Hproc H)].
      intros u c Hne _ _ _ Hu. congruence. }
    2:{ intros H. apply collected_skip; [|exact (IH _ _ _ Hnd Hproc H)].
        intros u c _ _ _ _ Hu. congruence. }
    destruct (includes (c0 :: url) (js "/pr/")) eqn:Hpr.
    2:{ cbn [andb]. intros H. apply collected_skip; [|exact (IH _ _ _ Hnd Hproc H)].
        intros u c _ Hu _ _ Hu'. rewrite Hurl in Hu'. injection Hu' as <-. congruence. }
    cbn [andb]. destruct (negb (bool_decide _)) eqn:Hseen;
      [apply negb_true_iff in Hseen|apply negb_false_iff in Hseen].
    2:{ intros H. apply collected_skip; [|exact (IH _ _ _ Hnd Hproc H)].
      intros u c _ _ _ _ Hu'. rewrite Hurl in Hu'. injection Hu' as <-.
      apply Hproc. apply bool_decide_eq_true in Hseen. exact Hseen. }
    apply bool_decide_eq_false in Hseen. intros H.
    assert (Hfresh : ~ In (c0 :: url) urls) by (intros Hin; apply Hseen, Hproc, Hin).
    assert (Hnd' : NoDup (urls ++ [c0 :: url])).
    { apply NoDup_app. split; [exact Hnd|]. split; [|apply NoDup_singleton].
      intros x Hx Hx'. apply list_elem_of_In in Hx. apply list_elem_of_singleton in Hx'.
      subst x. exact (Hfresh Hx). }
    assert (Hproc' : forall u, u ∈ ({[c0 :: url]} ∪ processed : gset jsstring)
                               <-> In u (urls ++ [c0 :: url])).
    { intros u. rewrite elem_of_union, elem_of_singleton, in_app_iff, Hproc. cbn [In].
      intuition congruence. }
    destruct (IH _ _ _ Hnd' Hproc' H) as (H1 & H2 & H3 & H4 & H5).
    split; [exact H1|]. split; [|split; [|split]].
    + intros u Hu. destruct (H2 u Hu) as [Hin|[Hp (l & c & Hl & Hrest)]].
      * apply in_app_iff in Hin as [Hin|[<-|[]]]; [left; exact Hin|].
        right. split; [exact Hpr|]. exists link, container. split; [left; reflexivity|]. auto.
      * right. split; [exact Hp|]. exists l, c. split; [right; exact Hl|exact Hrest].
    + intros m n -> Hn Hlen. apply (H3 m n eq_refl Hn). rewrite length_app. cbn [length].
      cbn [limitReached] in Hlim. apply negb_false_iff in Hlim.
      destruct (Nat.le_gt_cases n (length urls)) as [Hle|Hgt]; [|lia].
      rewrite (gt_mono m (Z.of_nat (length urls)) (Z.of_nat n) ltac:(lia) Hlim) in Hn.
      discriminate.
    + intros Hnone u Hp Hne (l & c & [<-|Hl] & Hc & Hh & Hu).
      * apply H5, in_app_iff. right. left. congruence.
      * apply H4; try assumption. exists l, c. auto.
    + intros u Hu. apply H5, in_app_iff. left. exact Hu.
Qed.

Lemma collectFrom_returns (maxListings : option jsnum) (links : list E) :
  (forall link, In link links -> containerOf link <> None) ->
  forall urls processedUrls,
  exists out, collectFrom containerOf hidden urlOf maxListings links urls processedUrls = Ok out.
Proof.
  induction links as [|link rest IH]; intros Hc urls processed; cbn [collectFrom]; [eauto|].
  destruct (limitReached maxListings urls); [eauto|].
  assert (Hrest : forall l, In l rest -> containerOf l <> None) by (intros l Hl; apply Hc; right; exact Hl).
  destruct (containerOf link) as [container|] eqn:Hcont; [|destruct (Hc link (or_introl eq_refl) Hcont)].
  destruct (hidden container); [apply IH, Hrest|].
  destruct (urlOf link) as [[|c url]|]; [apply IH, Hrest| |apply IH, Hrest].
  match goal with |- context [if ?b then _ else _] => destruct b end; apply IH, Hrest.
Qed.

(** When every link has a container, the collection returns addresses that
    are pairwise different, each containing "/pr/" and carried by a link that
    is shown; with a positive limit no more than that many are collected,
    and without a limit the address of every shown link is collected. *)
Theorem collectListingUrls_distinct_and_bounded (maxListings : option jsnum)
    (listingLinks : list E) :
  (forall link, In link listingLinks -> containerOf link <> None) ->
  exists out,
    collectListingUrls containerOf hidden urlOf maxListings listingLinks = Ok out
    /\ NoDup out
    /\ (forall u, In u out ->
          includes u (js "/pr/") = true /\ shownLink containerOf hidden urlOf listingLinks u)
    /\ (forall n, maxListings = Some (Dec (Z.of_nat n) 0) -> (0 < n)%nat ->
          (length out <= n)%nat)
    /\ (limitOf maxListings = None ->
        forall u, includes u (js "/pr/") = true -> u <> [] ->
                  shownLink containerOf hidden urlOf listingLinks u -> In u out).
Proof.
  intros Hc. unfold collectListingUrls.
  destruct (collectFrom_returns (limitOf maxListings) listingLinks Hc [] ∅) as [out H].
  exists out. split; [exact H|].
  apply collectFrom_spec in H as (H1 & H2 & H3 & H4 & _).
  - split; [exact H1|]. split; [|split; [|exact H4]].
    + intros u Hu. destruct (H2 u Hu) as [[]|Hr]. exact Hr.
    + intros n -> Hn. apply (H3 (Dec (Z.of_nat n) 0) n); [| |cbn [length]; lia].
      * unfold limitOf. destruct n; [lia|]. cbn [truthy Z.of_nat andb gt dec_gt Z.leb Z.compare].
        replace (0 <? Z.pos (Pos.of_succ_nat n) * 10 ^ 0)%Z with true; [reflexivity|].
        symmetry. apply Z.ltb_lt. lia.
      * cbn [gt dec_gt Z.leb Z.compare]. apply Z.ltb_ge. lia.
  - constructor.
  - intros u. split; [intros Hu; apply elem_of_empty in Hu; destruct Hu|intros []].
Qed.

End ListingUrlProofs.

Lemma collectListingUrls_distinct_and_bounded_witness :
  exists out,
    collectListingUrls (E := nat) (fun _ => Some tt) (fun _ => false)
      (fun i => Some (js "https://www.myhome.ge/pr/1")) (Some (Dec 1 0)) [ 0%nat; 1%nat ] = Ok out
    /\ NoDup out /\ (length out <= 1)%nat.
Proof.
  destruct (collectListingUrls_distinct_and_bounded (E := nat) (fun _ => Some tt)
              (fun _ => false) (fun i => Some (js "https://www.myhome.ge/pr/1"))
              (Some (Dec 1 0)) [ 0%nat; 1%nat ])
    as (out & H & Hnd & _ & Hlen & _).
  - intros link _. discriminate.
  - exists out. split; [exact H|]. split; [exact Hnd|]. apply Hlen; [reflexivity|lia].
Defined.

(** ** Status and condition *)

(** Every status that is not empty is mapped to one of the three options of
    the form (an unknown one to "ძველი აშენებული"), a missing one to [null],
    and each option is mapped to itself. *)
Theorem mapMyhomeToSsStatus_is_an_option :
  (forall v, truthy v = true ->
     exists o, mapMyhomeToSsStatus v = Some o /\ In o statusOptions)
  /\ (forall v, truthy v = false -> mapMyhomeToSsStatus v = None)
  /\ (forall o, In o statusOptions -> mapMyhomeToSsStatus (VStr o) = Some o)
  /\ (forall s, s <> [] ->
        includes (toLowerCase (trim s)) (js "ახალი") = false ->
        includes (toLowerCase (trim s)) (js "მშენებარე") = false ->
        mapMyhomeToSsStatus (VStr s) = Some (js "ძველი აშენებული")).
Proof.
  split; [|split; [|split]].
  - intros v Hv. unfold mapMyhomeToSsStatus. rewrite Hv. cbn [negb]. cbv zeta.
    unfold statusOptions.
    repeat match goal with |- context [if ?b then _ else _] => destruct b end;
      eexists; (split; [reflexivity|]); cbn [In]; tauto.
  - intros v Hv. unfold mapMyhomeToSsStatus. rewrite Hv. reflexivity.
  - intros o Ho. unfold statusOptions in Ho. cbn [In] in Ho.
    repeat (destruct Ho as [<-|Ho]; [vm_compute; reflexivity|]). destruct Ho.
  - intros s Hne H1 H2. unfold mapMyhomeToSsStatus.
    destruct s as [|c s]; [congruence|]. cbn [truthy negb valToString]. cbv zeta.
    rewrite H1, H2. match goal with |- (if ?b then _ else _) = _ => destruct b end; reflexivity.
Qed.

Lemma mapMyhomeToSsStatus_is_an_option_witness :
  exists o, mapMyhomeToSsStatus (VStr (js "ახალი აშენებული კორპუსი")) = Some o
            /\ In o statusOptions.
Proof.
  apply (proj1 mapMyhomeToSsStatus_is_an_option (VStr (js "ახალი აშენებული კორპუსი"))).
  reflexivity.
Defined.

(** The condition mapped from a scraped one is one of the eight options of
    the form, or [null]; the text the step then looks for is that option, or
    the scraped text trimmed, and each of the eight options is looked for as
    it is. *)
Theorem condition_is_an_option :
  (forall v o, mapMyhomeConditionToSsCondition v = Some o -> In o conditionOptions)
  /\ (forall v t, conditionTextOf v = Some t ->
        In t conditionOptions \/ t = trim (valToString v))
  /\ (forall v, truthy v = false -> conditionTextOf v = None)
  /\ (forall o, In o conditionOptions -> conditionTextOf (VStr o) = Some o)
  /\ conditionTextOf (VStr (js "ახალი გარემონტებული")) = Some (js "ახალი რემონტით")
  /\ conditionTextOf (VStr (js "თეთრი პლიუსი")) = Some (js "თეთრი კარკასი").
Proof.
  assert (Hrange : forall v o, mapMyhomeConditionToSsCondition v = Some o ->
                               In o conditionOptions).
  { intros v o. unfold mapMyhomeConditionToSsCondition. cbv zeta. unfold conditionOptions.
    repeat match goal with |- context [if ?b then _ else _] => destruct b end;
      try discriminate; intros [= <-]; cbn [In]; tauto. }
  split; [exact Hrange|]. split; [|split; [|split; [|split]]].
  - intros v t. unfold conditionTextOf. destruct (negb (truthy v)); [discriminate|].
    destruct (mapMyhomeConditionToSsCondition v) as [[|c o]|] eqn:Hm; intros [= <-].
    + right. reflexivity.
    + left. apply (Hrange v). exact Hm.
    + right. reflexivity.
  - intros v Hv. unfold conditionTextOf. rewrite Hv. reflexivity.
  - intros o Ho. unfold conditionOptions in Ho. cbn [In] in Ho.
    repeat (destruct Ho as [<-|Ho]; [vm_compute; reflexivity|]). destruct Ho.
  - vm_compute. reflexivity.
  - vm_compute. reflexivity.
Qed.

Lemma condition_is_an_option_witness :
  In (js "გარემონტებული") conditionOptions.
Proof.
  apply (proj1 condition_is_an_option (VStr (js "კარგად გარემონტებული")) (js "გარემონტებული")).
  vm_compute. reflexivity.
Defined.

(** ** Floors *)

(** A floor text "a/b" fills the floor field with [a] and the field of the
    number of floors with [b], both trimmed; without a part after the slash,
    or without a slash, the number of floors is not filled, and a text
    without a slash is the floor. *)
Theorem floor_and_total_floors (a b : jsstring) :
  free 47 a -> free 47 b ->
  floorValueOf (VStr (a ++ 47 :: b)) = trim a
  /\ totalFloorsOf (VStr (a ++ 47 :: b)) = (if nonEmpty (trim b) then Some (trim b) else None)
  /\ floorValueOf (VStr a) = trim a
  /\ totalFloorsOf (VStr a) = None.
Proof.
  intros Ha Hb. unfold floorValueOf, totalFloorsOf. cbn [valToString]. cbv zeta.
  rewrite includes_single_app, (includes_single_free a 47 Ha), (split_app 47 a b Ha),
    (split_free 47 b Hb).
  cbn [hd]. repeat split. destruct (trim b); reflexivity.
Qed.

Lemma floor_and_total_floors_witness :
  floorValueOf (VStr (js "2 " ++ 47 :: js " 12")) = js "2"
  /\ totalFloorsOf (VStr (js "2 " ++ 47 :: js " 12")) = Some (js "12").
Proof.
  destruct (floor_and_total_floors (js "2 ") (js " 12")) as (H1 & H2 & _).
  - repeat constructor; discriminate.
  - repeat constructor; discriminate.
  - split; [exact H1|exact H2].
Defined.

(** ** The house number *)

(** Where the pattern does not match, [exec] moves on. *)
Lemma execFrom_skip (r : re) (rest : jsstring) (fuel : nat) (pre : jsstring) :
  forall b,
  (forall x y, pre = x ++ y -> y <> [] ->
     matchHere r (mkSt (rev x ++ b) (y ++ rest) []) = None) ->
  execFrom r (length pre + fuel) (mkSt b (pre ++ rest) [])
  = execFrom r fuel (mkSt (rev pre ++ b) rest []).
Proof.
  induction pre as [|c pre IH]; intros b H; [reflexivity|].
  cbn [length Nat.add execFrom app].
  pose proof (H [] (c :: pre) eq_refl ltac:(discriminate)) as H0.
  cbn [rev app] in H0. rewrite H0.
  cbn [advance after before caps]. rewrite IH.
  - cbn [rev]. rewrite <- app_assoc. reflexivity.
  - intros x y -> Hy. specialize (H (c :: x) y eq_refl Hy).
    cbn [rev] in H. rewrite <- app_assoc in H. exact H.
Qed.

Lemma houseNumberRegex_needs_digit (b : jsstring) (c : N) (a : jsstring) :
  isDigit c = false -> matchHere houseNumberRegex (mkSt b (c :: a) []) = None.
Proof.
  intros Hc. unfold matchHere, houseNumberRegex.
  rewrite run_seq_cons, run_grp, run_cat. unfold plus. rewrite run_cat, run_chr_cons, Hc.
  reflexivity.
Qed.

(** A number: digits, then letters, dashes and slashes that do not start
    with a digit. *)
Lemma houseNumberRegex_matches (b ds t : jsstring) :
  ds <> [] -> digits ds -> Forall (fun c => isHouseNumberUnit c = true) t ->
  match t with c :: _ => isDigit c = false | [] => True end ->
  exists mt, matchHere houseNumberRegex (mkSt b (ds ++ t) []) = Some mt
             /\ group mt 1 = ds ++ t.
Proof.
  intros Hne Hd Ht Hhead. destruct ds as [|d0 ds]; [congruence|].
  inversion Hd as [|? ? Hd0 Hds]; subst.
  eexists. split.
  - unfold matchHere, houseNumberRegex.
    rewrite run_seq_cons, run_grp, run_cat. unfold plus. rewrite run_cat. cbn [app].
    rewrite run_chr_cons, Hd0.
    apply (run_star_greedy_all _ ds); [exact Hds|exact Hhead|].
    rewrite <- (app_nil_r t) at 1.
    apply (run_star_greedy_all _ t); [exact Ht|exact I|].
    cbn [before after caps].
    replace (rev t ++ rev ds ++ d0 :: b) with (rev ((d0 :: ds) ++ t) ++ b)
      by (cbn [app rev]; rewrite rev_app_distr, <- !app_assoc; reflexivity).
    rewrite captured_consumed.
    rewrite run_seq_cons, run_star_greedy_ws. cbn [after].
    rewrite run_seq_cons. cbn [run after]. reflexivity.
  - reflexivity.
Qed.

Lemma splitHouseNumber_spec (street ds t : jsstring) :
  Forall (fun c => isDigit c = false) street ->
  ds <> [] -> digits ds -> Forall (fun c => isHouseNumberUnit c = true) t ->
  match t with c :: _ => isDigit c = false | [] => True end ->
  splitHouseNumber (street ++ ds ++ t) = (trim street, Some (ds ++ t)).
Proof.
  intros Hs Hne Hd Ht Hhead. unfold splitHouseNumber, exec.
  replace (length (street ++ ds ++ t)) with (length street + length (ds ++ t))%nat
    by (symmetry; apply length_app).
  rewrite execFrom_skip.
  - destruct (houseNumberRegex_matches (rev street ++ []) ds t Hne Hd Ht Hhead) as (mt & Hm & Hg).
    destruct (length (ds ++ t)); cbn [execFrom]; rewrite Hm, Hg; cbn [before];
      rewrite app_nil_r, rev_involutive; reflexivity.
  - intros x y -> Hy. destruct y as [|c y]; [congruence|]. cbn [app].
    apply houseNumberRegex_needs_digit.
    apply Forall_app in Hs as [_ Hs]. inversion Hs; assumption.
Qed.

Lemma trim_snoc_space (c : N) (s : jsstring) :
  isSpace c = false -> trim ((c :: s) ++ [32]) = trim (c :: s).
Proof.
  intros H. unfold trim. change ((c :: s) ++ [32]) with (c :: (s ++ [32])).
  rewrite !trimStart_head by exact H. unfold trimEnd.
  change (c :: s ++ [32]) with ((c :: s) ++ [32]). rewrite rev_app_distr. reflexivity.
Qed.

Lemma plainUnit_not_digit (c : N) : plainUnit c = true -> isDigit c = false.
Proof.
  unfold plainUnit. intros H. apply orb_true_iff in H as [H|H]; [apply orb_true_iff in H as [H|H]|].
  - unfold isMkhedruli in H. unfold isDigit. props. apply andb_false_iff. right.
    apply N.leb_gt. lia.
  - apply N.eqb_eq in H as ->. reflexivity.
  - apply N.eqb_eq in H as ->. reflexivity.
Qed.

(** An address that ends in a house number is split into the street and the
    number: with a street name of Georgian words, a street-type word and a
    number (digits, then possibly a letter or a fraction), the street typed
    into the form is the bare street name and the house number is the number;
    without digits in the address there is no house number and the address is
    the street. *)
Theorem street_and_house_number (base w ds t : jsstring) :
  streetName base -> In w streetTypeWords ->
  ds <> [] -> digits ds -> Forall (fun c => isHouseNumberUnit c = true) t ->
  match t with c :: _ => isDigit c = false | [] => True end ->
  splitHouseNumber (base ++ 32 :: w ++ 32 :: ds ++ t) = (base ++ 32 :: w, Some (ds ++ t))
  /\ streetValueOf (base ++ 32 :: w ++ 32 :: ds ++ t) = base
  /\ houseNumberToUse (base ++ 32 :: w ++ 32 :: ds ++ t) = Some (ds ++ t)
  /\ splitHouseNumber (base ++ 32 :: w) = (base ++ 32 :: w, None)
  /\ streetValueOf (base ++ 32 :: w) = base.
Proof.
  intros Hb Hw Hne Hd Ht Hhead. pose proof Hb as [Hhead_b Hsp].
  assert (Hplain : Forall (fun c => plainUnit c = true) (base ++ 32 :: w)).
  { apply Forall_app. split; [apply spaced_plain; exact Hsp|].
    constructor; [reflexivity|apply streetTypeWords_plain; exact Hw]. }
  assert (Hnd : Forall (fun c => isDigit c = false) ((base ++ 32 :: w) ++ [32])).
  { apply Forall_app. split; [|repeat constructor].
    eapply Forall_impl; [exact Hplain|]. apply plainUnit_not_digit. }
  assert (Htrim : trim ((base ++ 32 :: w) ++ [32]) = base ++ 32 :: w).
  { rewrite <- (suffixed_trim base w Hb Hw) at 2.
    destruct base as [|c0 base']; [destruct Hhead_b|].
    apply (trim_snoc_space c0). apply mkhedruli_facts. exact Hhead_b. }
  assert (Hsplit : splitHouseNumber (base ++ 32 :: w ++ 32 :: ds ++ t)
                   = (base ++ 32 :: w, Some (ds ++ t))).
  { pose proof (splitHouseNumber_spec _ ds t Hnd Hne Hd Ht Hhead) as H.
    rewrite Htrim in H. etransitivity; [|exact H]. f_equal.
    rewrite <- !app_assoc. cbn [app]. reflexivity. }
  assert (Hnone : splitHouseNumber (base ++ 32 :: w) = (base ++ 32 :: w, None)).
  { unfold splitHouseNumber, exec.
    rewrite (execFrom_nowhere (fun s => Forall (fun c => isDigit c = false) (after s))).
    - reflexivity.
    - intros [b [|c a] cs] Hs; cbn [after] in Hs; [reflexivity|].
      unfold matchHere, houseNumberRegex.
      rewrite run_seq_cons, run_grp, run_cat. unfold plus. rewrite run_cat, run_chr_cons.
      inversion Hs as [|? ? Hc _]; subst. rewrite Hc. reflexivity.
    - intros [b a cs] c s1. unfold advance. cbn [after before caps].
      destruct a as [|x a]; [discriminate|]. intros Hs [= <- <-]. cbn [after].
      inversion Hs; assumption.
    - cbn [after]. eapply Forall_impl; [exact Hplain|]. apply plainUnit_not_digit. }
  assert (Hstreet : trim (normalizeStreetForSs (base ++ 32 :: w)) = base).
  { rewrite (normalizeStreetForSs_suffix base w Hb Hw). apply streetName_trim. exact Hb. }
  split; [exact Hsplit|]. split; [|split; [|split]].
  - unfold streetValueOf. rewrite Hsplit. exact Hstreet.
  - unfold houseNumberToUse. rewrite Hsplit. cbn [snd].
    destruct ds as [|d0 ds']; [congruence|]. reflexivity.
  - exact Hnone.
  - unfold streetValueOf. rewrite Hnone. exact Hstreet.
Qed.

Lemma street_and_house_number_witness :
  streetValueOf (js "ასპინძის" ++ 32 :: js "ქ." ++ 32 :: js "5" ++ js "ა") = js "ასპინძის"
  /\ houseNumberToUse (js "ასპინძის" ++ 32 :: js "ქ." ++ 32 :: js "5" ++ js "ა")
     = Some (js "5" ++ js "ა").
Proof.
  destruct (street_and_house_number (js "ასპინძის") (js "ქ.") (js "5") (js "ა"))
    as (_ & H1 & H2 & _).
  - split; reflexivity.
  - unfold streetTypeWords. cbn [In]. right. left. reflexivity.
  - discriminate.
  - repeat constructor.
  - repeat constructor.
  - reflexivity.
  - split; [exact H1|exact H2].
Defined.

(** ** Retries that succeed *)

Section RetrySuccess.
Context {E : Type}.
Context (fc : nat -> option E) (fd : nat -> jsstring -> option E) (bc : nat -> option E).

(** The category gate up to the turn at which the element is found: the
    timer of the property-type step is pending. *)
Lemma trySelectCategory_finds (k : nat) (categoryElement : E) (fuel : nat) :
  (k <= 3)%nat ->
  (forall j, (j < k)%nat -> fc (500 * j)%nat = None) ->
  fc (500 * k)%nat = Some categoryElement ->
  runLoop fc fd bc [] (k + fuel) (trySelectCategory fc 3 start)
  = runLoop fc fd bc [] fuel
      (mkLoop (500 * k) [((500 * k + 500)%nat, SelectPropertyType)] k
         (retried TrySelectCategory k
          ++ [ Clicked categoryElement; Scheduled SelectPropertyType 500 ])).
Proof.
  intros Hk Hnone Hfound. unfold start.
  destruct k as [|[|[|[|k]]]]; [| | | |lia]; cbn [Nat.mul Nat.add] in *.
  - unfold trySelectCategory. cbn [clock]. rewrite Hfound. reflexivity.
  - pose proof (Hnone 0%nat ltac:(lia)) as H0. cbn in H0.
    unfold trySelectCategory at 1. cbn [clock]. rewrite H0. cbn.
    unfold trySelectCategory. cbn [clock]. rewrite Hfound. reflexivity.
  - pose proof (Hnone 0%nat ltac:(lia)) as H0. pose proof (Hnone 1%nat ltac:(lia)) as H1.
    cbn in H0, H1.
    unfold trySelectCategory at 1. cbn [clock]. rewrite H0. cbn.
    unfold trySelectCategory at 1. cbn [clock]. rewrite H1. cbn.
    unfold trySelectCategory. cbn [clock]. rewrite Hfound. reflexivity.
  - pose proof (Hnone 0%nat ltac:(lia)) as H0. pose proof (Hnone 1%nat ltac:(lia)) as H1.
    pose proof (Hnone 2%nat ltac:(lia)) as H2. cbn in H0, H1, H2.
    unfold trySelectCategory at 1. cbn [clock]. rewrite H0. cbn.
    unfold trySelectCategory at 1. cbn [clock]. rewrite H1. cbn.
    unfold trySelectCategory at 1. cbn [clock]. rewrite H2. cbn.
    unfold trySelectCategory. cbn [clock]. rewrite Hfound. reflexivity.
Qed.

(** When the category element turns up at the first attempt or at one of the
    three retries, then after that many retries it is clicked once, nothing is
    thrown, and the timer of the property-type step is pending, due 500 ms
    later; however many turns the event loop takes after that, its log starts
    with these events. *)
Theorem category_found_within_retries (k : nat) (categoryElement : E) :
  (k <= 3)%nat ->
  (forall j, (j < k)%nat -> fc (500 * j)%nat = None) ->
  fc (500 * k)%nat = Some categoryElement ->
  autofillListingForm fc fd bc k
  = (mkLoop (500 * k) [((500 * k + 500)%nat, SelectPropertyType)] k
       (retried TrySelectCategory k
        ++ [ Clicked categoryElement; Scheduled SelectPropertyType 500 ]), false)
  /\ (forall fuel, (k <= fuel)%nat -> exists rest,
        events (fst (autofillListingForm fc fd bc fuel))
        = (retried TrySelectCategory k
           ++ [ Clicked categoryElement; Scheduled SelectPropertyType 500 ]) ++ rest).
Proof.
  intros Hk Hnone Hfound. unfold autofillListingForm. split.
  - pose proof (trySelectCategory_finds k categoryElement 0 Hk Hnone Hfound) as Hs.
    rewrite Nat.add_0_r in Hs. rewrite Hs. reflexivity.
  - intros fuel Hfuel. replace fuel with (k + (fuel - k))%nat by lia.
    rewrite (trySelectCategory_finds k categoryElement _ Hk Hnone Hfound).
    destruct (fuel - k)%nat as [|n].
    + exists []. rewrite app_nil_r. reflexivity.
    + exists [Started SelectPropertyType].
      rewrite runLoop_turn with
        (l' := mkLoop (500 * k + 500) [] k
                 ((retried TrySelectCategory k
                   ++ [ Clicked categoryElement; Scheduled SelectPropertyType 500 ])
                  ++ [Started SelectPropertyType])) by reflexivity.
      rewrite runLoop_idle by reflexivity. reflexivity.
Qed.


(** When neither the deal type nor its alternative is ever located, the step
    stops after three retries, logs the failure and throws once; nothing is
    clicked and no timer is left. *)
Theorem dealType_never_found (scrapedDealType : option jsstring) (fuel : nat) :
  (5 <= fuel)%nat ->
  (forall t dealType, fd t dealType = None) ->
  selectDealType fc fd bc scrapedDealType fuel
  = (mkLoop 1500 [] 3
       (retried TrySelectDealType 3
        ++ [ LoggedError (js "Could not find deal type element after retries");
             Uncaught (dealTypeError (normalizeDealType scrapedDealType)) ]), true).
Proof.
  intros Hfuel Hnone.
  do 5 (destruct fuel as [|fuel]; [lia|]). clear Hfuel.
  unfold selectDealType, start. cbv zeta.
  generalize (normalizeDealType scrapedDealType). intros dealType.
  unfold trySelectDealType. rewrite Hnone. cbn.
  unfold trySelectDealType. rewrite Hnone. cbn.
  unfold trySelectDealType. rewrite Hnone. cbn.
  unfold trySelectDealType. rewrite Hnone. cbn.
  unfold alternatives. destruct (JsString.eqb dealType _); cbn; rewrite Hnone; cbn;
    destruct fuel; reflexivity.
Qed.

(** When the bathroom container is there at the first check or at one of
    the five retries, [fillBathroomField] is called once and no error is
    logged. *)
Theorem bathroom_found_within_retries (k : nat) (container : E) (fuel : nat) :
  (k <= 5)%nat -> (7 <= fuel)%nat ->
  (forall j, (j < k)%nat -> bc (500 * j)%nat = None) ->
  bc (500 * k)%nat = Some container ->
  fillBathroomFieldWithRetry fc fd bc fuel
  = (mkLoop (500 * k) [] k (retried TryFillBathroom k ++ [ FillBathroomField ]), true).
Proof.
  intros Hk Hfuel Hnone Hfound.
  do 7 (destruct fuel as [|fuel]; [lia|]). clear Hfuel.
  unfold fillBathroomFieldWithRetry, start.
  assert (Hfail : forall j l, (j < k)%nat -> clock l = (500 * j)%nat -> retryCount l = j ->
            tryFillBathroom bc 5 500 l
            = setTimeout TryFillBathroom 500
                (emit (Retrying (S j)) (mkLoop (clock l) (timers l) (S j) (events l)))).
  { intros j l Hj Hc Hr. unfold tryFillBathroom. rewrite Hc, (Hnone j Hj), Hr.
    cbn [is_Some_b orb]. replace (5 <=? j)%nat with false by (symmetry; apply Nat.leb_gt; lia).
    reflexivity. }
  assert (Hhit : forall l, clock l = (500 * k)%nat ->
            tryFillBathroom bc 5 500 l = emit FillBathroomField l).
  { intros l Hc. unfold tryFillBathroom. rewrite Hc, Hfound. reflexivity. }
  destruct k as [|[|[|[|[|[|k]]]]]]; [| | | | | |lia].
  - rewrite Hhit by reflexivity. reflexivity.
  - rewrite (Hfail 0%nat) by (reflexivity || lia). cbn.
    rewrite Hhit by reflexivity. reflexivity.
  - rewrite (Hfail 0%nat) by (reflexivity || lia). cbn.
    rewrite (Hfail 1%nat) by (reflexivity || lia). cbn.
    rewrite Hhit by reflexivity. reflexivity.
  - rewrite (Hfail 0%nat) by (reflexivity || lia). cbn.
    rewrite (Hfail 1%nat) by (reflexivity || lia). cbn.
    rewrite (Hfail 2%nat) by (reflexivity || lia). cbn.
    rewrite Hhit by reflexivity. reflexivity.
  - rewrite (Hfail 0%nat) by (reflexivity || lia). cbn.
    rewrite (Hfail 1%nat) by (reflexivity || lia). cbn.
    rewrite (Hfail 2%nat) by (reflexivity || lia). cbn.
    rewrite (Hfail 3%nat) by (reflexivity || lia). cbn.
    rewrite Hhit by reflexivity. reflexivity.
  - rewrite (Hfail 0%nat) by (reflexivity || lia). cbn.
    rewrite (Hfail 1%nat) by (reflexivity || lia). cbn.
    rewrite (Hfail 2%nat) by (reflexivity || lia). cbn.
    rewrite (Hfail 3%nat) by (reflexivity || lia). cbn.
    rewrite (Hfail 4%nat) by (reflexivity || lia). cbn.
    rewrite Hhit by reflexivity. reflexivity.
Qed.

End RetrySuccess.

Lemma category_found_within_retries_witness :
  autofillListingForm (E := unit)
    (fun t => if (1000 <=? t)%nat then Some tt else None)
    (fun _ _ => None) (fun _ => None) 2
  = (mkLoop 1000 [(1500%nat, SelectPropertyType)] 2
       [ Retrying 1; Scheduled TrySelectCategory 500;
         Retrying 2; Scheduled TrySelectCategory 500;
         Clicked tt; Scheduled SelectPropertyType 500 ], false).
Proof.
  apply (proj1 (category_found_within_retries (E := unit)
                  (fun t => if (1000 <=? t)%nat then Some tt else None)
                  (fun _ _ => None) (fun _ => None) 2 tt
                  ltac:(lia)
                  ltac:(intros j Hj; destruct j as [|[|j]]; [reflexivity|reflexivity|lia])
                  eq_refl)).
Defined.


Lemma dealType_never_found_witness :
  snd (selectDealType (E := unit) (fun _ => None) (fun _ _ => None) (fun _ => None)
         (Some (js "იყიდება")) 5) = true.
Proof.
  rewrite (dealType_never_found (E := unit) (fun _ => None) (fun _ _ => None) (fun _ => None)
             (Some (js "იყიდება")) 5).
  - reflexivity.
  - lia.
  - reflexivity.
Defined.

Lemma bathroom_found_within_retries_witness :
  snd (fillBathroomFieldWithRetry (E := unit) (fun _ => None) (fun _ _ => None)
         (fun t => if (2000 <=? t)%nat then Some tt else None) 7) = true.
Proof.
  rewrite (bathroom_found_within_retries (E := unit) (fun _ => None) (fun _ _ => None)
             (fun t => if (2000 <=? t)%nat then Some tt else None) 4 tt 7).
  - reflexivity.
  - lia.
  - lia.
  - intros j Hj. destruct j as [|[|[|[|j]]]]; [reflexivity|reflexivity|reflexivity|reflexivity|lia].
  - reflexivity.
Defined.

(** ** Checks of the embedding on sample inputs *)

Example parseFloat_samples :
  parseFloat (js "  -12.5e-3xyz") = round64 (-125) (-4)
  /\ parseFloat (js "5.") = Dec 5 0
  /\ parseFloat (js ".5") = Dec 5 (-1)
  /\ parseFloat (js ".") = NaN
  /\ parseFloat (js "1.2.3") = round64 12 (-1)
  /\ parseFloat (js "1,5") = Dec 1 0
  /\ parseFloat (js "-Infinity") = Inf true
  /\ parseFloat (js "abc") = NaN.
Proof. repeat apply conj; vm_compute; reflexivity. Qed.

(** Reading rounds to the nearest Number. *)
Example parseFloat_rounds :
  parseFloat (js "9007199254740993") = Dec 9007199254740992 0
  /\ parseFloat (js "5.0000000000000000001") = Dec 5 0
  /\ parseFloat (js "0.1") = Dec 1000000000000000055511151231257827021181583404541015625 (-55)
  /\ parseFloat (js "1e23") = Dec 99999999999999991611392 0
  /\ parseFloat (js "1.7976931348623159e308") = Inf false
  /\ parseFloat (js "-1e400") = Inf true
  /\ parseFloat (js "2e-324") = Dec 0 0
  /\ parseFloat (js "105000.50") = Dec 1050005 (-1).
Proof. repeat apply conj; vm_compute; reflexivity. Qed.

Example toString_samples :
  toString (round64 10500050 (-2)) = js "105000.5"
  /\ toString (Dec 9 0) = js "9"
  /\ toString (round64 5 (-3)) = js "0.005"
  /\ toString (round64 123 (-9)) = js "1.23e-7"
  /\ toString (round64 1 21) = js "1e+21"
  /\ toString (Dec (-120) 0) = js "-120"
  /\ toString (Dec 0 0) = js "0"
  /\ toString (round64 1 (-1)) = js "0.1"
  /\ toString (round64 1 23) = js "1e+23"
  /\ toString (Dec 9007199254740992 0) = js "9007199254740992"
  /\ toString (Dec 1152921504606846976 0) = js "1152921504606847000"
  /\ toString (round64 5 (-324)) = js "5e-324".
Proof. repeat apply conj; vm_compute; reflexivity. Qed.

(** A Number reads back from its string as itself. *)
Example parseFloat_toString_samples :
  parseFloat (toString (round64 10500050 (-2))) = round64 10500050 (-2)
  /\ parseFloat (toString (round64 123 (-9))) = round64 123 (-9)
  /\ parseFloat (toString (round64 1 21)) = round64 1 21
  /\ parseFloat (toString (round64 (-75) (-1))) = round64 (-75) (-1)
  /\ parseFloat (toString (round64 1 (-1))) = round64 1 (-1)
  /\ parseFloat (toString (Dec 9007199254740992 0)) = Dec 9007199254740992 0.
Proof. repeat apply conj; vm_compute; reflexivity. Qed.

Example parsePriceText_samples :
  parsePriceText (js "105 000 ₾") = Some (Dec 105000 0)
  /\ parsePriceText (js "105.000") = Some (Dec 105000 0)
  /\ parsePriceText (js "$ 1,500") = Some (Dec 1500 0)
  /\ parsePriceText (js "12.5") = Some (Dec 125 (-1))
  /\ parsePriceText (js "ფასი შეთანხმებით") = None
  /\ parsePriceText [] = None.
Proof. repeat apply conj; vm_compute; reflexivity. Qed.

Example normalizeSelector_samples :
  normalizeSelector (js ".pt-0.md\:pt-8.pb-8") = Some (js ".pt-0[class*=" ++ dq ++ js "md:pt-8" ++ dq ++ js "].pb-8")
  /\ normalizeSelector (js "div.bg-\[rgb\(251\)\] > h1") = None
  /\ normalizeSelector (js "h1.title") = Some (js "h1.title").
Proof. repeat apply conj; vm_compute; reflexivity. Qed.

Example normalizeStreetForSs_samples :
  normalizeStreetForSs (js "თემქა- III მ/რ V კვარტ.") = js "III მიკრორაიონი, V კვარტალი - თემქა"
  /\ normalizeStreetForSs (js "ა მიკრორაიონი - გლდანი") = js "ა მიკრორაიონი - გლდანი"
  /\ normalizeStreetForSs (js "  ჭავჭავაძის გამზ ") = js "ჭავჭავაძის".
Proof. repeat apply conj; vm_compute; reflexivity. Qed.

Example roomTextOf_samples :
  roomTextOf (VNum (Dec 3 0)) = js "3"
  /\ roomTextOf (VNum (Dec 8 0)) = js "8"
  /\ roomTextOf (VStr (js " 12 ")) = js "8+"
  /\ roomTextOf (VStr (js "სტუდიო")) = js "სტუდიო".
Proof. repeat apply conj; vm_compute; reflexivity. Qed.

Example bathroomTextOf_samples :
  bathroomTextOf (VStr (js "2")) = js "2"
  /\ bathroomTextOf (VNum (Dec 5 0)) = js "5"
  /\ bathroomTextOf (VStr (js "3+")) = js "3"
  /\ bathroomTextOf (VStr (js "არა")) = noneToken.
Proof. repeat apply conj; vm_compute; reflexivity. Qed.

Example findStreetOption_shortest :
  findStreetOption snd
    [ (0%nat, js "III ა მიკრორაიონი - გლდანი"); (1%nat, js "ა მიკრორაიონი - გლდანი") ]
    (js "მიკრორაიონი")
  = Some (1%nat, js "ა მიკრორაიონი - გლდანი").
Proof. vm_compute. reflexivity. Qed.

Example bathroomSearchText_samples :
  bathroomSearchText (Some []) (Some [ (js "სველი წერტილი", VStr (js "7")) ]) = Some (js "5+")
  /\ bathroomSearchText (Some [ (js "სვ.წერტილი", VStr (js "0")) ]) (Some []) = Some noneToken
  /\ bathroomSearchText (Some []) (Some [ (js "სველი წერტილების რაოდენობა", VStr (js "2")) ])
     = Some (js "2")
  /\ bathroomSearchText (Some []) (Some []) = None.
Proof. repeat apply conj; vm_compute; reflexivity. Qed.

(** A number 0 counts as not found wherever the lookup goes on to another
    key; it is kept as the last key of [propertyDetails]. *)
Example bathroomSearchText_zero :
  bathroomSearchText (Some []) (Some [ (js "სველი წერტილი", VNum (Dec 0 0)) ]) = None
  /\ bathroomSearchText (Some [ (js "სველი წერტილი", VNum (Dec 0 0)) ]) (Some [])
     = Some noneToken.
Proof. repeat apply conj; vm_compute; reflexivity. Qed.

(** A count is compared after it is read as a Number: a text that reads as
    the cap itself is not above it. *)
Example bucket_after_rounding :
  bathroomTextOf (VStr (js "5.0000000000000000001")) = js "5"
  /\ bathroomTextOf (VStr (js "5.1")) = js "5+"
  /\ roomTextOf (VStr (js "8.0000000000000000001")) = js "8.0000000000000000001"
  /\ roomTextOf (VStr (js "8.1")) = js "8+".
Proof. repeat apply conj; vm_compute; reflexivity. Qed.

(** An attribute named like a property of [Object.prototype] finds that
    property where the built-in lists are looked up. *)
Example scrapeMappedAttribute_inherited :
  scrapeMappedAttribute (textPage []) ∅ (js "constructor") = Throw TypeError
  /\ scrapeMappedAttribute (textPage []) ∅ (js "__proto__") = Throw TypeError
  /\ scrapeMappedAttribute (textPage []) ∅ (js "toString") = Ok None
  /\ scrapeMappedAttribute (textPage []) ∅ (js "owner") = Ok None.
Proof. repeat apply conj; vm_compute; reflexivity. Qed.

(** A column headed [__proto__] leaves no entry. *)
Example loadMappings_proto_header :
  loadMappings (Response true (js "OK") (js "__proto__,title" ++ [10] ++ js ".x,h1" ++ [10]))
  = Ok (<[js "title" := js "h1"]> ∅).
Proof. vm_compute. reflexivity. Qed.

Example numericFieldValue_samples :
  numericFieldValue (js "3") = VNum (Dec 3 0)
  /\ numericFieldValue (js "75.5 მ²") = VNum (Dec 755 (-1))
  /\ numericFieldValue (js "სტუდიო") = VStr (js "სტუდიო")
  /\ numericFieldValue (js ".,5") = VStr (js ".,5")
  /\ numericFieldValue (js "120.") = VNum (Dec 120 0).
Proof. repeat apply conj; vm_compute; reflexivity. Qed.
